(** * WebUI-API: accessor wrappers over host-injected objects

    A shallow embedding of the TypeScript accessor classes of the WebUI-API
    library (AccessorScope, MMRLObjectAccessor, FileSystem, MMRLInterface,
    VersionInterface, Toast, SuFile, SuFileInputStream, Config) together with
    the properties stated about them.

    JavaScript values are a small inductive type; a method is a function in a
    state-and-exception monad whose state holds the host's own state, the
    trace of calls made on host objects and the console. *)

From Stdlib Require Import String Ascii List ZArith Lia Bool Arith.
From Stdlib Require Import Decimal DecimalString DecimalZ DecimalPos.
Import ListNotations.

Local Open Scope string_scope.
Local Open Scope list_scope.

(* ================================================================= *)
(** ** JavaScript values, exceptions and strings *)

Module JS.

(** The values the accessors exchange with the host.  Numbers are the
    integral ones; an object is its list of own properties in insertion
    order, an array is an object flagged as such whose keys are indices;
    [VRef r] is a reference to an object the host injected (an interface
    such as [$NeFile], a toast builder, a stream handle). *)
#[warnings="-register-all"]
Inductive value : Type :=
| VUndefined
| VNull
| VBool (b : bool)
| VNum (n : Z)
| VStr (s : string)
| VObj (isArray : bool) (props : list (string * value))
| VRef (r : nat).

(** [typeof v] *)
Definition typeof (v : value) : string :=
  match v with
  | VUndefined => "undefined"
  | VNull => "object"
  | VBool _ => "boolean"
  | VNum _ => "number"
  | VStr _ => "string"
  | VObj _ _ => "object"
  | VRef _ => "object"
  end.

(** ToBoolean: what [!v] negates. *)
Definition truthy (v : value) : bool :=
  match v with
  | VUndefined | VNull => false
  | VBool b => b
  | VNum n => negb (n =? 0)%Z
  | VStr s => negb (s =? "")
  | VObj _ _ => true
  | VRef _ => true
  end.

(** [isObject] of lodash: [v != null] with [typeof v] being ['object'] or
    ['function'].  An object of the engine or of the host, a function
    among them, is a [VRef]. *)
Definition isObject (v : value) : bool :=
  match v with VObj _ _ | VRef _ => true | _ => false end.

Inductive exn : Type :=
| Error (msg : string)
| TypeError (msg : string)
| ReferenceError (msg : string)
| SyntaxError (msg : string)
| DOMException (msg name : string).

Definition message (e : exn) : string :=
  match e with
  | Error m | TypeError m | ReferenceError m | SyntaxError m => m
  | DOMException m _ => m
  end.

(** A completion: normal with a result, or abrupt with a thrown exception. *)
Inductive outcome (A : Type) : Type :=
| Ret (a : A)
| Throw (e : exn).
Arguments Ret {A} a.
Arguments Throw {A} e.

(** [s.replace(/[cls]/g, rep)] for a character class [cls]: every character
    of the class is replaced, every other one is kept. *)
Fixpoint replace_class (cls : ascii -> bool) (rep : string) (s : string) : string :=
  match s with
  | EmptyString => EmptyString
  | String c rest =>
      (if cls c then rep else String c EmptyString) ++ replace_class cls rep rest
  end.

(** [s[i]] as a one-character string ([""] stands for [undefined], which the
    callers rule out by a length test). *)
Definition charAt (s : string) (i : nat) : string := substring i 1 s.

(** [toUpperCase] restricted to the ASCII letters. *)
Definition ascii_upper (c : ascii) : ascii :=
  let n := nat_of_ascii c in
  if (97 <=? n)%nat && (n <=? 122)%nat then ascii_of_nat (n - 32) else c.

Fixpoint ascii_toUpperCase (s : string) : string :=
  match s with
  | EmptyString => EmptyString
  | String c rest => String (ascii_upper c) (ascii_toUpperCase rest)
  end.

(** [String(n)] for an integral number: its decimal numeral. *)
Definition numberToString (n : Z) : string :=
  NilZero.string_of_int (Z.to_int n).

(** The global object as the list of its own enumerable properties, in
    the order [Object.keys] lists them. *)
Definition window (O : Type) : Type := list (string * O).

Fixpoint window_get {O : Type} (w : window O) (name : string) : option O :=
  match w with
  | [] => None
  | (k, o) :: rest => if k =? name then Some o else window_get rest name
  end.

End JS.
Import JS.

(* ================================================================= *)
(** ** util/AccessorScope *)

Module AccessorScope.

Definition isDashOrDot (c : ascii) : bool := ((c =? "-") || (c =? "."))%char.

(** [sanitizeScope(scope)]: [scope.replace(/[-.]/g, "_")]. *)
Definition sanitizeScope (scope : string) : string :=
  replace_class isDashOrDot "_" scope.

(** What the sanitization does to one character. *)
Definition sanitizeChar (c : ascii) : ascii :=
  if isDashOrDot c then "_"%char else c.

Section WithUpperCase.

(** [String.prototype.toUpperCase], which depends on the Unicode tables
    of the engine. *)
Variable toUpperCase : string -> string.

Definition sanitizedModIdWithFile (scope : string) : string :=
  let sanitized := sanitizeScope scope in
  (if (2 <=? String.length sanitized)%nat
   then toUpperCase (charAt sanitized 0) ++ charAt sanitized 1
   else if (0 <? String.length sanitized)%nat
        then toUpperCase (charAt sanitized 0)
        else "")
  ++ "File".

(** [ObjectScope]: a scope string, or the object itself. *)
Definition ObjectScope (O : Type) : Type := (string + O)%type.

Definition parseFileScope {O} (w : window O) (scope : ObjectScope O) : option O :=
  match scope with
  | inl s => window_get w ("$" ++ sanitizedModIdWithFile s)
  | inr o => Some o
  end.

End WithUpperCase.

(** [parseScope(scope)].  A global that does not exist reads as
    [undefined], and so does one that exists and holds [undefined]:
    [isUndefined o] is [typeof o === "undefined"], and in both cases the
    global named by the unsanitized scope is returned. *)
Definition parseScope {O} (isUndefined : O -> bool) (w : window O)
    (scope : ObjectScope O) : option O :=
  match scope with
  | inl s =>
      let sanitizedScope := window_get w ("$" ++ sanitizeScope s) in
      let unsanitizedScope := window_get w ("$" ++ s) in
      match sanitizedScope with
      | Some o => if isUndefined o then unsanitizedScope else Some o
      | None => unsanitizedScope
      end
  | inr o => Some o
  end.

(** The name under which [parseScope] first looks a string scope up. *)
Definition globalName (scope : string) : string := "$" ++ sanitizeScope scope.

End AccessorScope.

(* ================================================================= *)
(** ** The host: call trace, console, and the method monad *)

Module Host.

(** One call made on a host object. *)
Record call : Type := mkCall {
  call_target : nat;
  call_method : string;
  call_args : list value
}.

Inductive level : Type := LWarn | LError.

(** One console line: [console.warn(text)] or [console.error(text, e)]. *)
Record log_entry : Type := mkLog {
  log_level : level;
  log_text : string;
  log_payload : option exn
}.

Section World.

(** The host's own state (its files, its open streams, ...). *)
Variable H : Type.

(** What a host object does when a method is called on it: the completion
    of the call and the host's next state. *)
Definition semantics : Type :=
  nat -> string -> list value -> H -> outcome value * H.

Record world : Type := mkWorld {
  host : H;
  calls : list call;
  console : list log_entry
}.

Definition M (A : Type) : Type := world -> outcome A * world.

Definition ret {A} (a : A) : M A := fun w => (Ret a, w).

Definition throw {A} (e : exn) : M A := fun w => (Throw e, w).

Definition bind {A B} (m : M A) (k : A -> M B) : M B :=
  fun w =>
    match m w with
    | (Ret a, w') => k a w'
    | (Throw e, w') => (Throw e, w')
    end.

(** [try { body } catch (e) { handler(e) }] *)
Definition try_catch {A} (body : M A) (handler : exn -> M A) : M A :=
  fun w =>
    match body w with
    | (Ret a, w') => (Ret a, w')
    | (Throw e, w') => handler e w'
    end.

Definition log (l : level) (text : string) (payload : option exn) : M unit :=
  fun w => (Ret tt, mkWorld (host w) (calls w)
                     (console w ++ [mkLog l text payload])).

Definition console_warn (text : string) : M unit := log LWarn text None.

Definition console_error (text : string) (e : exn) : M unit :=
  log LError text (Some e).

Variable sem : semantics.

(** [target.method(...args)].  A call on [undefined] or [null] raises a
    [TypeError] before anything reaches the host; a call on a host object
    is recorded in the trace and answered by the host. *)
Definition invoke (target : value) (method : string) (args : list value) : M value :=
  fun w =>
    match target with
    | VRef r =>
        let '(res, h') := sem r method args (host w) in
        (res, mkWorld h' (calls w ++ [mkCall r method args]) (console w))
    | _ =>
        (Throw (TypeError ("Cannot read properties of " ++ typeof target
                           ++ " (reading '" ++ method ++ "')")), w)
    end.

End World.

Arguments mkWorld {H} host calls console.
Arguments host {H} w.
Arguments calls {H} w.
Arguments console {H} w.
Arguments ret {H A} a w.
Arguments throw {H A} e w.
Arguments bind {H A B} m k w.
Arguments try_catch {H A} body handler w.
Arguments log {H} l text payload w.
Arguments console_warn {H} text w.
Arguments console_error {H} text e w.
Arguments invoke {H} sem target method args w.

(** The world after [console.error(text, e)]. *)
Definition logged_error {H} (text : string) (e : exn) (w : world H) : world H :=
  mkWorld (host w) (calls w) (console w ++ [mkLog LError text (Some e)]).

(** How often a method was called, on whatever host object. *)
Definition callCount {H} (method : string) (w : world H) : nat :=
  List.length (filter (fun c => call_method c =? method) (calls w)).

(** The number of [close] calls in the trace. *)
Definition closeCount {H} (w : world H) : nat := callCount "close" w.

(** The number of [readChunk] calls in the trace. *)
Definition readChunkCount {H} (w : world H) : nat := callCount "readChunk" w.

End Host.
Import Host.

Declare Scope js_scope.
Delimit Scope js_scope with js.
Notation "x <- m ;; k" := (bind m (fun x => k))
  (at level 61, m at next level, right associativity) : js_scope.
Notation "m ;;; k" := (bind m (fun _ => k))
  (at level 61, right associativity) : js_scope.
Local Open Scope js_scope.

(* ================================================================= *)
(** ** classes/MMRLObjectAccessor *)

Module MMRLObjectAccessor.

(** What the accessors read from the browsing context. *)
Record env : Type := mkEnv {
  mmrlUserAgent : string;   (* Const.mmrlUserAgent, the fixed signature *)
  userAgent : string;       (* window.navigator.userAgent *)
  hostVersionCode : Z       (* the version code the host reports *)
}.

(** Modelled from the spec: the base class [MMRLObjectAccessor]
    (classes/MMRLObjectAccessor.ts) is not among the sources.  The spec
    describes it as wrapping "a possibly-absent host object", exposing
    "whether the current execution context is recognized as the expected
    host (by comparing a fixed signature string) and whether the host's
    reported version meets a caller-supplied minimum".  The comparison of
    the signature is the one the decorator NativeProperty makes
    ([Const.mmrlUserAgent === window.navigator.userAgent]). *)
Record accessor : Type := mkAccessor {
  context : env;
  interface : value        (* the host object, or [VUndefined] *)
}.

(** Modelled from the spec: the getter [isMMRL] of [MMRLObjectAccessor],
    "whether the current execution context is recognized as the expected
    host (by comparing a fixed signature string)". *)
Definition isMMRL (this : accessor) : bool :=
  mmrlUserAgent (context this) =? userAgent (context this).

(** Modelled from the spec: the method [hasRequiredVersion] of
    [MMRLObjectAccessor], "whether the host's reported version meets a
    caller-supplied minimum".  The spec does not say how the version code
    is obtained from the host, nor that the method logs; the reported code
    is a field of the context here, and the method a comparison. *)
Definition hasRequiredVersion (this : accessor) (requiredVersion : Z) : bool :=
  (requiredVersion <=? hostVersionCode (context this))%Z.

End MMRLObjectAccessor.
Import MMRLObjectAccessor.

(* ================================================================= *)
(** ** NativeProperty, the property decorator *)

Module NativeProperty.

(** The fields of [NativeDecoratorOptions] the decorator reads; an absent
    field is [None] (and [false] for [deprecated]). *)
Record options : Type := mkOptions {
  default : value;
  deprecated : bool;
  deprecatedMessage : option string;
  requireVersion : option Z          (* [typeof requireVersion === "number"] *)
}.

(** What the closures of one decorated property share. *)
Record property : Type := mkProperty {
  opts : options;
  propertyKey : string;
  isMMRL : bool;        (* compared once, when the decorator runs *)
  stored : value        (* [let value] *)
}.

(** [NativeProperty(options)(target, propertyKey)] *)
Definition decorate (e : env) (o : options) (propertyKey : string) : property :=
  mkProperty o propertyKey (mmrlUserAgent e =? userAgent e) VUndefined.

(** [`${x}`] for an optional string. *)
Definition show (x : option string) : string :=
  match x with Some t => t | None => "undefined" end.

(** [v < n] for the number a host returns as its version code.  For a
    value that is not a number the engine converts it first ([null] to 0,
    a numeral to its value); that conversion is not modelled, and what is
    stated of the getter and the setter is stated for a version code that
    is a number. *)
Definition lessThan (v : value) (n : Z) : bool :=
  match v with
  | VNum m => (m <? n)%Z
  | _ => false
  end.

Section Accessors.
Context {H : Type} (sem : semantics H).

(** The part the getter and the setter share after the MMRL test: [None]
    when the access goes through, [Some tt] when the version gate stopped
    it (after its warning). *)
Definition versionGate (w : window value) (p : property) (what : string)
  : M H (option unit) :=
  match requireVersion (opts p) with
  | Some required =>
      let access := match window_get w "mmrl" with Some o => o | None => VUndefined end in
      if negb (truthy access)
      then console_warn "MMRL is not available!" ;;; ret (Some tt)
      else
        config <- invoke sem access "getBuildConfig" [] ;;
        code <- invoke sem config "getVersionCode" [] ;;
        if lessThan code required
        then console_warn (what ++ propertyKey p ++ " requires MMRL version "
                           ++ numberToString required ++ " or higher!") ;;;
             ret (Some tt)
        else ret None
  | None => ret None
  end.

Definition getter (w : window value) (p : property) : M H value :=
  (if deprecated (opts p)
   then console_warn ("Method " ++ propertyKey p ++ " is deprecated! "
                      ++ show (deprecatedMessage (opts p)))
   else ret tt) ;;;
  if negb (isMMRL p) then ret (default (opts p))
  else
    stopped <- versionGate w p "Method " ;;
    match stopped with
    | Some _ => ret (default (opts p))
    | None => ret (stored p)
    end.

Definition setter (w : window value) (p : property) (newValue : value)
  : M H property :=
  (if deprecated (opts p)
   then console_warn ("Get Method " ++ propertyKey p ++ " is deprecated! "
                      ++ show (deprecatedMessage (opts p)))
   else ret tt) ;;;
  if negb (isMMRL p) then ret p
  else
    stopped <- versionGate w p "Set Method " ;;
    match stopped with
    | Some _ => ret p
    | None => ret (mkProperty (opts p) (propertyKey p) (isMMRL p) newValue)
    end.

End Accessors.

End NativeProperty.

(* ================================================================= *)
(** ** classes/FileSystem *)

Module FileSystem.

Section Methods.
Context {H : Type} (sem : semantics H).

Definition advancedFsOperations : Z := 33162.

Definition read (this : accessor) (path : string) (bytes : bool) : M H value :=
  if negb (isMMRL this) then ret VNull
  else invoke sem (interface this) "read" [VStr path; VBool bytes].

Definition write (this : accessor) (path data : string) : M H value :=
  if isMMRL this
  then invoke sem (interface this) "write" [VStr path; VStr data] ;;; ret VUndefined
  else ret VUndefined.

Definition readAsBase64 (this : accessor) (path : string) : M H value :=
  if isMMRL this
  then invoke sem (interface this) "readAsBase64" [VStr path]
  else ret VNull.

Definition list_ (this : accessor) (path delimiter : string) : M H value :=
  if isMMRL this
  then invoke sem (interface this) "list" [VStr path; VStr delimiter]
  else ret VNull.

Definition size (this : accessor) (path : string) (recursive : bool) : M H value :=
  if isMMRL this
  then invoke sem (interface this) "size" [VStr path; VBool recursive]
  else ret (VNum 0).

Definition stat (this : accessor) (path : string) (total : bool) : M H value :=
  if isMMRL this
  then invoke sem (interface this) "stat" [VStr path; VBool total]
  else ret (VNum 0).

Definition delete (this : accessor) (path : string) : M H value :=
  if isMMRL this
  then invoke sem (interface this) "delete" [VStr path]
  else ret (VBool false).

Definition exists_ (this : accessor) (path : string) : M H value :=
  if isMMRL this
  then invoke sem (interface this) "exists" [VStr path]
  else ret (VBool false).

Definition _unsupportedWarning (method : string) : M H value :=
  console_warn ("'" ++ method ++ "' is not supported on this version") ;;;
  ret (VBool false).

(** The shape shared by the methods gated on [advancedFsOperations]. *)
Definition gated (this : accessor) (warnName method : string) (args : list value)
  : M H value :=
  if negb (isMMRL this) then ret (VBool false)
  else if negb (hasRequiredVersion this advancedFsOperations)
       then _unsupportedWarning warnName
       else invoke sem (interface this) method args.

Definition isDirectory (this : accessor) (path : string) : M H value :=
  gated this "isDirectroy" "isDirectory" [VStr path].

Definition isFile (this : accessor) (path : string) : M H value :=
  gated this "isFile" "isFile" [VStr path].

Definition mkdir (this : accessor) (path : string) : M H value :=
  gated this "mkdir" "mkdir" [VStr path].

Definition mkdirs (this : accessor) (path : string) : M H value :=
  gated this "mkdirs" "mkdirs" [VStr path].

Definition createNewFile (this : accessor) (path : string) : M H value :=
  gated this "createNewFile" "createNewFile" [VStr path].

Definition renameTo (this : accessor) (target dest : string) : M H value :=
  gated this "renameTo" "renameTo" [VStr target; VStr dest].

Definition copyTo (this : accessor) (target dest : string) (overwrite : bool)
  : M H value :=
  gated this "copyTo" "copyTo" [VStr target; VStr dest; VBool overwrite].

Definition canExecute (this : accessor) (path : string) : M H value :=
  gated this "canExecute" "canExecute" [VStr path].

Definition canRead (this : accessor) (path : string) : M H value :=
  gated this "canRead" "canRead" [VStr path].

Definition isHidden (this : accessor) (path : string) : M H value :=
  gated this "isHidden" "isHidden" [VStr path].

End Methods.

(** [new FileSystem(scope)]: the interface is looked up under the
    file-interface name of the scope. *)
Definition new (toUpperCase : string -> string) (e : env) (w : window value)
    (scope : AccessorScope.ObjectScope value) : accessor :=
  mkAccessor e
    (match AccessorScope.parseFileScope toUpperCase w scope with
     | Some o => o
     | None => VUndefined
     end).

End FileSystem.

(* ================================================================= *)
(** ** classes/MMRLInterface *)

Module MMRLInterface.

(** [new MMRLInterface(scope, options)] *)
Definition new (e : env) (w : window value)
    (scope : AccessorScope.ObjectScope value) (noScopeParse : bool) : accessor :=
  let parsedScope :=
    if noScopeParse
    then match scope with
         | inl s => window_get w ("$" ++ s)
         | inr _ => None   (* [window["$[object Object]"]] *)
         end
    else AccessorScope.parseScope (fun o => typeof o =? "undefined") w scope in
  mkAccessor e (match parsedScope with Some o => o | None => VUndefined end).

Section Methods.
Context {H : Type} (sem : semantics H).

(** [parseJSON] of the base class, which is not among the sources. *)
Variable parseJSON : value -> M H value.

Definition manager (this : accessor) : M H value :=
  if negb (isMMRL this) then ret VNull
  else s <- invoke sem (interface this) "getManager" [] ;; parseJSON s.

Definition mmrl (this : accessor) : M H value :=
  if negb (isMMRL this) then ret VNull
  else s <- invoke sem (interface this) "getMmrl" [] ;; parseJSON s.

Definition hasAccessToFileSystem (this : accessor) : M H value :=
  if negb (isMMRL this) then ret (VBool false)
  else invoke sem (interface this) "getHasAccessToFileSystem" [].

Definition hasAccessToAdvancedKernelSuAPI (this : accessor) : M H value :=
  if negb (isMMRL this) then ret (VBool true)
  else invoke sem (interface this) "getHasAccessToAdvancedKernelSuAPI" [].

Definition windowTopInset (this : accessor) : M H value :=
  if negb (isMMRL this) then ret (VNum 0)
  else invoke sem (interface this) "getWindowTopInset" [].

Definition windowBottomInset (this : accessor) : M H value :=
  if negb (isMMRL this) then ret (VNum 0)
  else invoke sem (interface this) "getWindowBottomInset" [].

Definition lightNavigationBars (this : accessor) : M H value :=
  if negb (isMMRL this) then ret (VBool false)
  else invoke sem (interface this) "isLightNavigationBars" [].

Definition darkMode (this : accessor) : M H value :=
  if negb (isMMRL this) then ret (VBool false)
  else invoke sem (interface this) "isDarkMode" [].

Definition set_lightNavigationBars (this : accessor) (light : value) : M H value :=
  if negb (isMMRL this) then ret VUndefined
  else invoke sem (interface this) "setLightNavigationBars" [light] ;;; ret VUndefined.

Definition lightStatusBars (this : accessor) : M H value :=
  if negb (isMMRL this) then ret (VBool false)
  else invoke sem (interface this) "isLightStatusBars" [].

Definition set_lightStatusBars (this : accessor) (light : value) : M H value :=
  if negb (isMMRL this) then ret VUndefined
  else invoke sem (interface this) "setLightStatusBars" [light] ;;; ret VUndefined.

Definition sdk (this : accessor) : M H value :=
  if negb (isMMRL this) then ret (VNum (-1))
  else invoke sem (interface this) "getSdk" [].

Definition shareText (this : accessor) (text type : value) : M H value :=
  if negb (isMMRL this) then ret VUndefined
  else match type with
       | VUndefined =>
           invoke sem (interface this) "shareText" [text] ;;; ret VUndefined
       | _ =>
           invoke sem (interface this) "shareText" [text; type] ;;; ret VUndefined
       end.

Definition requireVersionNewAPIs : Z := 33045.

Definition requestAdvancedKernelSUAPI (this : accessor) : M H value :=
  if negb (isMMRL this) then ret VUndefined
  else if negb (hasRequiredVersion this requireVersionNewAPIs) then ret VUndefined
  else invoke sem (interface this) "requestAdvancedKernelSUAPI" [] ;;; ret VUndefined.

Definition requestFileSystemAPI (this : accessor) : M H value :=
  if negb (isMMRL this) then ret VUndefined
  else if negb (hasRequiredVersion this requireVersionNewAPIs) then ret VUndefined
  else invoke sem (interface this) "requestFileSystemAPI" [] ;;; ret VUndefined.

End Methods.

End MMRLInterface.

(* ================================================================= *)
(** ** classes/VersionInterface *)

Module VersionInterface.

(** [new VersionInterface()]: the interface is [window["mmrl"]]. *)
Definition new (e : env) (w : window value) : accessor :=
  mkAccessor e (match window_get w "mmrl" with Some o => o | None => VUndefined end).

Section Getters.
Context {H : Type} (sem : semantics H).

Definition defaultNumber : value := VNum (-1).
Definition defaultString : value := VNum (-1).

(** The shape shared by the getters:
    [this.interface.config().getter()] unless the context is not MMRL or
    the interface is missing. *)
Definition getter (this : accessor) (default : value) (config name : string)
  : M H value :=
  if negb (isMMRL this) || negb (truthy (interface this)) then ret default
  else c <- invoke sem (interface this) config [] ;; invoke sem c name [].

Definition versionCode (this : accessor) : M H value :=
  getter this defaultNumber "getBuildConfig" "getVersionCode".

Definition versionName (this : accessor) : M H value :=
  getter this defaultString "getBuildConfig" "getVersionName".

Definition applicationId (this : accessor) : M H value :=
  getter this defaultString "getBuildConfig" "getApplicationId".

Definition buildType (this : accessor) : M H value :=
  getter this defaultString "getBuildConfig" "getBuildType".

Definition isDevVersion (this : accessor) : M H value :=
  getter this (VBool false) "getBuildConfig" "isDevVersion".

Definition isGooglePlayBuild (this : accessor) : M H value :=
  getter this (VBool false) "getBuildConfig" "isGooglePlayBuild".

Definition platform (this : accessor) : M H value :=
  getter this defaultString "getRootConfig" "getPlatform".

Definition rootVersionCode (this : accessor) : M H value :=
  getter this defaultNumber "getRootConfig" "getVersionCode".

Definition rootVersionName (this : accessor) : M H value :=
  getter this defaultString "getRootConfig" "getVersionName".

End Getters.

End VersionInterface.

(* ================================================================= *)
(** ** classes/Toast *)

Module Toast.

Record toast : Type := mkToast {
  base : accessor;
  toastBuilder : value;    (* [ToastImpl | undefined] *)
  duration : value
}.

Definition LENGTH_SHORT : Z := 0.
Definition LENGTH_LONG : Z := 1.
Definition requireVersion : Z := 33049.

(** [a !== b] on the values a duration is compared with. *)
Definition strictNeqNum (a : value) (n : Z) : bool :=
  match a with
  | VNum m => negb (m =? n)%Z
  | _ => true
  end.

(** The guards every Toast method starts with, as one condition: the
    context is MMRL, the builder is there, the host's version suffices. *)
Definition ready (this : toast) : bool :=
  isMMRL (base this) && truthy (toastBuilder this)
  && hasRequiredVersion (base this) requireVersion.

Section Methods.
Context {H : Type} (sem : semantics H).

(** [new Toast()] *)
Definition new (e : env) (w : window value) : M H toast :=
  let this := mkAccessor e
    (match window_get w "mmrl" with Some o => o | None => VUndefined end) in
  if negb (truthy (interface this))
  then ret (mkToast this VUndefined (VNum LENGTH_SHORT))
  else b <- invoke sem (interface this) "toastBuilder" [] ;;
       ret (mkToast this b (VNum LENGTH_SHORT)).

Definition guarded (this : toast) (body : M H toast) : M H toast :=
  if negb (isMMRL (base this)) || negb (truthy (toastBuilder this)) then ret this
  else if negb (hasRequiredVersion (base this) requireVersion) then ret this
  else body.

Definition setText (this : toast) (text : value) : M H toast :=
  guarded this
    (if negb (typeof text =? "string")
     then throw (TypeError "Text must be a string")
     else invoke sem (toastBuilder this) "setText" [text] ;;; ret this).

Definition setDuration (this : toast) (duration : value) : M H toast :=
  guarded this
    (if negb (typeof duration =? "number")
     then throw (TypeError "Duration must be a number")
     else if strictNeqNum duration LENGTH_SHORT && strictNeqNum duration LENGTH_LONG
     then throw (Error "Invalid duration")
     else
       let this' := mkToast (base this) (toastBuilder this) duration in
       invoke sem (toastBuilder this') "setDuration" [Toast.duration this'] ;;;
       ret this').

Definition setGravity (this : toast) (gravity xOffset yOffset : value) : M H toast :=
  guarded this
    (if negb (typeof gravity =? "number")
     then throw (TypeError "Gravity must be a number")
     else if negb (typeof xOffset =? "number")
     then throw (TypeError "X offset must be a number")
     else if negb (typeof yOffset =? "number")
     then throw (TypeError "Y offset must be a number")
     else invoke sem (toastBuilder this) "setGravity" [gravity; xOffset; yOffset] ;;;
          ret this).

Definition show (this : toast) : M H toast :=
  guarded this (invoke sem (toastBuilder this) "show" [] ;;; ret this).

Definition cancel (this : toast) : M H toast :=
  guarded this (invoke sem (toastBuilder this) "cancel" [] ;;; ret this).

Definition makeText (e : env) (w : window value) (text duration : value) : M H toast :=
  t <- new e w ;;
  t <- setText t text ;;
  setDuration t duration.

End Methods.

End Toast.

(* ================================================================= *)
(** ** The file-stream interface pattern *)

Module Pattern.

(** [\w] *)
Definition isWord (c : ascii) : bool :=
  let n := nat_of_ascii c in
  ((48 <=? n) && (n <=? 57) || (65 <=? n) && (n <=? 90)
   || (97 <=? n) && (n <=? 122) || (n =? 95))%nat.

(** The line terminators among the characters modelled: LF and CR. *)
Definition isLineTerminator (c : ascii) : bool :=
  let n := nat_of_ascii c in ((n =? 10) || (n =? 13))%nat.

(** The lines of a string: with the [m] flag, [^] and [$] match at their
    ends. *)
Fixpoint splitLines (s : string) : list string :=
  match s with
  | EmptyString => [EmptyString]
  | String c rest =>
      if isLineTerminator c then EmptyString :: splitLines rest
      else match splitLines rest with
           | [] => [String c EmptyString]
           | l :: ls => String c l :: ls
           end
  end.

(** One line against [\$(\w{2})FileInputStream]. *)
Definition lineMatches (l : string) : bool :=
  match l with
  | String d (String a (String b rest)) =>
      (d =? "$")%char && isWord a && isWord b && (rest =? "FileInputStream")
  | _ => false
  end.

(** [key.match(/^\$(\w{2})FileInputStream$/m)] is not [null]. *)
Definition matchesFileInputStream (key : string) : bool :=
  existsb lineMatches (splitLines key).

(** [Object.keys(window).find(key => key.match(...))] *)
Definition findInterface {O} (w : window O) : option string :=
  find matchesFileInputStream (map fst w).

(** [!this._interface] *)
Definition missing (i : option string) : bool :=
  match i with
  | None => true
  | Some k => k =? ""
  end.

End Pattern.

(* ================================================================= *)
(** ** classes/SuFile (the synchronous methods) *)

Module SuFile.

Record sufile : Type := mkSuFile {
  path : string;
  _interface : option string;
  _fileInterface : value
}.

Definition globalOf (w : window value) (name : option string) : value :=
  match name with
  | Some k => match window_get w k with Some o => o | None => VUndefined end
  | None => VUndefined
  end.

(** [new SuFile(path)] *)
Definition new (w : window value) (path : string) : outcome sufile :=
  let _interface := Pattern.findInterface w in
  if Pattern.missing _interface
  then Throw (ReferenceError "Unable to find a interface SuFile")
  else Ret (mkSuFile path _interface (globalOf w _interface)).

Section Methods.
Context {H : Type} (sem : semantics H).

Definition _try {T} (fallback : T) (fn : M H T) (errorMsg : string) : M H T :=
  try_catch fn (fun error => console_error (errorMsg ++ ":") error ;;; ret fallback).

Definition read (this : sufile) : M H value :=
  _try VNull (invoke sem (_fileInterface this) "read" [VStr (path this)])
    ("Error while reading from '" ++ path this ++ "'").

Definition write (this : sufile) (data : string) : M H value :=
  _try (VBool false)
    (invoke sem (_fileInterface this) "write" [VStr (path this); VStr data])
    ("Error while writing to '" ++ path this ++ "'").

Definition readAsBase64 (this : sufile) : M H value :=
  _try VNull (invoke sem (_fileInterface this) "readAsBase64" [VStr (path this)])
    ("Error while reading '" ++ path this ++ "' as base64").

Definition list_ (this : sufile) (delimiter : string) : M H value :=
  _try (VStr "[]")
    (invoke sem (_fileInterface this) "list" [VStr (path this); VStr delimiter])
    ("Error while listing '" ++ path this ++ "'").

Definition size (this : sufile) (recursive : bool) : M H value :=
  _try (VNum 0)
    (invoke sem (_fileInterface this) "size" [VStr (path this); VBool recursive])
    ("Error while getting size of '" ++ path this ++ "'").

Definition delete (this : sufile) : M H value :=
  _try (VBool false) (invoke sem (_fileInterface this) "delete" [VStr (path this)])
    ("Error while deleting '" ++ path this ++ "'").

Definition exists_ (this : sufile) : M H value :=
  _try (VBool false) (invoke sem (_fileInterface this) "exists" [VStr (path this)])
    ("Error while checking existence of '" ++ path this ++ "'").

Definition isDirectory (this : sufile) : M H value :=
  _try (VBool false) (invoke sem (_fileInterface this) "isDirectory" [VStr (path this)])
    ("Error while checking if '" ++ path this ++ "' is a directory").

Definition isFile (this : sufile) : M H value :=
  _try (VBool false) (invoke sem (_fileInterface this) "isFile" [VStr (path this)])
    ("Error while checking if '" ++ path this ++ "' is a file").

Definition isSymLink (this : sufile) : M H value :=
  _try (VBool false) (invoke sem (_fileInterface this) "isSymLink" [VStr (path this)])
    ("Error while checking if '" ++ path this ++ "' is a symbolic link").

Definition mkdir (this : sufile) : M H value :=
  _try (VBool false) (invoke sem (_fileInterface this) "mkdir" [VStr (path this)])
    ("Error while creating directory '" ++ path this ++ "'").

Definition mkdirs (this : sufile) : M H value :=
  _try (VBool false) (invoke sem (_fileInterface this) "mkdirs" [VStr (path this)])
    ("Error while creating directories '" ++ path this ++ "'").

Definition createNewFile (this : sufile) : M H value :=
  _try (VBool false) (invoke sem (_fileInterface this) "createNewFile" [VStr (path this)])
    ("Error while creating file '" ++ path this ++ "'").

Definition renameTo (this : sufile) (destPath : string) : M H value :=
  _try (VBool false)
    (invoke sem (_fileInterface this) "renameTo" [VStr (path this); VStr destPath])
    ("Error while renaming '" ++ path this ++ "' to '" ++ destPath ++ "'").

Definition copyTo (this : sufile) (targetPath : string) (overwrite : bool) : M H value :=
  _try (VBool false)
    (invoke sem (_fileInterface this) "copyTo"
       [VStr (path this); VStr targetPath; VBool overwrite])
    ("Error while copying '" ++ path this ++ "' to '" ++ targetPath ++ "'").

Definition canExecute (this : sufile) : M H value :=
  _try (VBool false) (invoke sem (_fileInterface this) "canExecute" [VStr (path this)])
    ("Error while checking if '" ++ path this ++ "' can be executed").

Definition canWrite (this : sufile) : M H value :=
  _try (VBool false) (invoke sem (_fileInterface this) "canWrite" [VStr (path this)])
    ("Error while checking if '" ++ path this ++ "' can be written").

Definition canRead (this : sufile) : M H value :=
  _try (VBool false) (invoke sem (_fileInterface this) "canRead" [VStr (path this)])
    ("Error while checking if '" ++ path this ++ "' can be read").

Definition isHidden (this : sufile) : M H value :=
  _try (VBool false) (invoke sem (_fileInterface this) "isHidden" [VStr (path this)])
    ("Error while checking if '" ++ path this ++ "' is hidden").

End Methods.

End SuFile.

(* ================================================================= *)
(** ** classes/SuFileInputStream *)

Module SuFileInputStream.

Record stream : Type := mkStream {
  path : string;
  _interface : option string;
  _is : value
}.

Section Methods.
Context {H : Type} (sem : semantics H).

(** [new SuFileInputStream(path)] *)
Definition new (w : window value) (path : string) : M H stream :=
  let _interface := Pattern.findInterface w in
  if Pattern.missing _interface
  then throw (ReferenceError "Unable to find a interface SuFileInputStream")
  else
    _is <- invoke sem (SuFile.globalOf w _interface) "open" [VStr path] ;;
    if negb (truthy _is)
    then throw (Error "Failed to open file input stream")
    else ret (mkStream path _interface _is).

(** [this._is?.close()] *)
Definition close (this : stream) : M H value :=
  match _is this with
  | VUndefined | VNull => ret VUndefined
  | handle => invoke sem handle "close" [] ;;; ret VUndefined
  end.

Definition read (this : stream) : M H value :=
  invoke sem (_is this) "read" [].

Definition skip (this : stream) : M H value :=
  invoke sem (_is this) "skip" [].

Definition readChunk (this : stream) (chunkSize : value) : M H value :=
  invoke sem (_is this) "readChunk" [chunkSize].

End Methods.

End SuFileInputStream.

(* ================================================================= *)
(** ** SuFile.fetch: the streaming read *)

Module Fetch.

(** The state of the [ReadableStream] handed to the [Response]. *)
Inductive stream_state : Type :=
| Readable
| Closed
| Errored (e : exn).

(** The state of the promise [fetch] returns. *)
Inductive promise : Type :=
| Pending
| Resolved
| Rejected (e : exn).

(** [FetchStreamOptions]; a signal is given by its [aborted] flag. *)
Record options : Type := mkOptions {
  opt_chunkSize : option Z;
  opt_signal : option bool
}.

Definition defaultChunkSize : Z := 1024 * 1024.

(** What the closures of one [fetch] call share: the variables they
    capture, the stream and its queue, the promise. *)
Record state : Type := mkState {
  input : option SuFileInputStream.stream;
  chunkSize : Z;
  signal : option bool;          (* [mergedOptions.signal] and its [aborted] *)
  listening : bool;              (* [abortHandler] is registered on it *)
  body : option stream_state;    (* the stream, once constructed *)
  queue : list (list Z);         (* the [Uint8Array]s enqueued so far *)
  result : promise
}.

Definition settle (p : promise) (st : state) : state :=
  match result st with
  | Pending => mkState (input st) (chunkSize st) (signal st) (listening st)
                 (body st) (queue st) p
  | _ => st
  end.

Definition resolve (st : state) : state := settle Resolved st.
Definition reject (e : exn) (st : state) : state := settle (Rejected e) st.

Definition set_listening (b : bool) (st : state) : state :=
  mkState (input st) (chunkSize st) (signal st) b (body st) (queue st) (result st).

Definition set_body (s : stream_state) (st : state) : state :=
  mkState (input st) (chunkSize st) (signal st) (listening st) (Some s)
    (queue st) (result st).

Definition set_aborted (st : state) : state :=
  mkState (input st) (chunkSize st)
    (match signal st with Some _ => Some true | None => None end)
    (listening st) (body st) (queue st) (result st).

Definition enqueue (chunk : list Z) (st : state) : state :=
  mkState (input st) (chunkSize st) (signal st) (listening st) (body st)
    (queue st ++ [chunk]) (result st).

(** [new Uint8Array(chunk)]: every number is taken modulo 256. *)
Definition Uint8Array (chunk : list Z) : list Z :=
  map (fun n => n mod 256)%Z chunk.

Section Closures.
Context {H : Type} (sem : semantics H).

(** [JSON.parse] on what [readChunk] returned.  [readChunk] documents its
    result as the JSON text of a byte array, so the parsed chunk is a list
    of numbers, unless [JSON.parse] throws. *)
Variable JSON_parse : value -> outcome (list Z).

(** [input?.close()] *)
Definition close_input (st : state) : M H value :=
  match input st with
  | Some i => SuFileInputStream.close sem i
  | None => ret VUndefined
  end.

Definition abortHandler (st : state) : M H state :=
  try_catch (close_input st ;;; ret tt)
    (fun error => console_error "Error during abort cleanup:" error) ;;;
  ret (reject (DOMException "The operation was aborted." "AbortError") st).

Definition cleanup (st : state) : M H state :=
  let st' := match signal st with
             | Some _ => set_listening false st
             | None => st
             end in
  try_catch (close_input st' ;;; ret tt)
    (fun error => console_error "Error during cleanup:" error) ;;;
  ret st'.

(** The [pull] method of the underlying source. *)
Definition pull (st : state) : M H state :=
  try_catch
    (chunkData <-
       match input st with
       | Some i => SuFileInputStream.readChunk sem i (VNum (chunkSize st))
       | None => throw (TypeError "Cannot read properties of null (reading 'readChunk')")
       end ;;
     if negb (truthy chunkData)
     then cleanup (set_body Closed st)
     else
       match JSON_parse chunkData with
       | Throw e => throw e
       | Ret chunk =>
           if (0 <? length chunk)%nat
           then ret (enqueue (Uint8Array chunk) st)
           else cleanup (set_body Closed st)
       end)
    (fun error =>
       st' <- cleanup st ;;
       ret (reject (Error ("Error reading file chunk: " ++ message error))
              (set_body (Errored error) st'))).

(** The [cancel] method of the underlying source. *)
Definition cancel (st : state) : M H state := cleanup st.

(** [fetch(options)] up to the point where it returns its promise. *)
Definition fetch (w : window value) (this : SuFile.sufile) (o : options)
  : M H state :=
  let mergedChunkSize :=
    match opt_chunkSize o with Some c => c | None => defaultChunkSize end in
  let st0 := mkState None mergedChunkSize (opt_signal o) false None [] Pending in
  opened <- try_catch
              (i <- SuFileInputStream.new sem w (SuFile.path this) ;; ret (inr i))
              (fun e => ret (inl e)) ;;
  match opened with
  | inl error =>
      ret (reject (Error ("Failed to open file at path '" ++ SuFile.path this
                          ++ "': " ++ message error)) st0)
  | inr i =>
      let st1 := mkState (Some i) mergedChunkSize (opt_signal o) false None []
                   Pending in
      match opt_signal o with
      | Some true => abortHandler st1
      | Some false => ret (resolve (set_body Readable (set_listening true st1)))
      | None => ret (resolve (set_body Readable st1))
      end
  end.

(** What can happen to a fetch after it returned: the consumer asks for
    the next chunk, the consumer cancels the stream, the signal aborts. *)
Inductive event : Type :=
| Pull
| Cancel
| Abort.

(** The stream calls [pull] and [cancel] only while it is readable; a
    signal fires [abort] once, to the handlers registered at that time. *)
Definition step (ev : event) (st : state) : M H state :=
  match ev with
  | Pull =>
      match body st with
      | Some Readable => pull st
      | _ => ret st
      end
  | Cancel =>
      match body st with
      | Some Readable => st' <- cancel st ;; ret (set_body Closed st')
      | _ => ret st
      end
  | Abort =>
      match signal st with
      | Some false =>
          if listening st then abortHandler (set_aborted st)
          else ret (set_aborted st)
      | _ => ret st
      end
  end.

Fixpoint run (evs : list event) (st : state) : M H state :=
  match evs with
  | [] => ret st
  | ev :: rest => st' <- step ev st ;; run rest st'
  end.

(** A consumer that reads the body to its end: it pulls while the stream
    is readable, at most [fuel] times. *)
Fixpoint drain (fuel : nat) (st : state) : M H state :=
  match fuel with
  | O => ret st
  | S fuel' =>
      match body st with
      | Some Readable => st' <- pull st ;; drain fuel' st'
      | _ => ret st
      end
  end.

End Closures.

(** The fetch has opened the handle [r]. *)
Definition opened (r : nat) (st : state) : Prop :=
  exists path name, input st = Some (SuFileInputStream.mkStream path name (VRef r)).

(** The stream exists and has neither been closed nor errored. *)
Definition readable (st : state) : bool :=
  match body st with
  | Some Readable => true
  | _ => false
  end.

(** No event of the run is an abort. *)
Definition noAbort (evs : list event) : bool :=
  forallb (fun ev => match ev with Abort => false | _ => true end) evs.

End Fetch.

(* ================================================================= *)
(** ** lodash: [_.get] and [_.set] *)

(** The two library functions [Config] calls, after lodash 4.17: [get]
    with [baseGet], [set] with [baseSet] and [assignValue], and [castPath]
    with [isKey].  A document is a tree of own properties, as
    [JSON.parse] builds it: the properties of an object in the order the
    engine lists them, the elements of an array under their indices (an
    index that is not listed is a hole, and the length of the array is one
    more than its last index).  No object is reachable by two ways.

    What the model covers is the ordinary property write and read
    ([ordinary] below).  It does not cover the [length] of an array, which
    the engine resizes the array for or refuses with a [RangeError], nor
    what an object inherits from its prototype, nor the inside of an object
    of the engine or the host ([VRef]): the statements about [get] and
    [set] say where they depend on that. *)

Module Lodash.

Fixpoint lookup (props : list (string * value)) (key : string) : option value :=
  match props with
  | [] => None
  | (k, v) :: rest => if k =? key then Some v else lookup rest key
  end.

Definition isDigit (c : ascii) : bool :=
  let n := nat_of_ascii c in ((48 <=? n) && (n <=? 57))%nat.

Fixpoint allDigits (s : string) : bool :=
  match s with
  | EmptyString => true
  | String c rest => isDigit c && allDigits rest
  end.

Fixpoint digitsValue (acc : Z) (s : string) : Z :=
  match s with
  | EmptyString => acc
  | String c rest => digitsValue (10 * acc + Z.of_nat (nat_of_ascii c - 48)) rest
  end.

Definition MAX_SAFE_INTEGER : Z := 9007199254740991.

(** [isIndex(key)]: a decimal numeral without leading zero ([reIsUint])
    whose value is below [MAX_SAFE_INTEGER]. *)
Definition isIndex (key : string) : bool :=
  match key with
  | EmptyString => false
  | String c rest =>
      isDigit c && allDigits rest
      && ((c =? "0")%char && (rest =? "") || negb (c =? "0")%char)
      && (digitsValue 0 key <? MAX_SAFE_INTEGER)%Z
  end.

(** An array index of the engine: a decimal numeral without leading zero
    whose value is below [2^32 - 1]. *)
Definition arrayIndex (key : string) : option Z :=
  if isIndex key && (digitsValue 0 key <? 4294967295)%Z
  then Some (digitsValue 0 key)
  else None.

(** The order in which the engine lists own properties: the array indices
    first, ascending, then the other keys in the order of their creation.
    [listedBefore key k]: the new key [key] goes before the listed [k]. *)
Definition listedBefore (key k : string) : bool :=
  match arrayIndex key with
  | Some i =>
      match arrayIndex k with
      | Some j => (i <? j)%Z
      | None => true
      end
  | None => false
  end.

Fixpoint replace (props : list (string * value)) (key : string) (v : value)
  : list (string * value) :=
  match props with
  | [] => []
  | (k, x) :: rest =>
      if k =? key then (k, v) :: rest else (k, x) :: replace rest key v
  end.

Fixpoint insert (props : list (string * value)) (key : string) (v : value)
  : list (string * value) :=
  match props with
  | [] => [(key, v)]
  | (k, x) :: rest =>
      if listedBefore key k then (key, v) :: (k, x) :: rest
      else (k, x) :: insert rest key v
  end.

(** [object[key] = value], an ordinary write: an existing property keeps
    its place, a new one goes where the engine lists it. *)
Definition assign (props : list (string * value)) (key : string) (v : value)
  : list (string * value) :=
  match lookup props key with
  | Some _ => replace props key v
  | None => insert props key v
  end.

(** [object[key]] on the own properties of an object of the document:
    [undefined] for a key that is not listed, and for a value that is not
    an object of the document. *)
Definition getProp (object : value) (key : string) : value :=
  match object with
  | VObj _ props =>
      match lookup props key with
      | Some v => v
      | None => VUndefined
      end
  | _ => VUndefined
  end.

(** [object != null && key in Object(object)], on the own properties. *)
Definition hasProp (object : value) (key : string) : bool :=
  match object with
  | VObj _ props =>
      match lookup props key with
      | Some _ => true
      | None => false
      end
  | _ => false
  end.

(** The keys [baseSet] refuses to write. *)
Definition unsafeKey (key : string) : bool :=
  (key =? "__proto__") || (key =? "constructor") || (key =? "prototype").

(** [baseGet]'s loop: it stops on [null] or [undefined], and then the
    result is [undefined]. *)
Fixpoint walk (object : value) (path : list string) : value :=
  match path with
  | [] => object
  | key :: rest =>
      match object with
      | VUndefined | VNull => VUndefined
      | _ => walk (getProp object key) rest
      end
  end.

(** [baseSet]'s loop on [nested] from position [index] of the path.  The
    object is updated in place in the source; here the updated object is
    returned.  A [VRef] stays as it is in the document: what the write does
    inside it is not the document's. *)
Fixpoint baseSetFrom (nested : value) (path : list string) (v : value) : value :=
  match path with
  | [] => nested
  | key :: rest =>
      if unsafeKey key then nested
      else
        match nested with
        | VObj isArr props =>
            let newValue :=
              match rest with
              | [] => v
              | next :: _ =>
                  let objValue := getProp nested key in
                  baseSetFrom
                    (if isObject objValue then objValue
                     else if isIndex next then VObj true [] else VObj false [])
                    rest v
              end in
            VObj isArr (assign props key newValue)
        | _ => nested
        end
  end.

(** The properties every object inherits from [Object.prototype]. *)
Definition Object_prototype : list string :=
  ["constructor"; "__defineGetter__"; "__defineSetter__"; "hasOwnProperty";
   "__lookupGetter__"; "__lookupSetter__"; "isPrototypeOf";
   "propertyIsEnumerable"; "toString"; "valueOf"; "__proto__";
   "toLocaleString"].

Definition inherited (key : string) : bool :=
  existsb (String.eqb key) Object_prototype.

(** The paths on which every step of [baseSet]'s loop is an ordinary
    property write, the same walk as [baseSetFrom]'s: every object met is
    an object of the document; a segment applied to an array is an
    array index; and a segment that is read and is not an own property is
    not an inherited one either, so that it reads [undefined]. *)
Fixpoint ordinary (nested : value) (path : list string) : bool :=
  match path with
  | [] => true
  | key :: rest =>
      match nested with
      | VObj isArr props =>
          (if isArr
           then match arrayIndex key with Some _ => true | None => false end
           else true)
          && match rest with
             | [] => true
             | next :: _ =>
                 match lookup props key with
                 | Some (VRef _) => false
                 | Some (VObj isArr' props') => ordinary (VObj isArr' props') rest
                 | Some _ =>
                     ordinary (if isIndex next then VObj true [] else VObj false [])
                       rest
                 | None =>
                     negb (inherited key)
                     && ordinary (if isIndex next then VObj true [] else VObj false [])
                          rest
                 end
             end
      | _ => false
      end
  end.

Section Paths.

(** The two regular-expression scanners of lodash's path syntax:
    whether a string key looks like a deep path ([reIsDeepProp] matches
    and [reIsPlainProp] does not), and [stringToPath], which splits such
    a key into its segments. *)
Variable looksDeep : string -> bool.
Variable stringToPath : string -> list string.

Definition isKey (key : string) (object : value) : bool :=
  negb (looksDeep key) || hasProp object key.

Definition castPath (key : string) (object : value) : list string :=
  if isKey key object then [key] else stringToPath key.

Definition baseGet (object : value) (key : string) : value :=
  match castPath key object with
  | [] => VUndefined
  | path => walk object path
  end.

(** [_.get(object, key, defaultValue)] *)
Definition get (object : value) (key : string) (defaultValue : value) : value :=
  let result :=
    match object with
    | VUndefined | VNull => VUndefined
    | _ => baseGet object key
    end in
  match result with
  | VUndefined => defaultValue
  | _ => result
  end.

Definition baseSet (object : value) (key : string) (v : value) : value :=
  if negb (isObject object) then object
  else baseSetFrom object (castPath key object) v.

(** [_.set(object, key, value)] *)
Definition set (object : value) (key : string) (v : value) : value :=
  match object with
  | VUndefined | VNull => object
  | _ => baseSet object key v
  end.

End Paths.

End Lodash.

(* ================================================================= *)
(** ** classes/Config *)

Module Config.

Record config_t : Type := mkConfig {
  _configFolder : string;
  _fs : accessor;
  _configFile : string;
  _filePath : string;
  config : value
}.

Section Methods.
Context {H : Type} (sem : semantics H).

Variable toUpperCase : string -> string.

(** [new Path(folder).resolve(file)]; the class [Path] is not among the
    sources. *)
Variable Path_resolve : string -> string -> string.

(** [JSON.parse(text)] and [JSON.stringify(value, null, 2)]. *)
Variable JSON_parse : value -> outcome value.
Variable JSON_stringify : value -> string.

Variable looksDeep : string -> bool.
Variable stringToPath : string -> list string.

Definition _loadConfig (fs : accessor) (filePath : string) : M H value :=
  fileContent <- FileSystem.read sem fs filePath false ;;
  if negb (truthy fileContent)
  then throw (Error "Failed to read config file.")
  else match JSON_parse fileContent with
       | Ret v => ret v
       | Throw e => throw e
       end.

(** [new Config(scope)] *)
Definition new (e : env) (w : window value) (scope : string) : M H config_t :=
  let configFolder := ("/data/adb/.config/" ++ scope)%string in
  let fs := FileSystem.new toUpperCase e w (inl scope) in
  let configFile := "config.json" in
  let filePath := Path_resolve configFolder configFile in
  present <- FileSystem.exists_ sem fs filePath ;;
  (if negb (truthy present)
   then made <- FileSystem.mkdirs sem fs configFolder ;;
        if truthy made
        then FileSystem.write sem fs filePath "{}" ;;; ret tt
        else ret tt
   else ret tt) ;;;
  cfg <- _loadConfig fs filePath ;;
  ret (mkConfig configFolder fs configFile filePath cfg).

Definition get (this : config_t) (key : string) (def : value) : value :=
  Lodash.get looksDeep stringToPath (config this) key def.

Definition _saveConfig (this : config_t) : M H value :=
  FileSystem.write sem (_fs this) (_filePath this) (JSON_stringify (config this)).

Definition set (this : config_t) (key : string) (v : value) : M H config_t :=
  let this' := mkConfig (_configFolder this) (_fs this) (_configFile this)
                 (_filePath this)
                 (Lodash.set looksDeep stringToPath (config this) key v) in
  _saveConfig this' ;;; ret this'.

End Methods.

End Config.

(* ================================================================= *)
(** ** The method surface of the accessors, as data

    The statements below quantify over "every accessor method"; each class
    gets the list of its methods, the function that runs one, and what the
    source documents for it. *)

Module Surface.

(** *** FileSystem *)

Inductive fs_method : Type :=
| FsRead (path : string) (bytes : bool)
| FsWrite (path data : string)
| FsReadAsBase64 (path : string)
| FsList (path delimiter : string)
| FsSize (path : string) (recursive : bool)
| FsStat (path : string) (total : bool)
| FsDelete (path : string)
| FsExists (path : string)
| FsIsDirectory (path : string)
| FsIsFile (path : string)
| FsMkdir (path : string)
| FsMkdirs (path : string)
| FsCreateNewFile (path : string)
| FsRenameTo (target dest : string)
| FsCopyTo (target dest : string) (overwrite : bool)
| FsCanExecute (path : string)
| FsCanRead (path : string)
| FsIsHidden (path : string).

Definition fs_run {H} (sem : semantics H) (this : accessor) (m : fs_method)
  : M H value :=
  match m with
  | FsRead p b => FileSystem.read sem this p b
  | FsWrite p d => FileSystem.write sem this p d
  | FsReadAsBase64 p => FileSystem.readAsBase64 sem this p
  | FsList p d => FileSystem.list_ sem this p d
  | FsSize p r => FileSystem.size sem this p r
  | FsStat p t => FileSystem.stat sem this p t
  | FsDelete p => FileSystem.delete sem this p
  | FsExists p => FileSystem.exists_ sem this p
  | FsIsDirectory p => FileSystem.isDirectory sem this p
  | FsIsFile p => FileSystem.isFile sem this p
  | FsMkdir p => FileSystem.mkdir sem this p
  | FsMkdirs p => FileSystem.mkdirs sem this p
  | FsCreateNewFile p => FileSystem.createNewFile sem this p
  | FsRenameTo t d => FileSystem.renameTo sem this t d
  | FsCopyTo t d o => FileSystem.copyTo sem this t d o
  | FsCanExecute p => FileSystem.canExecute sem this p
  | FsCanRead p => FileSystem.canRead sem this p
  | FsIsHidden p => FileSystem.isHidden sem this p
  end.

(** The host method a FileSystem method forwards to, with its arguments. *)
Definition fs_forward (m : fs_method) : string * list value :=
  match m with
  | FsRead p b => ("read", [VStr p; VBool b])
  | FsWrite p d => ("write", [VStr p; VStr d])
  | FsReadAsBase64 p => ("readAsBase64", [VStr p])
  | FsList p d => ("list", [VStr p; VStr d])
  | FsSize p r => ("size", [VStr p; VBool r])
  | FsStat p t => ("stat", [VStr p; VBool t])
  | FsDelete p => ("delete", [VStr p])
  | FsExists p => ("exists", [VStr p])
  | FsIsDirectory p => ("isDirectory", [VStr p])
  | FsIsFile p => ("isFile", [VStr p])
  | FsMkdir p => ("mkdir", [VStr p])
  | FsMkdirs p => ("mkdirs", [VStr p])
  | FsCreateNewFile p => ("createNewFile", [VStr p])
  | FsRenameTo t d => ("renameTo", [VStr t; VStr d])
  | FsCopyTo t d o => ("copyTo", [VStr t; VStr d; VBool o])
  | FsCanExecute p => ("canExecute", [VStr p])
  | FsCanRead p => ("canRead", [VStr p])
  | FsIsHidden p => ("isHidden", [VStr p])
  end.

(** What the doc comments give as the result when nothing is available:
    [null] for contents, [0] for sizes, [false] for checks; [write] has no
    result. *)
Definition fs_default (m : fs_method) : value :=
  match m with
  | FsRead _ _ | FsReadAsBase64 _ | FsList _ _ => VNull
  | FsWrite _ _ => VUndefined
  | FsSize _ _ | FsStat _ _ => VNum 0
  | _ => VBool false
  end.

(** The result of a method whose host call returned [v]. *)
Definition fs_result (m : fs_method) (v : value) : value :=
  match m with
  | FsWrite _ _ => VUndefined
  | _ => v
  end.

(** The methods gated on [advancedFsOperations]. *)
Definition fs_gated (m : fs_method) : bool :=
  match m with
  | FsIsDirectory _ | FsIsFile _ | FsMkdir _ | FsMkdirs _ | FsCreateNewFile _
  | FsRenameTo _ _ | FsCopyTo _ _ _ | FsCanExecute _ | FsCanRead _
  | FsIsHidden _ => true
  | _ => false
  end.

(** The name a gated method warns with. *)
Definition fs_warnName (m : fs_method) : string :=
  match m with
  | FsIsDirectory _ => "isDirectroy"
  | _ => fst (fs_forward m)
  end.

(** *** MMRLInterface: its getters *)

Inductive mi_getter : Type :=
| MiManager
| MiMmrl
| MiHasAccessToFileSystem
| MiHasAccessToAdvancedKernelSuAPI
| MiWindowTopInset
| MiWindowBottomInset
| MiLightNavigationBars
| MiDarkMode
| MiLightStatusBars
| MiSdk.

Definition mi_run {H} (sem : semantics H) (parseJSON : value -> M H value)
    (this : accessor) (g : mi_getter) : M H value :=
  match g with
  | MiManager => MMRLInterface.manager sem parseJSON this
  | MiMmrl => MMRLInterface.mmrl sem parseJSON this
  | MiHasAccessToFileSystem => MMRLInterface.hasAccessToFileSystem sem this
  | MiHasAccessToAdvancedKernelSuAPI =>
      MMRLInterface.hasAccessToAdvancedKernelSuAPI sem this
  | MiWindowTopInset => MMRLInterface.windowTopInset sem this
  | MiWindowBottomInset => MMRLInterface.windowBottomInset sem this
  | MiLightNavigationBars => MMRLInterface.lightNavigationBars sem this
  | MiDarkMode => MMRLInterface.darkMode sem this
  | MiLightStatusBars => MMRLInterface.lightStatusBars sem this
  | MiSdk => MMRLInterface.sdk sem this
  end.

(** The documented result when nothing is available: "null if not
    available" for the manager records, "otherwise false" for the checks,
    [0] for the insets and the sentinel [-1] for the SDK level. *)
Definition mi_default (g : mi_getter) : value :=
  match g with
  | MiManager | MiMmrl => VNull
  | MiWindowTopInset | MiWindowBottomInset => VNum 0
  | MiSdk => VNum (-1)
  | _ => VBool false
  end.

(** *** VersionInterface: its properties *)

Inductive vi_property : Type :=
| ViVersionCode
| ViVersionName
| ViApplicationId
| ViBuildType
| ViIsDevVersion
| ViIsGooglePlayBuild
| ViPlatform
| ViRootVersionCode
| ViRootVersionName.

Definition vi_run {H} (sem : semantics H) (this : accessor) (p : vi_property)
  : M H value :=
  match p with
  | ViVersionCode => VersionInterface.versionCode sem this
  | ViVersionName => VersionInterface.versionName sem this
  | ViApplicationId => VersionInterface.applicationId sem this
  | ViBuildType => VersionInterface.buildType sem this
  | ViIsDevVersion => VersionInterface.isDevVersion sem this
  | ViIsGooglePlayBuild => VersionInterface.isGooglePlayBuild sem this
  | ViPlatform => VersionInterface.platform sem this
  | ViRootVersionCode => VersionInterface.rootVersionCode sem this
  | ViRootVersionName => VersionInterface.rootVersionName sem this
  end.

Definition vi_default (p : vi_property) : value :=
  match p with
  | ViIsDevVersion | ViIsGooglePlayBuild => VBool false
  | _ => VNum (-1)
  end.

(** *** The read operations of the three accessors *)

Inductive read_op : Type :=
| OfFs (m : fs_method)
| OfMi (g : mi_getter)
| OfVi (p : vi_property).

Definition read_run {H} (sem : semantics H) (parseJSON : value -> M H value)
    (this : accessor) (op : read_op) : M H value :=
  match op with
  | OfFs m => fs_run sem this m
  | OfMi g => mi_run sem parseJSON this g
  | OfVi p => vi_run sem this p
  end.

Definition read_default (op : read_op) : value :=
  match op with
  | OfFs m => fs_default m
  | OfMi g => mi_default g
  | OfVi p => vi_default p
  end.

(** *** SuFile: the methods that go through [_try] *)

Inductive su_method : Type :=
| SuRead
| SuWrite (data : string)
| SuReadAsBase64
| SuList (delimiter : string)
| SuSize (recursive : bool)
| SuDelete
| SuExists
| SuIsDirectory
| SuIsFile
| SuIsSymLink
| SuMkdir
| SuMkdirs
| SuCreateNewFile
| SuRenameTo (destPath : string)
| SuCopyTo (targetPath : string) (overwrite : bool)
| SuCanExecute
| SuCanWrite
| SuCanRead
| SuIsHidden.

Definition su_run {H} (sem : semantics H) (this : SuFile.sufile) (m : su_method)
  : M H value :=
  match m with
  | SuRead => SuFile.read sem this
  | SuWrite d => SuFile.write sem this d
  | SuReadAsBase64 => SuFile.readAsBase64 sem this
  | SuList d => SuFile.list_ sem this d
  | SuSize r => SuFile.size sem this r
  | SuDelete => SuFile.delete sem this
  | SuExists => SuFile.exists_ sem this
  | SuIsDirectory => SuFile.isDirectory sem this
  | SuIsFile => SuFile.isFile sem this
  | SuIsSymLink => SuFile.isSymLink sem this
  | SuMkdir => SuFile.mkdir sem this
  | SuMkdirs => SuFile.mkdirs sem this
  | SuCreateNewFile => SuFile.createNewFile sem this
  | SuRenameTo d => SuFile.renameTo sem this d
  | SuCopyTo t o => SuFile.copyTo sem this t o
  | SuCanExecute => SuFile.canExecute sem this
  | SuCanWrite => SuFile.canWrite sem this
  | SuCanRead => SuFile.canRead sem this
  | SuIsHidden => SuFile.isHidden sem this
  end.

(** The host call a SuFile method wraps. *)
Definition su_forward (this : SuFile.sufile) (m : su_method) : string * list value :=
  let p := VStr (SuFile.path this) in
  match m with
  | SuRead => ("read", [p])
  | SuWrite d => ("write", [p; VStr d])
  | SuReadAsBase64 => ("readAsBase64", [p])
  | SuList d => ("list", [p; VStr d])
  | SuSize r => ("size", [p; VBool r])
  | SuDelete => ("delete", [p])
  | SuExists => ("exists", [p])
  | SuIsDirectory => ("isDirectory", [p])
  | SuIsFile => ("isFile", [p])
  | SuIsSymLink => ("isSymLink", [p])
  | SuMkdir => ("mkdir", [p])
  | SuMkdirs => ("mkdirs", [p])
  | SuCreateNewFile => ("createNewFile", [p])
  | SuRenameTo d => ("renameTo", [p; VStr d])
  | SuCopyTo t o => ("copyTo", [p; VStr t; VBool o])
  | SuCanExecute => ("canExecute", [p])
  | SuCanWrite => ("canWrite", [p])
  | SuCanRead => ("canRead", [p])
  | SuIsHidden => ("isHidden", [p])
  end.

(** The fallback a SuFile method passes to [_try]. *)
Definition su_fallback (m : su_method) : value :=
  match m with
  | SuRead | SuReadAsBase64 => VNull
  | SuList _ => VStr "[]"
  | SuSize _ => VNum 0
  | _ => VBool false
  end.

(** The message a SuFile method passes to [_try]. *)
Definition su_errorMsg (this : SuFile.sufile) (m : su_method) : string :=
  let p := SuFile.path this in
  match m with
  | SuRead => "Error while reading from '" ++ p ++ "'"
  | SuWrite _ => "Error while writing to '" ++ p ++ "'"
  | SuReadAsBase64 => "Error while reading '" ++ p ++ "' as base64"
  | SuList _ => "Error while listing '" ++ p ++ "'"
  | SuSize _ => "Error while getting size of '" ++ p ++ "'"
  | SuDelete => "Error while deleting '" ++ p ++ "'"
  | SuExists => "Error while checking existence of '" ++ p ++ "'"
  | SuIsDirectory => "Error while checking if '" ++ p ++ "' is a directory"
  | SuIsFile => "Error while checking if '" ++ p ++ "' is a file"
  | SuIsSymLink => "Error while checking if '" ++ p ++ "' is a symbolic link"
  | SuMkdir => "Error while creating directory '" ++ p ++ "'"
  | SuMkdirs => "Error while creating directories '" ++ p ++ "'"
  | SuCreateNewFile => "Error while creating file '" ++ p ++ "'"
  | SuRenameTo d => "Error while renaming '" ++ p ++ "' to '" ++ d ++ "'"
  | SuCopyTo t _ => "Error while copying '" ++ p ++ "' to '" ++ t ++ "'"
  | SuCanExecute => "Error while checking if '" ++ p ++ "' can be executed"
  | SuCanWrite => "Error while checking if '" ++ p ++ "' can be written"
  | SuCanRead => "Error while checking if '" ++ p ++ "' can be read"
  | SuIsHidden => "Error while checking if '" ++ p ++ "' is hidden"
  end.

End Surface.

(* ================================================================= *)
(** ** Hosts

    Concrete hosts on which the accessors are run: one that fails every
    call, an in-memory file system, and a file opened as a stream that
    follows the contract of [readChunk] (the next [min(C, remaining)]
    bytes as the JSON text of an array, then [null]). *)

Module Hosts.

(** The host whose every method throws [e]. *)
Definition failing (e : exn) : semantics unit :=
  fun _ _ _ h => (Throw e, h).

(** The host whose every method returns [v]. *)
Definition answering (v : value) : semantics unit :=
  fun _ _ _ h => (Ret v, h).

(** Browsing contexts: an ordinary browser, and the MMRL WebView at a
    given version code. *)
Definition signature : string := "com.dergoogler.mmrl".

Definition browser : env := mkEnv signature "Mozilla/5.0" 0.

Definition mmrlAt (versionCode : Z) : env := mkEnv signature signature versionCode.

(** The [mmrl] object of a host at a given version code: its build
    config reports the version code, its toast builder is another object. *)
Definition mmrlRef : nat := 0.
Definition buildConfigRef : nat := 1.
Definition toastBuilderRef : nat := 2.

Definition mmrlHost (versionCode : Z) : semantics unit :=
  fun r method _ h =>
    if Nat.eqb r mmrlRef && (method =? "getBuildConfig")
    then (Ret (VRef buildConfigRef), h)
    else if Nat.eqb r buildConfigRef && (method =? "getVersionCode")
    then (Ret (VNum versionCode), h)
    else if Nat.eqb r mmrlRef && (method =? "toastBuilder")
    then (Ret (VRef toastBuilderRef), h)
    else (Ret VUndefined, h).

Definition mmrlWindow : window value := [("mmrl", VRef mmrlRef)].

(** A world in which nothing has happened yet. *)
Definition fresh {H} (h : H) : world H := mkWorld h [] [].

Definition notAFunction {H} (method : string) (h : H) : outcome value * H :=
  (Throw (TypeError (method ++ " is not a function")), h).

(** *** An in-memory file system *)

Definition files : Type := list (string * string).

Definition memfs : semantics files :=
  fun _ method args fs =>
    match args with
    | [VStr p] =>
        if method =? "exists"
        then (Ret (VBool (match window_get fs p with Some _ => true | None => false end)),
              fs)
        else if method =? "mkdirs" then (Ret (VBool true), fs)
        else notAFunction method fs
    | [VStr p; VBool _] =>
        if method =? "read"
        then (Ret (match window_get fs p with Some d => VStr d | None => VNull end), fs)
        else notAFunction method fs
    | [VStr p; VStr d] =>
        if method =? "write" then (Ret VUndefined, (p, d) :: fs)
        else notAFunction method fs
    | _ => notAFunction method fs
    end.

(** *** A file opened as a stream *)

Record file_stream : Type := mkFileStream {
  remaining : list Z;     (* the bytes not read yet *)
  closed : bool
}.

Definition interfaceRef : nat := 0.
Definition handleRef : nat := 1.

(** The global object of a page that has the file-stream interface. *)
Definition streamWindow : window value :=
  [("document", VUndefined); ("$suFileInputStream", VRef interfaceRef)].

Section FileHost.

(** The JSON text the host writes for an array of numbers. *)
Variable encode : list Z -> string.

(** Whether the host writes a byte as a signed number (-128..127), as a
    Java [byte] prints, or as an unsigned one. *)
Variable signed : bool.

Definition wire (b : Z) : Z :=
  if signed && (128 <=? b)%Z then (b - 256)%Z else b.

Definition fileHost : semantics file_stream :=
  fun r method args st =>
    if Nat.eqb r interfaceRef then
      if method =? "open" then (Ret (VRef handleRef), st)
      else notAFunction method st
    else if Nat.eqb r handleRef then
      if method =? "readChunk" then
        match args with
        | [VNum c] =>
            if closed st then (Throw (Error "Stream Closed"), st)
            else
              match remaining st with
              | [] => (Ret VNull, st)
              | _ =>
                  (Ret (VStr (encode (map wire (firstn (Z.to_nat c) (remaining st))))),
                   mkFileStream (skipn (Z.to_nat c) (remaining st)) false)
              end
        | _ => (Throw (TypeError "readChunk expects a number"), st)
        end
      else if method =? "close"
      then (Ret VUndefined, mkFileStream (remaining st) true)
      else notAFunction method st
    else notAFunction method st.

End FileHost.

(** The [SuFile] of a path in that page, and the stream [fetch] opens on
    it. *)
Definition file (path : string) : SuFile.sufile :=
  SuFile.mkSuFile path (Some "$suFileInputStream") (VRef interfaceRef).

Definition handle (path : string) : SuFileInputStream.stream :=
  SuFileInputStream.mkStream path (Some "$suFileInputStream") (VRef handleRef).

(** The state of a fetch without signal whose body is being read: the
    promise is resolved, the stream readable, [q] the chunks so far. *)
Definition reading (i : SuFileInputStream.stream) (C : Z) (q : list (list Z))
  : Fetch.state :=
  Fetch.mkState (Some i) C None false (Some Fetch.Readable) q Fetch.Resolved.

End Hosts.

(* ================================================================= *)
(** ** A JSON reader and writer for arrays of integers

    The compact text [[1,-2,3]], written and read back; what [JSON.parse]
    and the host's writer are instantiated with when a statement is run
    on a concrete file. *)

Module CompactJSON.

Definition printZ (z : Z) : string := numberToString z.

Fixpoint printItems (l : list Z) : string :=
  match l with
  | [] => "]"
  | [z] => printZ z ++ "]"
  | z :: rest => printZ z ++ "," ++ printItems rest
  end.

Definition print (l : list Z) : string := String "[" (printItems l).

(** The items after the opening bracket; [tok] holds the characters of
    the numeral being read. *)
Fixpoint items (s : string) (tok : string) : option (list Z) :=
  match s with
  | EmptyString => None
  | String c rest =>
      if (c =? ",")%char then
        match NilZero.int_of_string tok, items rest "" with
        | Some d, Some l => Some (Z.of_int d :: l)
        | _, _ => None
        end
      else if (c =? "]")%char then
        match rest, NilZero.int_of_string tok with
        | EmptyString, Some d => Some [Z.of_int d]
        | _, _ => None
        end
      else items rest (tok ++ String c "")
  end.

Definition parse (v : value) : outcome (list Z) :=
  match v with
  | VStr (String c rest) =>
      if (c =? "[")%char then
        if rest =? "]" then Ret []
        else match items rest "" with
             | Some l => Ret l
             | None => Throw (SyntaxError "Unexpected token in JSON")
             end
      else Throw (SyntaxError "Unexpected token in JSON")
  | _ => Throw (SyntaxError "Unexpected end of JSON input")
  end.

(** A token: a string without comma and without closing bracket. *)
Fixpoint token (t : string) : bool :=
  match t with
  | EmptyString => true
  | String c rest => negb (c =? ",")%char && negb (c =? "]")%char && token rest
  end.

End CompactJSON.

(* ================================================================= *)
(** ** Instances of the engine's functions for config documents

    What [JSON.stringify(value, null, 2)], [JSON.parse] and lodash's path
    scanners are instantiated with when a statement is run on a concrete
    document: the two-space layout of [JSON.stringify], a reader of JSON
    texts, and lodash's reading of keys that are names separated by
    dots. *)

Module Documents.

Definition newline : string := String (ascii_of_nat 10) EmptyString.

Fixpoint join (sep : string) (parts : list string) : string :=
  match parts with
  | [] => ""
  | [p] => p
  | p :: rest => p ++ sep ++ join sep rest
  end.

(** A string literal: quotes and backslashes escaped, line feed, carriage
    return and tab by their short forms. *)
Fixpoint escape (s : string) : string :=
  match s with
  | EmptyString => EmptyString
  | String c rest =>
      let n := nat_of_ascii c in
      (if (n =? 34)%nat then String (ascii_of_nat 92) (String c EmptyString)
       else if (n =? 92)%nat then "\\"
       else if (n =? 10)%nat then "\n"
       else if (n =? 13)%nat then "\r"
       else if (n =? 9)%nat then "\t"
       else String c EmptyString) ++ escape rest
  end.

Definition quote (s : string) : string :=
  String (ascii_of_nat 34) (escape s ++ String (ascii_of_nat 34) EmptyString).

(** [JSON.stringify(v, null, 2)] at the given indentation.  A property
    whose value is [undefined] is left out of an object; in an array
    [undefined] is written [null]. *)
Fixpoint stringifyAt (indent : string) (v : value) : string :=
  match v with
  | VUndefined | VNull => "null"
  | VBool true => "true"
  | VBool false => "false"
  | VNum n => CompactJSON.printZ n
  | VStr s => quote s
  | VRef _ => "{}"
  | VObj isArr props =>
      let inner := (indent ++ "  ")%string in
      let members :=
        (fix members (ps : list (string * value)) : list string :=
           match ps with
           | [] => []
           | (k, x) :: rest =>
               if isArr then (inner ++ stringifyAt inner x)%string :: members rest
               else match x with
                    | VUndefined => members rest
                    | _ => (inner ++ quote k ++ ": " ++ stringifyAt inner x)%string
                           :: members rest
                    end
           end) props in
      match members with
      | [] => if isArr then "[]" else "{}"
      | _ => (if isArr then "[" else "{") ++ newline
             ++ join ("," ++ newline) members ++ newline ++ indent
             ++ (if isArr then "]" else "}")
      end
  end.

Definition stringify (v : value) : string := stringifyAt "" v.

(** A reader for the texts [stringify] writes, and for JSON in general as
    far as the documents here go: objects, arrays, strings with the short
    escapes, integers, [true], [false] and [null].  [fuel] bounds the
    number of values and members read. *)
Definition isSpace (c : ascii) : bool :=
  let n := nat_of_ascii c in
  ((n =? 32) || (n =? 10) || (n =? 13) || (n =? 9))%nat.

Fixpoint skip (s : string) : string :=
  match s with
  | EmptyString => s
  | String c rest => if isSpace c then skip rest else s
  end.

Definition unescape (c : ascii) : option ascii :=
  let n := nat_of_ascii c in
  if ((n =? 34) || (n =? 92) || (n =? 47))%nat then Some c
  else if (n =? 110)%nat then Some (ascii_of_nat 10)
  else if (n =? 114)%nat then Some (ascii_of_nat 13)
  else if (n =? 116)%nat then Some (ascii_of_nat 9)
  else if (n =? 98)%nat then Some (ascii_of_nat 8)
  else if (n =? 102)%nat then Some (ascii_of_nat 12)
  else None.

(** The characters of a string literal after its opening quote, and what
    follows the closing one. *)
Fixpoint readString (s acc : string) : option (string * string) :=
  match s with
  | EmptyString => None
  | String c rest =>
      if (nat_of_ascii c =? 34)%nat then Some (acc, rest)
      else if (nat_of_ascii c =? 92)%nat then
        match rest with
        | EmptyString => None
        | String e rest' =>
            match unescape e with
            | Some x => readString rest' (acc ++ String x "")
            | None => None
            end
        end
      else readString rest (acc ++ String c "")
  end.

Fixpoint readNumber (s tok : string) : string * string :=
  match s with
  | EmptyString => (tok, s)
  | String c rest =>
      if Lodash.isDigit c || (c =? "-")%char
      then readNumber rest (tok ++ String c "")
      else (tok, s)
  end.

(** What follows the literal [lit] at the start of [s]. *)
Fixpoint after (lit s : string) : option string :=
  match lit with
  | EmptyString => Some s
  | String a lit' =>
      match s with
      | EmptyString => None
      | String b s' => if (a =? b)%char then after lit' s' else None
      end
  end.

Fixpoint readValue (fuel : nat) (s : string) : option (value * string) :=
  match fuel with
  | O => None
  | S fuel =>
      match skip s with
      | EmptyString => None
      | String c rest =>
          if (c =? "{")%char then
            match skip rest with
            | String c' rest' =>
                if (c' =? "}")%char then Some (VObj false [], rest')
                else readMembers fuel rest []
            | EmptyString => None
            end
          else if (c =? "[")%char then
            match skip rest with
            | String c' rest' =>
                if (c' =? "]")%char then Some (VObj true [], rest')
                else readElements fuel rest []
            | EmptyString => None
            end
          else if (nat_of_ascii c =? 34)%nat then
            match readString rest "" with
            | Some (str, rest') => Some (VStr str, rest')
            | None => None
            end
          else
            match after "true" (String c rest), after "false" (String c rest),
                  after "null" (String c rest) with
            | Some rest', _, _ => Some (VBool true, rest')
            | _, Some rest', _ => Some (VBool false, rest')
            | _, _, Some rest' => Some (VNull, rest')
            | None, None, None =>
                let '(tok, rest') := readNumber (String c rest) "" in
                match NilZero.int_of_string tok with
                | Some n => Some (VNum (Z.of_int n), rest')
                | None => None
                end
            end
      end
  end
with readMembers (fuel : nat) (s : string) (acc : list (string * value))
  : option (value * string) :=
  match fuel with
  | O => None
  | S fuel =>
      match skip s with
      | EmptyString => None
      | String q rest =>
          if (nat_of_ascii q =? 34)%nat then
            match readString rest "" with
            | Some (k, rest1) =>
                match skip rest1 with
                | EmptyString => None
                | String colon rest2 =>
                    if (colon =? ":")%char then
                      match readValue fuel rest2 with
                      | Some (x, rest3) =>
                          match skip rest3 with
                          | EmptyString => None
                          | String d rest4 =>
                              if (d =? ",")%char
                              then readMembers fuel rest4 (Lodash.assign acc k x)
                              else if (d =? "}")%char
                                   then Some (VObj false (Lodash.assign acc k x), rest4)
                                   else None
                          end
                      | None => None
                      end
                    else None
                end
            | None => None
            end
          else None
      end
  end
with readElements (fuel : nat) (s : string) (acc : list (string * value))
  : option (value * string) :=
  match fuel with
  | O => None
  | S fuel =>
      match readValue fuel s with
      | Some (x, rest1) =>
          let acc' := acc ++ [(numberToString (Z.of_nat (List.length acc)), x)] in
          match skip rest1 with
          | EmptyString => None
          | String d rest2 =>
              if (d =? ",")%char then readElements fuel rest2 acc'
              else if (d =? "]")%char then Some (VObj true acc', rest2)
                   else None
          end
      | None => None
      end
  end.

(** [JSON.parse(text)] on such a text. *)
Definition parse (text : value) : outcome value :=
  match text with
  | VStr s =>
      match readValue (S (String.length s)) s with
      | Some (v, rest) =>
          if skip rest =? "" then Ret v
          else Throw (SyntaxError "Unexpected token in JSON")
      | None => Throw (SyntaxError "Unexpected token in JSON")
      end
  | _ => Throw (SyntaxError "Unexpected token in JSON")
  end.

(** A key with a dot in it is read as a path. *)
Fixpoint hasDot (key : string) : bool :=
  match key with
  | EmptyString => false
  | String c rest => (c =? ".")%char || hasDot rest
  end.

(** The segments between the dots. *)
Fixpoint splitDots (key : string) : list string :=
  match key with
  | EmptyString => [EmptyString]
  | String c rest =>
      if (c =? ".")%char then EmptyString :: splitDots rest
      else match splitDots rest with
           | [] => [String c EmptyString]
           | seg :: segs => String c seg :: segs
           end
  end.

(** The config of the scope [net-switch] in MMRL, holding the document
    [{ ui: { theme: dark } }]. *)
Definition netSwitch : Config.config_t :=
  Config.mkConfig "/data/adb/.config/net-switch"
    (mkAccessor (Hosts.mmrlAt 40000) (VRef 0))
    "config.json" "/data/adb/.config/net-switch/config.json"
    (VObj false [("ui", VObj false [("theme", VStr "dark")])]).

End Documents.

(* ================================================================= *)
(** ** Commands, call sequences and measures

    The commands of MMRLInterface and the methods of Toast as data, so
    that a statement can range over every command and over every sequence
    of calls on one toast; a sequence of [set]s on one config; and the
    measures the statements about the interface pattern, [fetch] and the
    config documents use. *)

Module Programs.

(** *** MMRLInterface: the setters, [shareText] and the requests *)

Inductive mi_command : Type :=
| MiSetLightNavigationBars (light : bool)
| MiSetLightStatusBars (light : bool)
| MiShareText (text : string) (type : option string)
| MiRequestAdvancedKernelSUAPI
| MiRequestFileSystemAPI.

(** An optional argument: left out, it is [undefined]. *)
Definition optional (x : option string) : value :=
  match x with
  | Some s => VStr s
  | None => VUndefined
  end.

Definition mi_exec {H} (sem : semantics H) (this : accessor) (c : mi_command)
  : M H value :=
  match c with
  | MiSetLightNavigationBars light =>
      MMRLInterface.set_lightNavigationBars sem this (VBool light)
  | MiSetLightStatusBars light =>
      MMRLInterface.set_lightStatusBars sem this (VBool light)
  | MiShareText text type =>
      MMRLInterface.shareText sem this (VStr text) (optional type)
  | MiRequestAdvancedKernelSUAPI => MMRLInterface.requestAdvancedKernelSUAPI sem this
  | MiRequestFileSystemAPI => MMRLInterface.requestFileSystemAPI sem this
  end.

(** The host method a command calls, with its arguments. *)
Definition mi_forward (c : mi_command) : string * list value :=
  match c with
  | MiSetLightNavigationBars light => ("setLightNavigationBars", [VBool light])
  | MiSetLightStatusBars light => ("setLightStatusBars", [VBool light])
  | MiShareText text None => ("shareText", [VStr text])
  | MiShareText text (Some type) => ("shareText", [VStr text; VStr type])
  | MiRequestAdvancedKernelSUAPI => ("requestAdvancedKernelSUAPI", [])
  | MiRequestFileSystemAPI => ("requestFileSystemAPI", [])
  end.

(** The commands gated on [requireVersionNewAPIs]. *)
Definition mi_gated (c : mi_command) : bool :=
  match c with
  | MiRequestAdvancedKernelSUAPI | MiRequestFileSystemAPI => true
  | _ => false
  end.

(** *** VersionInterface: the two calls behind a property *)

Definition vi_config (p : Surface.vi_property) : string :=
  match p with
  | Surface.ViPlatform | Surface.ViRootVersionCode | Surface.ViRootVersionName =>
      "getRootConfig"
  | _ => "getBuildConfig"
  end.

Definition vi_getter (p : Surface.vi_property) : string :=
  match p with
  | Surface.ViVersionCode | Surface.ViRootVersionCode => "getVersionCode"
  | Surface.ViVersionName | Surface.ViRootVersionName => "getVersionName"
  | Surface.ViApplicationId => "getApplicationId"
  | Surface.ViBuildType => "getBuildType"
  | Surface.ViIsDevVersion => "isDevVersion"
  | Surface.ViIsGooglePlayBuild => "isGooglePlayBuild"
  | Surface.ViPlatform => "getPlatform"
  end.

(** *** Toast: calls on one toast, one after the other *)

Inductive toast_call : Type :=
| TSetText (text : value)
| TSetDuration (duration : value)
| TSetGravity (gravity xOffset yOffset : value)
| TShow
| TCancel.

Definition toast_apply {H} (sem : semantics H) (t : Toast.toast) (c : toast_call)
  : M H Toast.toast :=
  match c with
  | TSetText text => Toast.setText sem t text
  | TSetDuration duration => Toast.setDuration sem t duration
  | TSetGravity gravity xOffset yOffset => Toast.setGravity sem t gravity xOffset yOffset
  | TShow => Toast.show sem t
  | TCancel => Toast.cancel sem t
  end.

(** The calls in order; an exception ends the sequence. *)
Fixpoint toast_run {H} (sem : semantics H) (cs : list toast_call) (t : Toast.toast)
  : M H Toast.toast :=
  match cs with
  | [] => ret t
  | c :: rest => t' <- toast_apply sem t c ;; toast_run sem rest t'
  end.

(** [LENGTH_SHORT] or [LENGTH_LONG]. *)
Definition validDuration (v : value) : bool :=
  match v with
  | VNum n => (n =? Toast.LENGTH_SHORT)%Z || (n =? Toast.LENGTH_LONG)%Z
  | _ => false
  end.

(** What the toast builder accepts: a string for [setText], one of the
    two lengths for [setDuration], three numbers for [setGravity], nothing
    for [show] and [cancel]. *)
Definition wellTypedCall (c : call) : bool :=
  if call_method c =? "setText"
  then match call_args c with [VStr _] => true | _ => false end
  else if call_method c =? "setDuration"
  then match call_args c with [d] => validDuration d | _ => false end
  else if call_method c =? "setGravity"
  then match call_args c with [VNum _; VNum _; VNum _] => true | _ => false end
  else if (call_method c =? "show") || (call_method c =? "cancel")
  then match call_args c with [] => true | _ => false end
  else false.

(** *** Config: [set]s one after the other *)

Fixpoint setAll {H} (sem : semantics H) (JSON_stringify : value -> string)
    (looksDeep : string -> bool) (stringToPath : string -> list string)
    (kvs : list (string * value)) (this : Config.config_t) : M H Config.config_t :=
  match kvs with
  | [] => ret this
  | (key, v) :: rest =>
      this' <- Config.set sem JSON_stringify looksDeep stringToPath this key v ;;
      setAll sem JSON_stringify looksDeep stringToPath rest this'
  end.


(** An instance of [Path.resolve] for the statements run on a concrete
    host: the folder, a slash, the file. *)
Definition joinPath (folder file : string) : string := folder ++ "/" ++ file.

(** A reader for the one document the constructor of [Config] writes. *)
Definition parseEmptyObject (text : value) : outcome value :=
  match text with
  | VStr "{}" => Ret (VObj false [])
  | _ => Throw (SyntaxError "Unexpected token in JSON")
  end.

(** No property of the document, at any depth, is named [__proto__],
    [constructor] or [prototype]. *)
Fixpoint clean (v : value) : bool :=
  match v with
  | VObj _ props =>
      (fix all (ps : list (string * value)) : bool :=
         match ps with
         | [] => true
         | (k, x) :: rest => negb (Lodash.unsafeKey k) && clean x && all rest
         end) props
  | _ => true
  end.

(** *** The interface pattern *)

Fixpoint noLineTerminator (s : string) : bool :=
  match s with
  | EmptyString => true
  | String c rest => negb (Pattern.isLineTerminator c) && noLineTerminator rest
  end.

(** [$] then two characters then [FileInputStream]. *)
Definition interfaceName (a b : ascii) : string :=
  String "$" (String a (String b "FileInputStream")).

(** *** fetch *)

(** What [cleanup] does to the state: the abort handler is removed from
    the signal, if there is one. *)
Definition unlisten (st : Fetch.state) : Fetch.state :=
  match Fetch.signal st with
  | Some _ => Fetch.set_listening false st
  | None => st
  end.

(** A chunk as the consumer sees it: not empty, every element a byte. *)
Definition isByte (b : Z) : bool := ((0 <=? b) && (b <? 256))%Z.

Definition isChunk (chunk : list Z) : bool :=
  (0 <? List.length chunk)%nat && forallb isByte chunk.

(** What a fetch keeps from one state to a later one: the handle and the
    chunk size, the promise once it is settled, and the chunks already
    enqueued, after which only chunks are added. *)
Definition evolves (st st' : Fetch.state) : Prop :=
  Fetch.input st' = Fetch.input st /\
  Fetch.chunkSize st' = Fetch.chunkSize st /\
  (Fetch.result st <> Fetch.Pending -> Fetch.result st' = Fetch.result st) /\
  exists added,
    Fetch.queue st' = Fetch.queue st ++ added /\ forallb isChunk added = true.

(** The abort handler is registered only on a signal, and only while the
    stream has not ended. *)
Definition listensWhileReadable (st : Fetch.state) : Prop :=
  (Fetch.signal st = None -> Fetch.listening st = false) /\
  (Fetch.readable st = false -> Fetch.listening st = false).

(** The [close] calls a fetch may still make: one by [cleanup] while the
    stream is readable, one by the abort handler while it is registered on
    a signal that has not aborted. *)
Definition pendingCloses (st : Fetch.state) : nat :=
  (if Fetch.readable st then 1 else 0)
  + match Fetch.signal st with
    | Some false => if Fetch.listening st then 1 else 0
    | _ => 0
    end.

(** The exception an abort rejects with. *)
Definition abortError : exn := DOMException "The operation was aborted." "AbortError".

(** The two calls a fetch makes on its handle. *)
Definition readChunkOrClose (r : nat) (chunkSize : Z) (c : call) : Prop :=
  c = mkCall r "readChunk" [VNum chunkSize] \/ c = mkCall r "close" [].

End Programs.

(* ================================================================= *)
(** * Properties *)

Module StringFacts.

Lemma append_assoc (a b c : string) : ((a ++ b) ++ c = a ++ (b ++ c))%string.
Proof. induction a as [|x a IH]; simpl; [reflexivity | now rewrite IH]. Qed.

Lemma append_nil_r (a : string) : (a ++ "" = a)%string.
Proof. induction a as [|x a IH]; simpl; [reflexivity | now rewrite IH]. Qed.

Lemma append_length (a b : string) :
  String.length (a ++ b) = (String.length a + String.length b)%nat.
Proof. induction a as [|x a IH]; simpl; [reflexivity | now rewrite IH]. Qed.

End StringFacts.

Module AccessorScopeFacts.
Import AccessorScope.

Lemma sanitizeScope_cons c rest :
  sanitizeScope (String c rest) = String (sanitizeChar c) (sanitizeScope rest).
Proof.
  unfold sanitizeScope, sanitizeChar; simpl.
  destruct (isDashOrDot c); reflexivity.
Qed.

Lemma sanitizeScope_length scope :
  String.length (sanitizeScope scope) = String.length scope.
Proof.
  induction scope as [|c rest IH]; [reflexivity|].
  rewrite sanitizeScope_cons; simpl; now rewrite IH.
Qed.

Lemma sanitizeScope_get scope : forall i,
  String.get i (sanitizeScope scope) = option_map sanitizeChar (String.get i scope).
Proof.
  induction scope as [|c rest IH]; intros i; [reflexivity|].
  rewrite sanitizeScope_cons.
  destruct i as [|i]; simpl; [reflexivity|apply IH].
Qed.

Lemma sanitizeChar_spec c :
  (c = "-"%char \/ c = "."%char -> sanitizeChar c = "_"%char) /\
  (c <> "-"%char -> c <> "."%char -> sanitizeChar c = c).
Proof.
  unfold sanitizeChar, isDashOrDot; split.
  - intros [-> | ->]; reflexivity.
  - intros H1 H2.
    apply Ascii.eqb_neq in H1, H2; now rewrite H1, H2.
Qed.

Lemma sanitizeChar_clean c : isDashOrDot (sanitizeChar c) = false.
Proof.
  unfold sanitizeChar.
  destruct (isDashOrDot c) eqn:E; [reflexivity | exact E].
Qed.

(** C9.  The name under which a scope is looked up is a function of the
    scope alone, ["$"] followed by the sanitized scope; sanitizing keeps
    the length and, position by position, turns ['-'] and ['.'] into ['_']
    and keeps every other character, so no ['-'] or ['.'] is left.
    [parseScope] reads the global of that name and, when there is none or
    it holds [undefined], the global named by the unsanitized scope. *)
Theorem sanitizeScope_replaces_dash_and_dot (scope : string) :
  globalName scope = ("$" ++ sanitizeScope scope)%string /\
  (forall scope', scope' = scope -> globalName scope' = globalName scope) /\
  String.length (sanitizeScope scope) = String.length scope /\
  (forall i,
     String.get i (sanitizeScope scope)
     = option_map (fun c => if ((c =? "-") || (c =? "."))%char then "_"%char else c)
         (String.get i scope)) /\
  (forall i c,
     String.get i (sanitizeScope scope) = Some c -> c <> "-"%char /\ c <> "."%char) /\
  (forall (O : Type) (isUndefined : O -> bool) (w : window O),
     parseScope isUndefined w (inl scope)
     = match window_get w (globalName scope) with
       | Some o => if isUndefined o then window_get w ("$" ++ scope) else Some o
       | None => window_get w ("$" ++ scope)
       end) /\
  (forall (w : window value),
     match parseScope (fun o => typeof o =? "undefined") w (inl scope) with
     | Some o => o
     | None => VUndefined
     end
     = match window_get w (globalName scope) with
       | Some VUndefined | None =>
           match window_get w ("$" ++ scope) with
           | Some o => o
           | None => VUndefined
           end
       | Some o => o
       end).
Proof.
  split; [reflexivity|].
  split; [now intros scope' ->|].
  split; [apply sanitizeScope_length|].
  split; [intros i; apply sanitizeScope_get|].
  split; [|split; [reflexivity|]].
  2:{ intros w. unfold parseScope, globalName.
      destruct (window_get w ("$" ++ sanitizeScope scope)) as [[]|]; reflexivity. }
  intros i c Hget.
  rewrite sanitizeScope_get in Hget.
  destruct (String.get i scope) as [a|]; [|discriminate].
  injection Hget as <-.
  pose proof (sanitizeChar_clean a) as E.
  unfold isDashOrDot in E. apply orb_false_elim in E as [E1 E2].
  split; intros Eq; rewrite Eq in *; discriminate.
Qed.

Lemma sanitizedModIdWithFile_cons2 toUpperCase scope c0 c1 rest :
  sanitizeScope scope = String c0 (String c1 rest) ->
  sanitizedModIdWithFile toUpperCase scope
  = (toUpperCase (String c0 "") ++ String c1 "File")%string.
Proof.
  intros E. unfold sanitizedModIdWithFile. rewrite E. simpl.
  unfold charAt. simpl.
  destruct rest; simpl; now rewrite StringFacts.append_assoc.
Qed.

(** C10.  A scope of at least two characters has a file-interface name made
    of its first two sanitized characters, the first one upper-cased,
    followed by ["File"]; nothing after the second character takes part, so
    every scope whose sanitized form starts with the same two characters
    gets the same name and is resolved to the same global. *)
Theorem sanitizedModIdWithFile_first_two
    (toUpperCase : string -> string) (scope : string) :
  (2 <= String.length scope)%nat ->
  exists a b tail,
    scope = String a (String b tail) /\
    sanitizedModIdWithFile toUpperCase scope
    = (toUpperCase (String (sanitizeChar a) "") ++ String (sanitizeChar b) "File")%string /\
    forall scope' tail',
      sanitizeScope scope' = String (sanitizeChar a) (String (sanitizeChar b) tail') ->
      sanitizedModIdWithFile toUpperCase scope'
      = sanitizedModIdWithFile toUpperCase scope /\
      forall (O : Type) (w : window O),
        parseFileScope toUpperCase w (inl scope')
        = parseFileScope toUpperCase w (inl scope).
Proof.
  intros Hlen.
  destruct scope as [|a [|b tail]]; simpl in Hlen; try lia.
  exists a, b, tail.
  assert (E : sanitizeScope (String a (String b tail))
              = String (sanitizeChar a) (String (sanitizeChar b) (sanitizeScope tail)))
    by now rewrite !sanitizeScope_cons.
  split; [reflexivity|]. split.
  - now apply sanitizedModIdWithFile_cons2 with (rest := sanitizeScope tail).
  - intros scope' tail' E'.
    assert (Ename : sanitizedModIdWithFile toUpperCase scope'
                    = sanitizedModIdWithFile toUpperCase (String a (String b tail))).
    { rewrite (sanitizedModIdWithFile_cons2 _ _ _ _ _ E').
      now rewrite (sanitizedModIdWithFile_cons2 _ _ _ _ _ E). }
    split; [exact Ename|].
    intros O w. simpl. now rewrite Ename.
Qed.

Lemma sanitizedModIdWithFile_first_two_witness :
  (2 <= String.length "net-switch")%nat /\
  exists a b tail,
    "net-switch" = String a (String b tail) /\
    sanitizedModIdWithFile ascii_toUpperCase "net-switch"
    = (ascii_toUpperCase (String (sanitizeChar a) "")
       ++ String (sanitizeChar b) "File")%string /\
    forall scope' tail',
      sanitizeScope scope' = String (sanitizeChar a) (String (sanitizeChar b) tail') ->
      sanitizedModIdWithFile ascii_toUpperCase scope'
      = sanitizedModIdWithFile ascii_toUpperCase "net-switch" /\
      forall (O : Type) (w : window O),
        parseFileScope ascii_toUpperCase w (inl scope')
        = parseFileScope ascii_toUpperCase w (inl "net-switch").
Proof.
  split; [simpl; lia|].
  apply (sanitizedModIdWithFile_first_two ascii_toUpperCase "net-switch").
  simpl; lia.
Defined.

Example sanitizeScope_net_switch : sanitizeScope "net-switch.v2" = "net_switch_v2".
Proof. reflexivity. Qed.

Example sanitizedModIdWithFile_net_switch :
  sanitizedModIdWithFile ascii_toUpperCase "net-switch" = "NeFile" /\
  sanitizedModIdWithFile ascii_toUpperCase "network" = "NeFile" /\
  sanitizedModIdWithFile ascii_toUpperCase "a" = "AFile" /\
  sanitizedModIdWithFile ascii_toUpperCase "" = "File".
Proof. repeat split. Qed.

End AccessorScopeFacts.

(* ================================================================= *)
(** ** The accessors outside MMRL, below a threshold, and on a failing host *)

Module AccessorFacts.
Import Surface Hosts.

Lemma hasRequiredVersion_below this required :
  (hostVersionCode (context this) < required)%Z ->
  hasRequiredVersion this required = false.
Proof. intros Hlt. unfold hasRequiredVersion. now apply Z.leb_gt. Qed.

Lemma hasRequiredVersion_at_or_above this required :
  (required <= hostVersionCode (context this))%Z ->
  hasRequiredVersion this required = true.
Proof. intros Hle. unfold hasRequiredVersion. now apply Z.leb_le. Qed.

(** Unfolding the methods of a class down to their guards. *)
Ltac unfold_fs :=
  unfold FileSystem.read, FileSystem.write, FileSystem.readAsBase64,
    FileSystem.list_, FileSystem.size, FileSystem.stat, FileSystem.delete,
    FileSystem.exists_, FileSystem.isDirectory, FileSystem.isFile,
    FileSystem.mkdir, FileSystem.mkdirs, FileSystem.createNewFile,
    FileSystem.renameTo, FileSystem.copyTo, FileSystem.canExecute,
    FileSystem.canRead, FileSystem.isHidden, FileSystem.gated.

Ltac unfold_mi :=
  unfold MMRLInterface.manager, MMRLInterface.mmrl,
    MMRLInterface.hasAccessToFileSystem, MMRLInterface.windowTopInset,
    MMRLInterface.windowBottomInset, MMRLInterface.lightNavigationBars,
    MMRLInterface.darkMode, MMRLInterface.lightStatusBars, MMRLInterface.sdk,
    MMRLInterface.requestAdvancedKernelSUAPI, MMRLInterface.requestFileSystemAPI.

Ltac unfold_vi :=
  unfold VersionInterface.versionCode, VersionInterface.versionName,
    VersionInterface.applicationId, VersionInterface.buildType,
    VersionInterface.isDevVersion, VersionInterface.isGooglePlayBuild,
    VersionInterface.platform, VersionInterface.rootVersionCode,
    VersionInterface.rootVersionName, VersionInterface.getter.

Ltac unfold_toast :=
  unfold Toast.setText, Toast.setDuration, Toast.setGravity, Toast.show,
    Toast.cancel, Toast.guarded.

(** X1.  Outside MMRL every FileSystem method, every MMRLInterface getter
    but [hasAccessToAdvancedKernelSuAPI] and every VersionInterface property
    returns its documented default; the world is left as it was: no call
    reached a host object, nothing was logged. *)
Theorem read_outside_MMRL {H} (sem : semantics H) (parseJSON : value -> M H value)
    (this : accessor) (op : read_op) (w : world H) :
  isMMRL this = false ->
  op <> OfMi MiHasAccessToAdvancedKernelSuAPI ->
  read_run sem parseJSON this op w = (Ret (read_default op), w).
Proof.
  intros Hno Hop.
  destruct op as [m|g|p].
  - destruct m; simpl;
      unfold_fs;
      rewrite Hno; reflexivity.
  - destruct g; simpl; try (now elim Hop);
      unfold_mi;
      rewrite Hno; reflexivity.
  - destruct p; simpl;
      unfold_vi;
      rewrite Hno; reflexivity.
Qed.

Lemma read_outside_MMRL_witness :
  read_run (failing (Error "unreachable")) (fun v => ret v)
    (mkAccessor browser VUndefined) (OfFs (FsSize "/data/adb/modules" true))
    (fresh tt)
  = (Ret (VNum 0), fresh tt).
Proof.
  apply (read_outside_MMRL (failing (Error "unreachable")) (fun v => ret v)
           (mkAccessor browser VUndefined) (OfFs (FsSize "/data/adb/modules" true))
           (fresh tt)).
  - reflexivity.
  - discriminate.
Defined.

(** What [hasAccessToAdvancedKernelSuAPI] does outside MMRL, whatever the
    host and the interface: no call, and [true]. *)
Lemma hasAccessToAdvancedKernelSuAPI_guard {H} (sem : semantics H)
    (this : accessor) (w : world H) :
  isMMRL this = false ->
  MMRLInterface.hasAccessToAdvancedKernelSuAPI sem this w = (Ret (VBool true), w).
Proof.
  intros Hno. unfold MMRLInterface.hasAccessToAdvancedKernelSuAPI.
  now rewrite Hno.
Qed.

(** C1, at the getter that departs from it.  In a browser that is not
    MMRL, [hasAccessToAdvancedKernelSuAPI] makes no host call and returns
    [true], where its doc comment promises "true if access is available,
    otherwise false" and [hasAccessToFileSystem] returns [false]. *)
Theorem hasAccessToAdvancedKernelSuAPI_outside_MMRL :
  isMMRL (mkAccessor browser VUndefined) = false /\
  read_default (OfMi MiHasAccessToAdvancedKernelSuAPI) = VBool false /\
  MMRLInterface.hasAccessToAdvancedKernelSuAPI (failing (Error "unreachable"))
    (mkAccessor browser VUndefined) (fresh tt)
  = (Ret (VBool true), fresh tt) /\
  MMRLInterface.hasAccessToFileSystem (failing (Error "unreachable"))
    (mkAccessor browser VUndefined) (fresh tt)
  = (Ret (VBool false), fresh tt).
Proof. repeat split. Qed.

(** X4.  A property decorated with [NativeProperty]: outside MMRL its getter
    returns the default of its options without a host call.  In MMRL, with a
    required version and the [mmrl] object present, the getter asks the host
    for its version code; below the required version it warns and returns
    the default, at or above it returns the stored value. *)
Theorem NativeProperty_getter {H} (sem : semantics H) (win : window value)
    (p : NativeProperty.property) (w : world H) :
  NativeProperty.deprecated (NativeProperty.opts p) = false ->
  (NativeProperty.isMMRL p = false ->
   NativeProperty.getter sem win p w
   = (Ret (NativeProperty.default (NativeProperty.opts p)), w)) /\
  (forall required access config code w1 w2,
     NativeProperty.isMMRL p = true ->
     NativeProperty.requireVersion (NativeProperty.opts p) = Some required ->
     window_get win "mmrl" = Some access ->
     truthy access = true ->
     invoke sem access "getBuildConfig" [] w = (Ret config, w1) ->
     invoke sem config "getVersionCode" [] w1 = (Ret (VNum code), w2) ->
     NativeProperty.getter sem win p w
     = if (code <? required)%Z
       then (Ret (NativeProperty.default (NativeProperty.opts p)),
             mkWorld (host w2) (calls w2)
               (console w2
                ++ [mkLog LWarn
                      ("Method " ++ NativeProperty.propertyKey p
                       ++ " requires MMRL version " ++ numberToString required
                       ++ " or higher!") None]))
       else (Ret (NativeProperty.stored p), w2)).
Proof.
  intros Hdep. split.
  - intros Hno. unfold NativeProperty.getter. rewrite Hdep, Hno. reflexivity.
  - intros required access config code w1 w2 Hyes Hreq Hwin Htruthy Hbc Hvc.
    unfold NativeProperty.getter, NativeProperty.versionGate.
    rewrite Hdep, Hyes, Hreq, Hwin, Htruthy. cbn [negb].
    unfold bind at 1. unfold ret at 1.
    unfold bind at 1. unfold bind at 1. rewrite Hbc.
    unfold bind at 1. rewrite Hvc. cbn [NativeProperty.lessThan].
    destruct (code <? required)%Z; reflexivity.
Qed.

Lemma NativeProperty_getter_witness :
  NativeProperty.getter (mmrlHost 33000) mmrlWindow
    (NativeProperty.decorate browser
       (NativeProperty.mkOptions (VStr "n/a") false None (Some 33162%Z)) "theme")
    (fresh tt)
  = (Ret (VStr "n/a"), fresh tt) /\
  NativeProperty.getter (mmrlHost 33000) mmrlWindow
    (NativeProperty.decorate (mmrlAt 33000)
       (NativeProperty.mkOptions (VStr "n/a") false None (Some 33162%Z)) "theme")
    (fresh tt)
  = (Ret (VStr "n/a"),
     mkWorld tt [mkCall 0 "getBuildConfig" []; mkCall 1 "getVersionCode" []]
       [mkLog LWarn "Method theme requires MMRL version 33162 or higher!" None]).
Proof.
  split.
  - apply (proj1 (NativeProperty_getter (mmrlHost 33000) mmrlWindow
                    (NativeProperty.decorate browser
                       (NativeProperty.mkOptions (VStr "n/a") false None
                          (Some 33162%Z)) "theme")
                    (fresh tt) eq_refl)).
    reflexivity.
  - apply (proj2 (NativeProperty_getter (mmrlHost 33000) mmrlWindow
                    (NativeProperty.decorate (mmrlAt 33000)
                       (NativeProperty.mkOptions (VStr "n/a") false None
                          (Some 33162%Z)) "theme")
                    (fresh tt) eq_refl)
             33162%Z (VRef 0) (VRef 1) 33000%Z
             (mkWorld tt [mkCall 0 "getBuildConfig" []] [])
             (mkWorld tt [mkCall 0 "getBuildConfig" []; mkCall 1 "getVersionCode" []]
                []));
      reflexivity.
Defined.

(** *** Host exceptions *)

Lemma _try_catches {H T} (fallback : T) (fn : M H T) errorMsg e (w w1 : world H) :
  fn w = (Throw e, w1) ->
  SuFile._try fallback fn errorMsg w
  = (Ret fallback, logged_error (errorMsg ++ ":") e w1).
Proof.
  intros E. unfold SuFile._try, try_catch. rewrite E. reflexivity.
Qed.

Lemma _try_passes {H T} (fallback : T) (fn : M H T) errorMsg v (w w1 : world H) :
  fn w = (Ret v, w1) ->
  SuFile._try fallback fn errorMsg w = (Ret v, w1).
Proof.
  intros E. unfold SuFile._try, try_catch. now rewrite E.
Qed.

Lemma su_run_unfold {H} (sem : semantics H) this m :
  su_run sem this m
  = SuFile._try (su_fallback m)
      (invoke sem (SuFile._fileInterface this)
         (fst (su_forward this m)) (snd (su_forward this m)))
      (su_errorMsg this m).
Proof. destruct m; reflexivity. Qed.

Lemma fs_run_forwards {H} (sem : semantics H) this m (w : world H) :
  isMMRL this = true ->
  (fs_gated m = true ->
   (FileSystem.advancedFsOperations <= hostVersionCode (context this))%Z) ->
  fs_run sem this m w
  = (v <- invoke sem (interface this) (fst (fs_forward m)) (snd (fs_forward m)) ;;
     ret (fs_result m v)) w.
Proof.
  intros Hyes Hver.
  assert (Hbind : forall (c : M H value), c w = (v <- c ;; ret v) w).
  { intros c. unfold bind, ret. destruct (c w) as [[v|e] w']; reflexivity. }
  destruct m; simpl in *;
    unfold_fs;
    rewrite Hyes; simpl;
    try (rewrite (hasRequiredVersion_at_or_above _ _ (Hver eq_refl)); simpl);
    first [ reflexivity | apply Hbind ].
Qed.

(** C4, as the code has it.  A SuFile method that goes through [_try]
    catches whatever its host call throws (also the [TypeError] of a
    missing interface), writes it to the console as an error under the
    method's message, and returns the method's fallback: [null], [false],
    [0] or ["[]"].  A FileSystem method has no handler: in MMRL, at a
    sufficient version, what its host call throws is what the method
    throws, and nothing is logged. *)
Theorem host_exceptions {H} (sem : semantics H) (e : exn) (w w1 : world H) :
  (forall (this : SuFile.sufile) (m : su_method),
     invoke sem (SuFile._fileInterface this)
       (fst (su_forward this m)) (snd (su_forward this m)) w = (Throw e, w1) ->
     su_run sem this m w
     = (Ret (su_fallback m), logged_error (su_errorMsg this m ++ ":") e w1) /\
     In (su_fallback m) [VNull; VBool false; VNum 0; VStr "[]"]) /\
  (forall (this : accessor) (m : fs_method),
     isMMRL this = true ->
     (fs_gated m = true ->
      (FileSystem.advancedFsOperations <= hostVersionCode (context this))%Z) ->
     invoke sem (interface this) (fst (fs_forward m)) (snd (fs_forward m)) w
     = (Throw e, w1) ->
     fs_run sem this m w = (Throw e, w1)).
Proof.
  split.
  - intros this m E. split.
    + rewrite su_run_unfold. now apply _try_catches.
    + destruct m; simpl; tauto.
  - intros this m Hyes Hver E.
    rewrite (fs_run_forwards sem this m w Hyes Hver).
    unfold bind. now rewrite E.
Qed.

(** The claim as stated fails on [FileSystem.read]: on a host whose [read]
    throws, the method throws too; it neither returns [null] nor logs. *)
Lemma FileSystem_read_propagates :
  FileSystem.read (failing (Error "EACCES")) (mkAccessor (mmrlAt 40000) (VRef 0))
    "/data/adb/secret" false (fresh tt)
  = (Throw (Error "EACCES"),
     mkWorld tt [mkCall 0 "read" [VStr "/data/adb/secret"; VBool false]] []) /\
  fst (FileSystem.read (failing (Error "EACCES")) (mkAccessor (mmrlAt 40000) (VRef 0))
         "/data/adb/secret" false (fresh tt))
  <> Ret VNull.
Proof. split; [reflexivity | discriminate]. Qed.

Example SuFile_read_swallows :
  SuFile.read (failing (Error "EACCES"))
    (SuFile.mkSuFile "/data/adb/secret" (Some "$suFileInputStream") (VRef 0))
    (fresh tt)
  = (Ret VNull,
     mkWorld tt [mkCall 0 "read" [VStr "/data/adb/secret"]]
       [mkLog LError "Error while reading from '/data/adb/secret':"
          (Some (Error "EACCES"))]).
Proof. reflexivity. Qed.

Lemma host_exceptions_witness :
  su_run (failing (Error "EACCES"))
    (SuFile.mkSuFile "/data/adb/secret" (Some "$suFileInputStream") (VRef 0))
    (SuSize true) (fresh tt)
  = (Ret (VNum 0),
     mkWorld tt [mkCall 0 "size" [VStr "/data/adb/secret"; VBool true]]
       [mkLog LError "Error while getting size of '/data/adb/secret':"
          (Some (Error "EACCES"))]).
Proof.
  apply (proj1 (host_exceptions (failing (Error "EACCES")) (Error "EACCES")
                  (fresh tt)
                  (mkWorld tt [mkCall 0 "size" [VStr "/data/adb/secret"; VBool true]]
                     []))
           (SuFile.mkSuFile "/data/adb/secret" (Some "$suFileInputStream") (VRef 0))
           (SuSize true)).
  reflexivity.
Defined.

(** *** Toast: validation of the arguments *)

Lemma guarded_ready {H} (t : Toast.toast) (body : M H Toast.toast) :
  Toast.ready t = true -> Toast.guarded t body = body.
Proof.
  unfold Toast.ready, Toast.guarded. intros E.
  apply andb_prop in E as [E Hv]. apply andb_prop in E as [Hm Hb].
  now rewrite Hm, Hb, Hv.
Qed.

Lemma guarded_not_ready {H} (t : Toast.toast) (body : M H Toast.toast) :
  Toast.ready t = false -> Toast.guarded t body = ret t.
Proof.
  unfold Toast.ready, Toast.guarded. intros E.
  destruct (isMMRL (Toast.base t)); simpl in *; [|reflexivity].
  destruct (truthy (Toast.toastBuilder t)); simpl in *; [|reflexivity].
  now rewrite E.
Qed.

Lemma typeof_neq_eqb v s : typeof v <> s -> (typeof v =? s) = false.
Proof. intros N. now apply String.eqb_neq. Qed.

(** C8, as the code has it.  Once its guards have passed (the context is
    MMRL, the toast builder is there, the host is at version 33049 or
    later) a Toast setter raises on an invalid argument before any host
    call: [setText] a [TypeError] for a text that is not a string,
    [setDuration] a [TypeError] for a duration that is not a number and an
    [Error] for a number other than 0 and 1, [setGravity] a [TypeError] as
    soon as one of its three arguments is not a number.  When a guard does
    not pass, the setter returns without looking at its arguments. *)
Theorem toast_setters_validate {H} (sem : semantics H) (t : Toast.toast)
    (w : world H) :
  (Toast.ready t = true ->
   (forall text, typeof text <> "string" ->
      Toast.setText sem t text w = (Throw (TypeError "Text must be a string"), w)) /\
   (forall duration, typeof duration <> "number" ->
      Toast.setDuration sem t duration w
      = (Throw (TypeError "Duration must be a number"), w)) /\
   (forall n, n <> Toast.LENGTH_SHORT -> n <> Toast.LENGTH_LONG ->
      Toast.setDuration sem t (VNum n) w = (Throw (Error "Invalid duration"), w)) /\
   (forall gravity xOffset yOffset,
      typeof gravity <> "number" \/ typeof xOffset <> "number"
      \/ typeof yOffset <> "number" ->
      exists msg,
        Toast.setGravity sem t gravity xOffset yOffset w = (Throw (TypeError msg), w))) /\
  (Toast.ready t = false ->
   forall a b c,
     Toast.setText sem t a w = (Ret t, w) /\
     Toast.setDuration sem t a w = (Ret t, w) /\
     Toast.setGravity sem t a b c w = (Ret t, w)).
Proof.
  split.
  - intros Hr. repeat split.
    + intros text Ht. unfold Toast.setText. rewrite (guarded_ready _ _ Hr).
      now rewrite (typeof_neq_eqb _ _ Ht).
    + intros d Hd. unfold Toast.setDuration. rewrite (guarded_ready _ _ Hr).
      now rewrite (typeof_neq_eqb _ _ Hd).
    + intros n H0 H1. unfold Toast.setDuration. rewrite (guarded_ready _ _ Hr).
      simpl. apply Z.eqb_neq in H0, H1. now rewrite H0, H1.
    + intros g x y Hbad. unfold Toast.setGravity. rewrite (guarded_ready _ _ Hr).
      destruct (typeof g =? "number") eqn:Eg; simpl; [|eexists; reflexivity].
      destruct (typeof x =? "number") eqn:Ex; simpl; [|eexists; reflexivity].
      destruct (typeof y =? "number") eqn:Ey; simpl; [|eexists; reflexivity].
      apply String.eqb_eq in Eg, Ex, Ey. tauto.
  - intros Hr a b c.
    unfold Toast.setText, Toast.setDuration, Toast.setGravity.
    now rewrite !(guarded_not_ready _ _ Hr).
Qed.

Lemma toast_setters_validate_witness :
  Toast.setText (answering VUndefined)
    (Toast.mkToast (mkAccessor (mmrlAt 33049) (VRef 0)) (VRef 1) (VNum 0))
    (VNum 42) (fresh tt)
  = (Throw (TypeError "Text must be a string"), fresh tt).
Proof.
  apply (proj1 (proj1 (toast_setters_validate (answering VUndefined)
                         (Toast.mkToast (mkAccessor (mmrlAt 33049) (VRef 0)) (VRef 1)
                            (VNum 0))
                         (fresh tt)) eq_refl)).
  discriminate.
Defined.

(** [Toast.makeText] on a host at version 33049: the builder is fetched,
    then text and duration are set; with a duration that is neither 0 nor
    1 the second setter throws after the first has called the host. *)
Example makeText_runs :
  Toast.makeText (mmrlHost 33049) (mmrlAt 33049) mmrlWindow (VStr "Saved") (VNum 1)
    (fresh tt)
  = (Ret (Toast.mkToast (mkAccessor (mmrlAt 33049) (VRef mmrlRef))
            (VRef toastBuilderRef) (VNum 1)),
     mkWorld tt
       [mkCall mmrlRef "toastBuilder" [];
        mkCall toastBuilderRef "setText" [VStr "Saved"];
        mkCall toastBuilderRef "setDuration" [VNum 1]]
       []).
Proof. reflexivity. Qed.

Example makeText_invalid_duration :
  Toast.makeText (mmrlHost 33049) (mmrlAt 33049) mmrlWindow (VStr "Saved") (VNum 5)
    (fresh tt)
  = (Throw (Error "Invalid duration"),
     mkWorld tt
       [mkCall mmrlRef "toastBuilder" [];
        mkCall toastBuilderRef "setText" [VStr "Saved"]]
       []).
Proof. reflexivity. Qed.

(** The claim as stated fails when a guard stops the method: in a browser
    that is not MMRL, [setText(42)] and [setDuration("long")] return. *)
Lemma Toast_setText_returns_outside_MMRL :
  Toast.setText (answering VUndefined)
    (Toast.mkToast (mkAccessor browser (VRef 0)) (VRef 1) (VNum 0))
    (VNum 42) (fresh tt)
  = (Ret (Toast.mkToast (mkAccessor browser (VRef 0)) (VRef 1) (VNum 0)), fresh tt) /\
  Toast.setDuration (answering VUndefined)
    (Toast.mkToast (mkAccessor (mmrlAt 33048) (VRef 0)) (VRef 1) (VNum 0))
    (VStr "long") (fresh tt)
  = (Ret (Toast.mkToast (mkAccessor (mmrlAt 33048) (VRef 0)) (VRef 1) (VNum 0)),
     fresh tt).
Proof. split; reflexivity. Qed.

End AccessorFacts.

(* ================================================================= *)
(** ** Construction of the stream accessors *)

Module ConstructionFacts.
Import Hosts.

(** With the [m] flag a key matches as soon as one of its lines does. *)
Example pattern_matches_a_line :
  Pattern.matchesFileInputStream
    ("x" ++ String (ascii_of_nat 10) "$suFileInputStream")%string = true.
Proof. reflexivity. Qed.

Example pattern_matches :
  Pattern.matchesFileInputStream "$suFileInputStream" = true /\
  Pattern.matchesFileInputStream "$k_FileInputStream" = true /\
  Pattern.matchesFileInputStream "$suFile" = false /\
  Pattern.matchesFileInputStream "$mmrlFileInputStream" = false /\
  Pattern.matchesFileInputStream "$s-FileInputStream" = false /\
  Pattern.matchesFileInputStream "x$suFileInputStream" = false /\
  Pattern.matchesFileInputStream "" = false.
Proof. repeat split. Qed.

Lemma found_is_not_missing {O} (w : window O) key :
  Pattern.findInterface w = Some key -> Pattern.missing (Some key) = false.
Proof.
  unfold Pattern.findInterface. intros E.
  apply find_some in E as [_ E].
  simpl. destruct key; [discriminate E | reflexivity].
Qed.

Lemma none_found {O} (w : window O) :
  (forall key, In key (map fst w) -> Pattern.matchesFileInputStream key = false) ->
  Pattern.findInterface w = None.
Proof.
  intros Hnone. unfold Pattern.findInterface.
  destruct (find Pattern.matchesFileInputStream (map fst w)) as [key|] eqn:E;
    [|reflexivity].
  apply find_some in E as [Hin Hm]. rewrite (Hnone key Hin) in Hm. discriminate.
Qed.

(** C7.  When no global name matches the file-stream interface pattern,
    [new SuFileInputStream(path)] throws a [ReferenceError] without having
    called the host, and [new SuFile(path)] throws a [ReferenceError] too.
    When a name matches and the host's [open] returns a falsy value,
    [new SuFileInputStream(path)] throws an [Error] right after that call.
    In each case the exception is the constructor's completion: nothing in
    it catches. *)
Theorem stream_constructors_raise {H} (sem : semantics H) (w : window value)
    (path : string) (world0 : world H) :
  ((forall key, In key (map fst w) -> Pattern.matchesFileInputStream key = false) ->
   SuFileInputStream.new sem w path world0
   = (Throw (ReferenceError "Unable to find a interface SuFileInputStream"), world0) /\
   SuFile.new w path = Throw (ReferenceError "Unable to find a interface SuFile")) /\
  (forall key nothing world1,
     Pattern.findInterface w = Some key ->
     invoke sem (SuFile.globalOf w (Some key)) "open" [VStr path] world0
     = (Ret nothing, world1) ->
     truthy nothing = false ->
     SuFileInputStream.new sem w path world0
     = (Throw (Error "Failed to open file input stream"), world1)).
Proof.
  split.
  - intros Hnone. apply none_found in Hnone.
    unfold SuFileInputStream.new, SuFile.new. rewrite Hnone. simpl. split; reflexivity.
  - intros key nothing world1 Hfound Hopen Hfalsy.
    unfold SuFileInputStream.new.
    rewrite Hfound, (found_is_not_missing _ _ Hfound).
    unfold bind. rewrite Hopen, Hfalsy. reflexivity.
Qed.

Lemma stream_constructors_raise_witness :
  (SuFileInputStream.new (answering VNull) [("document", VUndefined)] "/sdcard/a.bin"
     (fresh tt)
   = (Throw (ReferenceError "Unable to find a interface SuFileInputStream"), fresh tt) /\
   SuFile.new [("document", VUndefined)] "/sdcard/a.bin"
   = Throw (ReferenceError "Unable to find a interface SuFile")) /\
  SuFileInputStream.new (answering VNull) streamWindow "/sdcard/a.bin" (fresh tt)
  = (Throw (Error "Failed to open file input stream"),
     mkWorld tt [mkCall 0 "open" [VStr "/sdcard/a.bin"]] []).
Proof.
  split.
  - apply (proj1 (stream_constructors_raise (answering VNull)
                    [("document", VUndefined)] "/sdcard/a.bin" (fresh tt))).
    intros key [<- | []]. reflexivity.
  - apply (proj2 (stream_constructors_raise (answering VNull) streamWindow
                    "/sdcard/a.bin" (fresh tt))
             "$suFileInputStream" VNull);
      reflexivity.
Defined.

(** When a name matches and [open] returns a handle, both constructors
    succeed. *)
Example constructors_succeed :
  SuFile.new streamWindow "/sdcard/a.bin"
  = Ret (SuFile.mkSuFile "/sdcard/a.bin" (Some "$suFileInputStream") (VRef 0)) /\
  fst (SuFileInputStream.new (answering (VRef 1)) streamWindow "/sdcard/a.bin"
         (fresh tt))
  = Ret (SuFileInputStream.mkStream "/sdcard/a.bin" (Some "$suFileInputStream")
           (VRef 1)).
Proof. split; reflexivity. Qed.

End ConstructionFacts.

(* ================================================================= *)
(** ** The streaming read *)

Module FetchFacts.
Import Hosts Fetch.

Lemma wire_mod signed b :
  (0 <= b < 256)%Z -> (wire signed b mod 256 = b)%Z.
Proof.
  intros Hb. unfold wire.
  destruct (signed && (128 <=? b)%Z).
  - replace (b - 256)%Z with (b + (-1) * 256)%Z by lia.
    rewrite Z.mod_add by lia. apply Z.mod_small. lia.
  - apply Z.mod_small. lia.
Qed.

Lemma Uint8Array_wire signed (l : list Z) :
  Forall (fun b => (0 <= b < 256)%Z) l ->
  Uint8Array (map (wire signed) l) = l.
Proof.
  induction 1 as [|b l Hb _ IH]; simpl; [reflexivity|].
  now rewrite wire_mod, IH.
Qed.

Lemma ceil_step (n c : nat) :
  (0 < n)%nat -> (0 < c)%nat ->
  ((n + c - 1) / c = S ((n - Nat.min c n + c - 1) / c))%nat.
Proof.
  intros Hn Hc.
  destruct (Nat.le_gt_cases c n) as [Hle | Hgt].
  - rewrite Nat.min_l by lia.
    replace (n + c - 1)%nat with ((n - c + c - 1) + 1 * c)%nat by lia.
    rewrite Nat.div_add by lia. lia.
  - rewrite Nat.min_r by lia.
    replace (n - n + c - 1)%nat with (c - 1)%nat by lia.
    rewrite (Nat.div_small (c - 1) c) by lia.
    replace (n + c - 1)%nat with ((n - 1) + 1 * c)%nat by lia.
    rewrite Nat.div_add by lia.
    rewrite (Nat.div_small (n - 1) c) by lia. reflexivity.
Qed.

Section OnAFile.

Variable JSON_parse : value -> outcome (list Z).
Variable encode : list Z -> string.
Variable signed : bool.

(** The host writes JSON that [JSON.parse] reads back, and no JSON text is
    the empty string. *)
Hypothesis parse_encode : forall l, JSON_parse (VStr (encode l)) = Ret l.
Hypothesis encode_nonempty : forall l, encode l <> "".

Let sem := fileHost encode signed.

Lemma pull_at_end path C q (w : world file_stream) :
  host w = mkFileStream [] false ->
  pull sem JSON_parse (reading (handle path) C q) w
  = (Ret (mkState (Some (handle path)) C None false (Some Closed) q Resolved),
     mkWorld (mkFileStream [] true)
       (calls w ++ [mkCall handleRef "readChunk" [VNum C];
                    mkCall handleRef "close" []])
       (console w)).
Proof.
  intros Hh. destruct w as [h cs l]. simpl in Hh. subst h.
  unfold pull, try_catch, bind, SuFileInputStream.readChunk, invoke; simpl.
  now rewrite <- app_assoc.
Qed.

Lemma pull_data path C q (w : world file_stream) b rest :
  (0 < C)%Z ->
  host w = mkFileStream (b :: rest) false ->
  pull sem JSON_parse (reading (handle path) C q) w
  = (Ret (reading (handle path) C
            (q ++ [Uint8Array (map (wire signed) (firstn (Z.to_nat C) (b :: rest)))])),
     mkWorld (mkFileStream (skipn (Z.to_nat C) (b :: rest)) false)
       (calls w ++ [mkCall handleRef "readChunk" [VNum C]])
       (console w)).
Proof.
  intros HC Hh. destruct w as [h cs l]. simpl in Hh. subst h.
  unfold pull, try_catch, bind, SuFileInputStream.readChunk, invoke.
  cbn [handle SuFileInputStream._is reading input chunkSize host calls console].
  unfold sem, fileHost.
  cbn [Nat.eqb handleRef interfaceRef String.eqb Ascii.eqb Bool.eqb
       closed remaining truthy negb].
  destruct (encode (map (wire signed) (firstn (Z.to_nat C) (b :: rest)))
            =? "") eqn:E.
  { apply String.eqb_eq in E. now apply encode_nonempty in E. }
  cbn [negb]. rewrite parse_encode.
  destruct (Z.to_nat C) as [|c] eqn:EC; [lia|].
  reflexivity.
Qed.

(** Reading the body to its end: with enough pulls the stream closes,
    the chunks enqueued are those of the file, one per [C] bytes, and
    the handle has been closed once. *)
Lemma drain_reads_all path C (HC : (0 < C)%Z) : forall fuel rest q (w : world file_stream),
  Forall (fun b => (0 <= b < 256)%Z) rest ->
  (List.length rest < fuel)%nat ->
  host w = mkFileStream rest false ->
  exists q' w',
    drain sem JSON_parse fuel (reading (handle path) C q) w
    = (Ret (mkState (Some (handle path)) C None false (Some Closed) (q ++ q') Resolved),
       w') /\
    concat q' = rest /\
    List.length q' = ((List.length rest + Z.to_nat C - 1) / Z.to_nat C)%nat /\
    Forall (fun ch => (0 < List.length ch <= Z.to_nat C)%nat) q' /\
    closeCount w' = S (closeCount w) /\
    readChunkCount w' = S (List.length q' + readChunkCount w) /\
    console w' = console w /\
    host w' = mkFileStream [] true.
Proof.
  induction fuel as [|fuel IH]; intros rest q w Hrange Hfuel Hh; [lia|].
  destruct rest as [|b rest].
  - exists [], (mkWorld (mkFileStream [] true)
                  (calls w ++ [mkCall handleRef "readChunk" [VNum C];
                               mkCall handleRef "close" []])
                  (console w)).
    cbn [drain reading body]. unfold bind.
    rewrite (pull_at_end path C q w Hh).
    split.
    { destruct fuel; cbn [drain body]; unfold ret; now rewrite app_nil_r. }
    split; [reflexivity|]. split.
    { simpl. rewrite Nat.div_small; [reflexivity | lia]. }
    split; [constructor|].
    unfold closeCount, readChunkCount, callCount; cbn [calls console host].
    rewrite !filter_app, !length_app. simpl. repeat split; lia.
  - set (c := Z.to_nat C) in *.
    assert (Hc : (0 < c)%nat) by (unfold c; lia).
    set (chunk := firstn c (b :: rest)).
    set (left := skipn c (b :: rest)).
    assert (Esplit : chunk ++ left = b :: rest) by apply firstn_skipn.
    assert (Hlen : List.length chunk = Nat.min c (List.length (b :: rest)))
      by apply length_firstn.
    assert (Hleft : List.length left = (List.length (b :: rest) - c)%nat)
      by apply length_skipn.
    rewrite <- Esplit in Hrange. apply Forall_app in Hrange as [Hchunk Hrest].
    simpl List.length in Hfuel, Hlen, Hleft.
    destruct (IH left (q ++ [Uint8Array (map (wire signed) chunk)])
                (mkWorld (mkFileStream left false)
                   (calls w ++ [mkCall handleRef "readChunk" [VNum C]])
                   (console w)))
      as (q' & w' & Hrun & Hcat & Hcount & Hsizes & Hclose & Hreads & Hlog & Hend).
    { exact Hrest. }
    { lia. }
    { reflexivity. }
    exists (chunk :: q'), w'.
    cbn [drain reading body]. unfold bind.
    rewrite (pull_data path C q w b rest HC Hh). fold c. fold chunk. fold left.
    fold (reading (handle path) C (q ++ [Uint8Array (map (wire signed) chunk)])).
    rewrite Hrun, (Uint8Array_wire signed chunk Hchunk), <- app_assoc.
    split; [reflexivity|].
    split; [simpl; now rewrite Hcat|].
    split.
    { simpl List.length. rewrite Hcount, Hleft.
      rewrite (ceil_step (S (List.length rest)) c) by lia.
      f_equal. f_equal. simpl List.length. lia. }
    split.
    { constructor; [|exact Hsizes]. rewrite Hlen. simpl. lia. }
    unfold closeCount, readChunkCount, callCount in *; cbn [calls console host] in *.
    rewrite !filter_app, !length_app in Hclose, Hreads. simpl in Hclose, Hreads.
    simpl List.length. repeat split; try assumption; lia.
Qed.

End OnAFile.

End FetchFacts.

(* ================================================================= *)
(** ** The compact JSON reader reads back what the writer wrote *)

Module CompactJSONFacts.
Import CompactJSON StringFacts.

Lemma token_uint d : token (NilEmpty.string_of_uint d) = true.
Proof. induction d; simpl; auto. Qed.

Lemma token_printZ z : token (printZ z) = true.
Proof.
  unfold printZ, numberToString, NilZero.string_of_int, NilZero.string_of_uint.
  destruct (Z.to_int z) as [d|d]; destruct d; simpl; auto using token_uint.
Qed.

Lemma to_int_proper z : Z.to_int z <> Pos Nil /\ Z.to_int z <> Neg Nil.
Proof.
  destruct z as [|p|p]; simpl; split; try discriminate;
    intros [= E]; now apply (DecimalPos.Unsigned.to_uint_nonnil p).
Qed.

Lemma int_of_printZ z : NilZero.int_of_string (printZ z) = Some (Z.to_int z).
Proof.
  unfold printZ, numberToString. destruct (to_int_proper z). now apply NilZero.isi.
Qed.

Lemma printZ_head z : exists c rest,
  printZ z = String c rest /\ (c =? "]")%char = false.
Proof.
  pose proof (int_of_printZ z) as E. pose proof (token_printZ z) as T.
  destruct (printZ z) as [|c rest]; [discriminate E|].
  exists c, rest. split; [reflexivity|].
  simpl in T. apply andb_prop in T as [T _]. apply andb_prop in T as [_ T].
  now apply negb_true_iff in T.
Qed.

Lemma items_token t : forall s tok,
  token t = true -> items (t ++ s) tok = items s (tok ++ t).
Proof.
  induction t as [|c t IH]; intros s tok T; simpl.
  - now rewrite append_nil_r.
  - simpl in T. apply andb_prop in T as [T Tt]. apply andb_prop in T as [T1 T2].
    apply negb_true_iff in T1, T2. rewrite T1, T2.
    rewrite (IH s _ Tt), append_assoc. reflexivity.
Qed.

Lemma items_printItems z l : items (printItems (z :: l)) "" = Some (z :: l).
Proof.
  revert z. induction l as [|z' l IH]; intros z.
  - cbn [printItems]. rewrite (items_token _ _ _ (token_printZ z)).
    simpl. now rewrite int_of_printZ, DecimalZ.of_to.
  - change (printItems (z :: z' :: l))
      with (printZ z ++ String "," (printItems (z' :: l)))%string.
    rewrite (items_token _ _ _ (token_printZ z)).
    cbn [items append]. simpl Ascii.eqb. cbn iota.
    now rewrite int_of_printZ, IH, DecimalZ.of_to.
Qed.

Theorem parse_print l : parse (VStr (print l)) = Ret l.
Proof.
  destruct l as [|z l]; [reflexivity|].
  unfold print, parse. simpl Ascii.eqb. cbn iota.
  assert (E : (printItems (z :: l) =? "]") = false).
  { destruct (printZ_head z) as (c & rest & Ez & Ec).
    destruct l; cbn [printItems]; rewrite Ez; simpl; now rewrite Ec. }
  now rewrite E, items_printItems.
Qed.

Lemma print_nonempty l : print l <> "".
Proof. discriminate. Qed.

Example print_bytes : print [72; -56; 7]%Z = "[72,-56,7]".
Proof. reflexivity. Qed.

End CompactJSONFacts.

(* ================================================================= *)
(** ** Streaming a whole file *)

Module StreamingRead.
Import Hosts Fetch FetchFacts.

Lemma file_is_constructed path : SuFile.new streamWindow path = Ret (file path).
Proof. reflexivity. Qed.

Lemma fetch_opens JSON_encode signed path C (h : file_stream) :
  fetch (fileHost JSON_encode signed) streamWindow (file path)
    (mkOptions (Some C) None) (fresh h)
  = (Ret (reading (handle path) C []),
     mkWorld h [mkCall interfaceRef "open" [VStr path]] []).
Proof. reflexivity. Qed.

(** C2.  On a host whose [readChunk] returns the next [min(C, remaining)]
    bytes of the file as JSON text that [JSON.parse] reads back, and
    [null] once nothing remains, fetching a file of [N] bytes with chunk
    size [C > 0] and reading the response body to its end resolves the
    promise, closes the stream, and yields exactly [ceil(N / C)] chunks,
    none empty and none longer than [C], whose concatenation is the
    file's bytes; the handle is closed once, after [ceil(N / C) + 1]
    calls of [readChunk]. *)
Theorem fetch_streams_whole_file
    (JSON_parse : value -> outcome (list Z)) (encode : list Z -> string)
    (signed : bool) (path : string) (bytes : list Z) (C : Z) (fuel : nat) :
  (forall l, JSON_parse (VStr (encode l)) = Ret l) ->
  (forall l, encode l <> "") ->
  (0 < C)%Z ->
  Forall (fun b => (0 <= b < 256)%Z) bytes ->
  (List.length bytes < fuel)%nat ->
  exists st w,
    (st0 <- fetch (fileHost encode signed) streamWindow (file path)
              (mkOptions (Some C) None) ;;
     drain (fileHost encode signed) JSON_parse fuel st0)
      (fresh (mkFileStream bytes false))
    = (Ret st, w) /\
    result st = Resolved /\
    body st = Some Closed /\
    Z.of_nat (List.length (queue st)) = ((Z.of_nat (List.length bytes) + C - 1) / C)%Z /\
    concat (queue st) = bytes /\
    Forall (fun chunk => (0 < Z.of_nat (List.length chunk) <= C)%Z) (queue st) /\
    closeCount w = 1%nat /\
    readChunkCount w = S (List.length (queue st)).
Proof.
  intros Hparse Hnonempty HC Hrange Hfuel.
  destruct (drain_reads_all JSON_parse encode signed Hparse Hnonempty path C HC
              fuel bytes []
              (mkWorld (mkFileStream bytes false)
                 [mkCall interfaceRef "open" [VStr path]] [])
              Hrange Hfuel eq_refl)
    as (q & w & Hrun & Hcat & Hcount & Hsizes & Hclose & Hreads & _ & _).
  eexists; exists w.
  unfold bind at 1. rewrite fetch_opens.
  split; [exact Hrun|]. cbn [result body queue]. change ([] ++ q) with q.
  split; [reflexivity|]. split; [reflexivity|].
  split.
  { rewrite Hcount, Nat2Z.inj_div. f_equal; lia. }
  split; [exact Hcat|].
  split.
  { apply Forall_impl with (2 := Hsizes). intros chunk Hlen. lia. }
  split; [exact Hclose|].
  rewrite Hreads. unfold readChunkCount, callCount. simpl. now rewrite Nat.add_0_r.
Qed.

Lemma fetch_streams_whole_file_witness :
  exists st w,
    (st0 <- fetch (fileHost CompactJSON.print true) streamWindow
              (file "/sdcard/a.bin") (mkOptions (Some 2%Z) None) ;;
     drain (fileHost CompactJSON.print true) CompactJSON.parse 4 st0)
      (fresh (mkFileStream [72; 200; 7]%Z false))
    = (Ret st, w) /\
    result st = Resolved /\
    body st = Some Closed /\
    Z.of_nat (List.length (queue st))
    = ((Z.of_nat (List.length [72; 200; 7]%Z) + 2 - 1) / 2)%Z /\
    concat (queue st) = [72; 200; 7]%Z /\
    Forall (fun chunk => (0 < Z.of_nat (List.length chunk) <= 2)%Z) (queue st) /\
    closeCount w = 1%nat /\
    readChunkCount w = S (List.length (queue st)).
Proof.
  apply (fetch_streams_whole_file CompactJSON.parse CompactJSON.print true
           "/sdcard/a.bin" [72; 200; 7]%Z 2%Z 4).
  - exact CompactJSONFacts.parse_print.
  - exact CompactJSONFacts.print_nonempty.
  - lia.
  - repeat constructor; lia.
  - simpl; lia.
Defined.

(** The same run, evaluated: two chunks, and the trace of host calls. *)
Example fetch_three_bytes :
  (st0 <- fetch (fileHost CompactJSON.print true) streamWindow
            (file "/sdcard/a.bin") (mkOptions (Some 2%Z) None) ;;
   drain (fileHost CompactJSON.print true) CompactJSON.parse 4 st0)
    (fresh (mkFileStream [72; 200; 7]%Z false))
  = (Ret (mkState (Some (handle "/sdcard/a.bin")) 2 None false (Some Closed)
            [[72; 200]; [7]]%Z Resolved),
     mkWorld (mkFileStream [] true)
       [mkCall 0 "open" [VStr "/sdcard/a.bin"];
        mkCall 1 "readChunk" [VNum 2];
        mkCall 1 "readChunk" [VNum 2];
        mkCall 1 "readChunk" [VNum 2];
        mkCall 1 "close" []]
       []).
Proof. vm_compute. reflexivity. Qed.

End StreamingRead.

(* ================================================================= *)
(** ** Cancellation and the release of the handle *)

Module Cancellation.
Import Hosts Fetch FetchFacts StreamingRead.

(** C3, at the run that departs from it.  A file of three bytes is
    fetched with chunk size 1 and a signal; the consumer pulls one chunk,
    the signal aborts, the consumer pulls again.  The abort closes the
    handle but leaves the stream readable, so the second pull calls
    [readChunk] on the closed handle; the host throws, and the cleanup of
    the failed pull closes the handle a second time. *)
Theorem pull_after_abort :
  (st0 <- fetch (fileHost CompactJSON.print true) streamWindow
            (file "/sdcard/a.bin") (mkOptions (Some 1%Z) (Some false)) ;;
   run (fileHost CompactJSON.print true) CompactJSON.parse [Pull; Abort; Pull] st0)
    (fresh (mkFileStream [1; 2; 3]%Z false))
  = (Ret (mkState (Some (handle "/sdcard/a.bin")) 1 (Some true) false
            (Some (Errored (Error "Stream Closed"))) [[1]]%Z Resolved),
     mkWorld (mkFileStream [2; 3]%Z true)
       [mkCall 0 "open" [VStr "/sdcard/a.bin"];
        mkCall 1 "readChunk" [VNum 1];
        mkCall 1 "close" [];
        mkCall 1 "readChunk" [VNum 1];
        mkCall 1 "close" []]
       []).
Proof. vm_compute. reflexivity. Qed.

(** After the abort alone the stream is still readable and the promise,
    resolved when [fetch] returned, stays resolved. *)
Example abort_leaves_the_stream_readable :
  (st0 <- fetch (fileHost CompactJSON.print true) streamWindow
            (file "/sdcard/a.bin") (mkOptions (Some 1%Z) (Some false)) ;;
   run (fileHost CompactJSON.print true) CompactJSON.parse [Pull; Abort] st0)
    (fresh (mkFileStream [1; 2; 3]%Z false))
  = (Ret (mkState (Some (handle "/sdcard/a.bin")) 1 (Some true) true
            (Some Readable) [[1]]%Z Resolved),
     mkWorld (mkFileStream [2; 3]%Z true)
       [mkCall 0 "open" [VStr "/sdcard/a.bin"];
        mkCall 1 "readChunk" [VNum 1];
        mkCall 1 "close" []]
       []).
Proof. vm_compute. reflexivity. Qed.

(** X3.  The same holds on every host: while the abort handler is registered
    and the stream readable, an abort calls [close] on the handle and
    changes nothing but the signal: the stream stays readable, the promise
    resolved, the handler registered, the handle, the chunk size and the
    queue as they were.  The next pull starts with a [readChunk] on the
    handle. *)
Lemma pull_after_abort_on_any_host {H} (sem : semantics H)
    (JSON_parse : value -> outcome (list Z))
    (path : string) (name : option string) (r : nat) (C : Z)
    (q : list (list Z)) (w : world H) :
  exists st1 w1 res w2 later,
    step sem JSON_parse Abort
      (mkState (Some (SuFileInputStream.mkStream path name (VRef r))) C (Some false)
         true (Some Readable) q Resolved) w
    = (Ret st1, w1) /\
    st1 = mkState (Some (SuFileInputStream.mkStream path name (VRef r))) C (Some true)
            true (Some Readable) q Resolved /\
    body st1 = Some Readable /\
    result st1 = Resolved /\
    calls w1 = calls w ++ [mkCall r "close" []] /\
    step sem JSON_parse Pull st1 w1 = (res, w2) /\
    calls w2 = calls w1 ++ mkCall r "readChunk" [VNum C] :: later.
Proof.
  destruct w as [h0 cs l]. cbn [calls].
  set (i := SuFileInputStream.mkStream path name (VRef r)).
  destruct (sem r "close" [] h0) as [c1 h1] eqn:Eclose.
  set (w1 := mkWorld h1 (cs ++ [mkCall r "close" []])
               (match c1 with
                | Ret _ => l
                | Throw e => l ++ [mkLog LError "Error during abort cleanup:" (Some e)]
                end)).
  set (st1 := mkState (Some i) C (Some true) true (Some Readable) q Resolved).
  assert (E1 : step sem JSON_parse Abort
                 (mkState (Some i) C (Some false) true (Some Readable) q Resolved)
                 (mkWorld h0 cs l)
               = (Ret st1, w1)).
  { cbv beta iota zeta delta
      [step abortHandler try_catch bind close_input SuFileInputStream.close
       SuFileInputStream._is invoke console_error log ret reject settle set_aborted
       input signal listening body queue result chunkSize host calls console i].
    rewrite Eclose. destruct c1; reflexivity. }
  destruct (step sem JSON_parse Pull st1 w1) as [res w2] eqn:E2.
  exists st1, w1, res, w2.
  assert (Hcalls : exists later,
             calls w2 = calls w1 ++ mkCall r "readChunk" [VNum C] :: later).
  { revert E2.
    cbv beta iota zeta delta
      [step st1 w1 i pull try_catch bind SuFileInputStream.readChunk invoke
       cleanup close_input SuFileInputStream.close SuFileInputStream._is
       console_error log ret throw reject settle set_body set_listening enqueue
       input signal listening body queue result chunkSize host calls console].
    destruct (sem r "readChunk" [VNum C] h1) as [[v|e] h2]; simpl.
    - destruct (truthy v); simpl.
      + destruct (JSON_parse v) as [chunk|e]; simpl.
        * destruct (0 <? List.length chunk)%nat; simpl.
          -- intros [= _ <-]. exists []. reflexivity.
          -- destruct (sem r "close" [] h2) as [[v'|e'] h3]; simpl;
               intros [= _ <-]; eexists; simpl; rewrite <- app_assoc; reflexivity.
        * destruct (sem r "close" [] h2) as [[v'|e'] h3]; simpl;
            intros [= _ <-]; eexists; simpl; rewrite <- app_assoc; reflexivity.
      + destruct (sem r "close" [] h2) as [[v'|e'] h3]; simpl;
          intros [= _ <-]; eexists; simpl; rewrite <- app_assoc; reflexivity.
    - destruct (sem r "close" [] h2) as [[v'|e'] h3]; simpl;
        intros [= _ <-]; eexists; simpl; rewrite <- app_assoc; reflexivity. }
  destruct Hcalls as [later Hlater].
  exists later. repeat split; try assumption; reflexivity.
Qed.

(** *** Runs without an abort *)

Section AnyHost.
Context {H : Type} (sem : semantics H).
Variable JSON_parse : value -> outcome (list Z).

Lemma closeCount_app (h h' : H) cs cs' l l' :
  closeCount (mkWorld h' (cs ++ cs') l')
  = (closeCount (mkWorld h cs l) + closeCount (mkWorld h' cs' l'))%nat.
Proof.
  unfold closeCount, callCount; cbn [calls].
  now rewrite filter_app, length_app.
Qed.

(** [cleanup] closes the handle, once, and cannot fail. *)
Lemma cleanup_closes r (st : state) (w : world H) :
  opened r st ->
  exists w',
    cleanup sem st w
    = (Ret (match signal st with Some _ => set_listening false st | None => st end),
       w') /\
    calls w' = calls w ++ [mkCall r "close" []].
Proof.
  intros (path & name & Ein). destruct w as [h cs l].
  cbv beta iota zeta delta
    [cleanup try_catch bind close_input SuFileInputStream.close
     SuFileInputStream._is invoke console_error log ret].
  assert (Ein' : input (match signal st with
                        | Some _ => set_listening false st
                        | None => st
                        end) = input st)
    by (destruct (signal st); reflexivity).
  destruct st as [i C sg li b q res]; cbn [signal] in *.
  destruct sg; cbn [set_listening input chunkSize signal listening body queue result]
    in *; subst i; cbn [SuFileInputStream._is host calls console];
    destruct (sem r "close" [] h) as [[v|e] h']; eexists; split; reflexivity.
Qed.

(** One pull on a readable stream: either a chunk is enqueued after one
    [readChunk], or the stream ends (closed or errored) after one
    [readChunk] and one [close]. *)
Lemma pull_cases r (st : state) (w : world H) :
  opened r st ->
  exists st' w',
    pull sem JSON_parse st w = (Ret st', w') /\
    opened r st' /\
    ((readable st' = readable st /\
      calls w' = calls w ++ [mkCall r "readChunk" [VNum (chunkSize st)]]) \/
     (readable st' = false /\
      calls w' = calls w ++ [mkCall r "readChunk" [VNum (chunkSize st)];
                             mkCall r "close" []])).
Proof.
  intros (path & name & Ein).
  destruct st as [i C sg li b q res]; cbn [input] in Ein; subst i.
  destruct w as [h cs l].
  cbv beta iota zeta delta
    [pull try_catch bind SuFileInputStream.readChunk SuFileInputStream._is invoke
     input chunkSize].
  cbn [host calls console].
  destruct (sem r "readChunk" [VNum C] h) as [[v|e] h1].
  - destruct (truthy v); cbn [negb].
    + destruct (JSON_parse v) as [chunk|e].
      * destruct (0 <? List.length chunk)%nat.
        -- eexists; eexists. split; [reflexivity|].
           split; [now exists path, name|]. left. split; reflexivity.
        -- destruct (cleanup_closes r
                       (set_body Closed
                          (mkState (Some (SuFileInputStream.mkStream path name (VRef r)))
                             C sg li b q res))
                       (mkWorld h1 (cs ++ [mkCall r "readChunk" [VNum C]]) l))
             as (w' & Ec & Hc); [now exists path, name|].
           rewrite Ec. eexists; eexists. split; [reflexivity|].
           split; [destruct sg; now exists path, name|]. right.
           split; [now destruct sg|].
           rewrite Hc. cbn [calls]. now rewrite <- app_assoc.
      * cbv beta iota zeta delta [throw].
        destruct (cleanup_closes r
                    (mkState (Some (SuFileInputStream.mkStream path name (VRef r)))
                       C sg li b q res)
                    (mkWorld h1 (cs ++ [mkCall r "readChunk" [VNum C]]) l))
          as (w' & Ec & Hc); [now exists path, name|].
        rewrite Ec. cbv beta iota zeta delta [ret].
        eexists; eexists. split; [reflexivity|].
        split; [destruct sg, res; now exists path, name|]. right.
        split; [now destruct sg, res|].
        rewrite Hc. cbn [calls]. now rewrite <- app_assoc.
    + destruct (cleanup_closes r
                  (set_body Closed
                     (mkState (Some (SuFileInputStream.mkStream path name (VRef r)))
                        C sg li b q res))
                  (mkWorld h1 (cs ++ [mkCall r "readChunk" [VNum C]]) l))
        as (w' & Ec & Hc); [now exists path, name|].
      rewrite Ec. eexists; eexists. split; [reflexivity|].
      split; [destruct sg; now exists path, name|]. right.
      split; [now destruct sg|].
      rewrite Hc. cbn [calls]. now rewrite <- app_assoc.
  - destruct (cleanup_closes r
                (mkState (Some (SuFileInputStream.mkStream path name (VRef r)))
                   C sg li b q res)
                (mkWorld h1 (cs ++ [mkCall r "readChunk" [VNum C]]) l))
      as (w' & Ec & Hc); [now exists path, name|].
    rewrite Ec. cbv beta iota zeta delta [ret].
    eexists; eexists. split; [reflexivity|].
    split; [destruct sg, res; now exists path, name|]. right.
    split; [now destruct sg, res|].
    rewrite Hc. cbn [calls]. now rewrite <- app_assoc.
Qed.

(** X2.  However the consumer pulls and cancels, as long as the signal does
    not abort: the run completes, and the handle has been closed exactly
    once if the stream has ended (closed by the end of the file, errored by
    a failed read, or cancelled), and not yet otherwise. *)
Theorem close_once_without_abort r (evs : list event) : forall (st : state) (w : world H),
  opened r st ->
  noAbort evs = true ->
  exists st' w',
    run sem JSON_parse evs st w = (Ret st', w') /\
    opened r st' /\
    closeCount w'
    = (closeCount w
       + (if readable st then (if readable st' then 0 else 1) else 0))%nat /\
    (readable st = false -> readable st' = false /\ calls w' = calls w).
Proof.
  induction evs as [|ev evs IH]; intros st w Hop Hno.
  - exists st, w. cbn [run]. unfold ret. split; [reflexivity|].
    split; [exact Hop|]. split; [destruct (readable st); lia | now split].
  - cbn [noAbort forallb] in Hno. apply andb_prop in Hno as [Hev Hno].
    assert (Hstep : exists st1 w1,
               step sem JSON_parse ev st w = (Ret st1, w1) /\ opened r st1 /\
               closeCount w1
               = (closeCount w
                  + (if readable st then (if readable st1 then 0 else 1) else 0))%nat /\
               (readable st = false -> readable st1 = false /\ calls w1 = calls w)).
    { destruct (readable st) eqn:Er0.
      - assert (Eb : body st = Some Readable).
        { unfold readable in Er0. now destruct (body st) as [[| |e]|]. }
        destruct ev; [| |discriminate Hev]; unfold step; rewrite Eb.
        + destruct (pull_cases r st w Hop) as (st1 & w1 & Ep & Hop1 & Hcases).
          exists st1, w1. split; [exact Ep|]. split; [exact Hop1|].
          rewrite Er0 in Hcases.
          destruct w as [h cs l], w1 as [h1 cs1 l1]; cbn [calls] in Hcases.
          split; [|discriminate].
          destruct Hcases as [[-> ->] | [-> ->]];
            rewrite (closeCount_app h h1 cs _ l l1);
            unfold closeCount, callCount; cbn; lia.
        + unfold cancel, bind.
          destruct (cleanup_closes r st w Hop) as (w1 & Ec & Hc).
          rewrite Ec. eexists; exists w1. unfold ret. split; [reflexivity|].
          destruct Hop as (path & name & Ein).
          split; [destruct (signal st); now exists path, name|].
          split; [|discriminate].
          destruct w as [h cs l], w1 as [h1 cs1 l1]; cbn [calls] in Hc. subst cs1.
          rewrite (closeCount_app h h1 cs _ l l1).
          destruct (signal st); unfold closeCount, callCount; cbn; lia.
      - assert (Es : step sem JSON_parse ev st w = (Ret st, w)).
        { unfold readable in Er0.
          destruct ev; [| |discriminate Hev]; unfold step;
            now destruct (body st) as [[| |e]|]. }
        exists st, w. split; [exact Es|]. split; [exact Hop|].
        split; [lia|]. intros _. split; [exact Er0 | reflexivity]. }
    destruct Hstep as (st1 & w1 & Es & Hop1 & Hcount1 & Hquiet1).
    destruct (IH st1 w1 Hop1 Hno) as (st' & w' & Er & Hop' & Hcount' & Hquiet').
    exists st', w'. cbn [run]. unfold bind. rewrite Es.
    split; [exact Er|]. split; [exact Hop'|].
    destruct (readable st) eqn:Er0.
    + split; [|discriminate].
      rewrite Hcount', Hcount1.
      destruct (readable st1) eqn:Er1.
      * destruct (readable st'); lia.
      * destruct (Hquiet' eq_refl) as [-> _]. lia.
    + destruct (Hquiet1 eq_refl) as [Er1 Hc1].
      rewrite Er1 in Hcount'.
      split; [rewrite Hcount', Hcount1; lia|].
      intros _. destruct (Hquiet' Er1) as [Er' Hc']. split; [exact Er'|].
      now rewrite Hc'.
Qed.

End AnyHost.

Lemma close_once_without_abort_witness :
  exists st' w',
    run (fileHost CompactJSON.print true) CompactJSON.parse [Pull; Cancel; Pull]
      (reading (handle "/sdcard/a.bin") 1 [])
      (fresh (mkFileStream [1; 2; 3]%Z false))
    = (Ret st', w') /\
    opened handleRef st' /\
    closeCount w'
    = (closeCount (fresh (mkFileStream [1; 2; 3]%Z false))
       + (if readable (reading (handle "/sdcard/a.bin") 1 [])
          then (if readable st' then 0 else 1) else 0))%nat /\
    (readable (reading (handle "/sdcard/a.bin") 1 []) = false ->
     readable st' = false /\
     calls w' = calls (fresh (mkFileStream [1; 2; 3]%Z false))).
Proof.
  apply (close_once_without_abort (fileHost CompactJSON.print true) CompactJSON.parse
           handleRef [Pull; Cancel; Pull]
           (reading (handle "/sdcard/a.bin") 1 [])
           (fresh (mkFileStream [1; 2; 3]%Z false))).
  - exists "/sdcard/a.bin", (Some "$suFileInputStream"). reflexivity.
  - reflexivity.
Defined.

Example pull_cancel_pull :
  run (fileHost CompactJSON.print true) CompactJSON.parse [Pull; Cancel; Pull]
    (reading (handle "/sdcard/a.bin") 1 [])
    (fresh (mkFileStream [1; 2; 3]%Z false))
  = (Ret (mkState (Some (handle "/sdcard/a.bin")) 1 None false (Some Closed)
            [[1]]%Z Resolved),
     mkWorld (mkFileStream [2; 3]%Z true)
       [mkCall 1 "readChunk" [VNum 1]; mkCall 1 "close" []] []).
Proof. vm_compute. reflexivity. Qed.

(** A fetch whose signal is already aborted closes the handle once and
    rejects; no stream is constructed. *)
Example fetch_with_aborted_signal :
  fetch (fileHost CompactJSON.print true) streamWindow (file "/sdcard/a.bin")
    (mkOptions None (Some true)) (fresh (mkFileStream [1; 2; 3]%Z false))
  = (Ret (mkState (Some (handle "/sdcard/a.bin")) defaultChunkSize (Some true) false
            None []
            (Rejected (DOMException "The operation was aborted." "AbortError"))),
     mkWorld (mkFileStream [1; 2; 3]%Z true)
       [mkCall 0 "open" [VStr "/sdcard/a.bin"]; mkCall 1 "close" []] []).
Proof. reflexivity. Qed.

End Cancellation.

(* ================================================================= *)
(** ** The config store *)

Module ConfigFacts.
Import Hosts Lodash Documents.

Lemma lookup_replace_same props key v x :
  lookup props key = Some x -> lookup (replace props key v) key = Some v.
Proof.
  induction props as [|[k y] props IH]; [discriminate|].
  cbn [lookup replace]. destruct (k =? key) eqn:E; cbn [lookup]; rewrite E.
  - reflexivity.
  - exact IH.
Qed.

Lemma lookup_insert_same props key v :
  lookup props key = None -> lookup (insert props key v) key = Some v.
Proof.
  induction props as [|[k y] props IH]; cbn [lookup insert].
  - now rewrite String.eqb_refl.
  - destruct (k =? key) eqn:E; [discriminate|]. intros Hnone.
    destruct (listedBefore key k); cbn [lookup].
    + now rewrite String.eqb_refl.
    + rewrite E. now apply IH.
Qed.

Lemma lookup_assign_same props key v : lookup (assign props key v) key = Some v.
Proof.
  unfold assign. destruct (lookup props key) as [x|] eqn:E.
  - exact (lookup_replace_same props key v x E).
  - exact (lookup_insert_same props key v E).
Qed.

Lemma lookup_replace_other props key key' v :
  key' <> key -> lookup (replace props key v) key' = lookup props key'.
Proof.
  intros N. induction props as [|[k x] props IH]; [reflexivity|].
  cbn [replace]. destruct (k =? key) eqn:E; cbn [lookup].
  - apply String.eqb_eq in E. subst k.
    apply String.eqb_neq in N. rewrite String.eqb_sym in N. now rewrite N.
  - destruct (k =? key'); [reflexivity | exact IH].
Qed.

Lemma lookup_insert_other props key key' v :
  key' <> key -> lookup (insert props key v) key' = lookup props key'.
Proof.
  intros N. apply String.eqb_neq in N. rewrite String.eqb_sym in N.
  induction props as [|[k x] props IH]; cbn [insert lookup].
  - now rewrite N.
  - destruct (listedBefore key k); cbn [lookup].
    + now rewrite N.
    + destruct (k =? key'); [reflexivity | exact IH].
Qed.

Lemma lookup_assign_other props key key' v :
  key' <> key -> lookup (assign props key v) key' = lookup props key'.
Proof.
  intros N. unfold assign. destruct (lookup props key).
  - now apply lookup_replace_other.
  - now apply lookup_insert_other.
Qed.

Lemma getProp_assign isArr props key v :
  getProp (VObj isArr (assign props key v)) key = v.
Proof. cbn [getProp]. now rewrite lookup_assign_same. Qed.

Lemma hasProp_assign isArr props key key' v :
  hasProp (VObj isArr (assign props key v)) key'
  = (key' =? key) || hasProp (VObj isArr props) key'.
Proof.
  cbn [hasProp]. destruct (key' =? key) eqn:E.
  - apply String.eqb_eq in E. subst. now rewrite lookup_assign_same.
  - apply String.eqb_neq in E. now rewrite (lookup_assign_other _ _ _ _ E).
Qed.

Lemma baseSetFrom_ref r path v : baseSetFrom (VRef r) path v = VRef r.
Proof. destruct path as [|key rest]; cbn [baseSetFrom]; [|destruct (unsafeKey key)]; reflexivity. Qed.

Lemma baseSetFrom_isObject path : forall nested v,
  isObject nested = true -> isObject (baseSetFrom nested path v) = true.
Proof.
  destruct path as [|key rest]; intros nested v Hobj; cbn [baseSetFrom]; [exact Hobj|].
  destruct (unsafeKey key); [exact Hobj|].
  destruct nested; try discriminate; reflexivity.
Qed.




Section SetThenGet.

Variable looksDeep : string -> bool.
Variable stringToPath : string -> list string.

(** When the first segment of a deep key is not the key itself, the key
    is read as the same path in the updated document as in the original
    one: a key that names an own property still does, and a deep key
    still does not. *)
Lemma castPath_stable (object : value) (key : string) (v : value) :
  (looksDeep key = true -> hd_error (stringToPath key) <> Some key) ->
  castPath looksDeep stringToPath key (set looksDeep stringToPath object key v)
  = castPath looksDeep stringToPath key object.
Proof.
  intros Hscan.
  destruct object as [| | | | |isArr props|r]; try reflexivity.
  2:{ unfold set, baseSet. cbn [isObject negb]. now rewrite baseSetFrom_ref. }
  unfold set, baseSet. cbn [isObject negb].
  unfold castPath at 1 3. unfold isKey.
  destruct (looksDeep key) eqn:Edeep; [|reflexivity].
  cbn [negb orb].
  destruct (hasProp (VObj isArr props) key) eqn:Ehas.
  - unfold castPath, isKey. rewrite Edeep, Ehas. cbn [negb orb baseSetFrom].
    destruct (unsafeKey key); [now rewrite Ehas|].
    rewrite hasProp_assign, String.eqb_refl. reflexivity.
  - unfold castPath, isKey. rewrite Edeep, Ehas. cbn [negb orb].
    destruct (stringToPath key) as [|seg rest] eqn:Epath; cbn [baseSetFrom].
    + now rewrite Ehas.
    + destruct (unsafeKey seg); [now rewrite Ehas|].
      rewrite hasProp_assign, Ehas, orb_false_r.
      destruct (key =? seg) eqn:E; [|reflexivity].
      apply String.eqb_eq in E. subst seg.
      now elim (Hscan eq_refl).
Qed.


(** A key that does not look deep is its own one-segment path, before and
    after the update. *)
Lemma castPath_plain (object : value) (key : string) :
  looksDeep key = false ->
  castPath looksDeep stringToPath key object = [key].
Proof. intros E. unfold castPath, isKey. now rewrite E. Qed.

End SetThenGet.

(** A constructed [Config] lives in MMRL: elsewhere [read] returns [null]
    and the constructor throws.  Its file is [config.json] in the folder
    of the scope, and its document is what [JSON.parse] made of the file. *)
Lemma new_in_MMRL {H} (sem : semantics H) toUpperCase Path_resolve JSON_parse
    (e : env) (win : window value) (scope : string) (this : Config.config_t)
    (w w' : world H) :
  Config.new sem toUpperCase Path_resolve JSON_parse e win scope w = (Ret this, w') ->
  isMMRL (Config._fs this) = true /\
  Config._filePath this
  = Path_resolve ("/data/adb/.config/" ++ scope)%string "config.json".
Proof.
  unfold Config.new, Config._loadConfig.
  set (fs := FileSystem.new toUpperCase e win (inl scope)).
  unfold bind at 1.
  destruct (FileSystem.exists_ sem fs _ w) as [[present|e0] w0]; [|discriminate].
  unfold bind at 1.
  match goal with
  | |- context [match ?m w0 with _ => _ end] => destruct (m w0) as [[u|e1] w1]
  end; [|discriminate].
  unfold bind at 1. unfold bind at 1.
  unfold FileSystem.read at 1.
  destruct (isMMRL fs) eqn:Emmrl; cbn [negb].
  - destruct (invoke sem (interface fs) "read" _ w1) as [[content|e2] w2];
      [|discriminate].
    destruct (truthy content); cbn [negb]; [|discriminate].
    destruct (JSON_parse content); [|discriminate].
    intros [= <- _]. split; [exact Emmrl | reflexivity].
  - discriminate.
Qed.



Example netSwitch_saved :
  Documents.stringify (VObj false [("ui", VObj false [("theme", VStr "light")])])
  = ("{" ++ Documents.newline
     ++ "  " ++ Documents.quote "ui" ++ ": {" ++ Documents.newline
     ++ "    " ++ Documents.quote "theme" ++ ": " ++ Documents.quote "light"
     ++ Documents.newline
     ++ "  }" ++ Documents.newline ++ "}")%string.
Proof. reflexivity. Qed.


(** Two more inputs on which [set] then [get] gives the default: a stored
    document that is [null], and the key [prototype], which [baseSet]
    refuses to write. *)
Example set_on_null_document :
  Lodash.get Documents.hasDot Documents.splitDots
    (Lodash.set Documents.hasDot Documents.splitDots VNull "a" (VNum 1))
    "a" (VStr "fallback")
  = VStr "fallback".
Proof. reflexivity. Qed.

Example set_refused_key :
  Lodash.get Documents.hasDot Documents.splitDots
    (Lodash.set Documents.hasDot Documents.splitDots (VObj false [])
       "prototype" (VNum 1))
    "prototype" (VStr "fallback")
  = VStr "fallback".
Proof. reflexivity. Qed.

(** Paths that are not ordinary: the [length] of an array, which the
    engine resizes the array for or refuses, a missing segment that an
    object inherits, and a host object on the way. *)
Example length_of_an_array_is_not_ordinary :
  ordinary (VObj false [("list", VObj true [("0", VNum 1); ("1", VNum 2)])])
    (castPath Documents.hasDot Documents.splitDots "list.length"
       (VObj false [("list", VObj true [("0", VNum 1); ("1", VNum 2)])]))
  = false /\
  ordinary (VObj false []) ["toString"; "x"] = false /\
  ordinary (VObj false [("host", VRef 3)]) ["host"; "x"] = false.
Proof. repeat split. Qed.

(** An array index is listed before the other keys, in ascending order,
    and an element written past the end of an array leaves holes. *)
Example set_of_an_array_index :
  Lodash.set Documents.hasDot Documents.splitDots
    (VObj false [("10", VNum 1); ("b", VNum 2)]) "9" (VStr "v")
  = VObj false [("9", VStr "v"); ("10", VNum 1); ("b", VNum 2)] /\
  Lodash.set Documents.hasDot Documents.splitDots
    (VObj false [("list", VObj true [("0", VNum 1); ("1", VNum 2)])])
    "list.5" (VStr "v")
  = VObj false [("list", VObj true [("0", VNum 1); ("1", VNum 2); ("5", VStr "v")])].
Proof. split; reflexivity. Qed.

End ConfigFacts.

(* ================================================================= *)
(** ** Scopes: what sanitizing a second time does *)

Module ScopeLaws.
Import AccessorScope.

Lemma sanitizeScope_fixed scope :
  sanitizeScope (sanitizeScope scope) = sanitizeScope scope.
Proof.
  induction scope as [|c rest IH]; [reflexivity|].
  rewrite (AccessorScopeFacts.sanitizeScope_cons c rest).
  rewrite AccessorScopeFacts.sanitizeScope_cons, IH. f_equal.
  unfold sanitizeChar at 1. now rewrite AccessorScopeFacts.sanitizeChar_clean.
Qed.

(** X5.  Sanitizing is idempotent, so the three lookups agree on a scope
    that has been sanitized already: [sanitizedModIdWithFile] gives the
    same file-interface name for a scope and for its sanitized form, and
    [parseScope] of a sanitized scope is the one global of that name. *)
Theorem sanitizeScope_idempotent (scope : string) :
  sanitizeScope (sanitizeScope scope) = sanitizeScope scope /\
  (forall toUpperCase,
     sanitizedModIdWithFile toUpperCase (sanitizeScope scope)
     = sanitizedModIdWithFile toUpperCase scope) /\
  (forall (O : Type) (isUndefined : O -> bool) (w : window O),
     parseScope isUndefined w (inl (sanitizeScope scope))
     = window_get w ("$" ++ sanitizeScope scope)).
Proof.
  split; [apply sanitizeScope_fixed|]. split.
  - intros up. unfold sanitizedModIdWithFile. now rewrite sanitizeScope_fixed.
  - intros O isUndefined w. unfold parseScope. rewrite sanitizeScope_fixed.
    destruct (window_get w ("$" ++ sanitizeScope scope)) as [o|]; [|reflexivity].
    now destruct (isUndefined o).
Qed.

(** X6.  [new MMRLInterface(scope)] binds the global of the sanitized name
    when that global exists and does not hold [undefined]; when it is
    missing or holds [undefined], it binds the global of the name as given
    ([undefined] when that is missing too), which is the only one the option
    [noScopeParse] looks at.  So the option makes no difference for a scope
    without dash and dot, nor when the global of the sanitized name is
    missing or holds [undefined]. *)
Theorem MMRLInterface_new_lookup (e : env) (w : window value) (scope : string) :
  (forall o, window_get w ("$" ++ sanitizeScope scope) = Some o ->
             o <> VUndefined ->
             interface (MMRLInterface.new e w (inl scope) false) = o) /\
  (window_get w ("$" ++ sanitizeScope scope) = None \/
   window_get w ("$" ++ sanitizeScope scope) = Some VUndefined ->
   interface (MMRLInterface.new e w (inl scope) false)
   = match window_get w ("$" ++ scope) with
     | Some o => o
     | None => VUndefined
     end) /\
  (sanitizeScope scope = scope \/
   window_get w ("$" ++ sanitizeScope scope) = None \/
   window_get w ("$" ++ sanitizeScope scope) = Some VUndefined ->
   MMRLInterface.new e w (inl scope) false = MMRLInterface.new e w (inl scope) true) /\
  interface (MMRLInterface.new e w (inl scope) true)
  = match window_get w ("$" ++ scope) with
    | Some o => o
    | None => VUndefined
    end.
Proof.
  unfold MMRLInterface.new, parseScope. cbn [interface].
  split; [|split; [|split; [|reflexivity]]].
  - intros o E Ho. rewrite E. now destruct o.
  - now intros [E | E]; rewrite E.
  - intros [E | [E | E]]; rewrite E; try reflexivity.
    destruct (window_get w ("$" ++ scope)) as [o|]; [|reflexivity].
    now destruct o.
Qed.

Lemma MMRLInterface_new_lookup_witness :
  interface (MMRLInterface.new Hosts.browser
               [("$net-switch", VRef 1); ("$net_switch", VRef 0)]
               (inl "net-switch") false)
  = VRef 0 /\
  interface (MMRLInterface.new Hosts.browser
               [("$net_switch", VUndefined); ("$net-switch", VRef 1)]
               (inl "net-switch") false)
  = VRef 1 /\
  MMRLInterface.new Hosts.browser [("$net-switch", VRef 1)] (inl "net-switch") false
  = MMRLInterface.new Hosts.browser [("$net-switch", VRef 1)] (inl "net-switch") true.
Proof.
  split; [|split].
  - apply (proj1 (MMRLInterface_new_lookup Hosts.browser
                    [("$net-switch", VRef 1); ("$net_switch", VRef 0)] "net-switch"));
      [reflexivity | discriminate].
  - apply (proj1 (proj2 (MMRLInterface_new_lookup Hosts.browser
                    [("$net_switch", VUndefined); ("$net-switch", VRef 1)]
                    "net-switch"))).
    right. reflexivity.
  - apply (proj1 (proj2 (proj2 (MMRLInterface_new_lookup Hosts.browser
                    [("$net-switch", VRef 1)] "net-switch")))).
    right. left. reflexivity.
Defined.

End ScopeLaws.

(* ================================================================= *)
(** ** The interface lookup of SuFile and SuFileInputStream *)

Module InterfaceLookup.
Import Pattern Programs Surface Hosts.

Lemma splitLines_single s : noLineTerminator s = true -> splitLines s = [s].
Proof.
  induction s as [|c rest IH]; [reflexivity|].
  cbn [noLineTerminator splitLines]. intros E.
  apply andb_prop in E as [Ec Er]. apply negb_true_iff in Ec.
  rewrite Ec, (IH Er). reflexivity.
Qed.

Lemma lineMatches_iff l :
  lineMatches l = true
  <-> exists a b, isWord a = true /\ isWord b = true /\ l = interfaceName a b.
Proof.
  split.
  - destruct l as [|d [|a [|b rest]]]; try discriminate.
    unfold lineMatches. intros E.
    apply andb_prop in E as [E Hrest]. apply andb_prop in E as [E Hb].
    apply andb_prop in E as [Hd Ha].
    apply Ascii.eqb_eq in Hd. apply String.eqb_eq in Hrest. subst.
    now exists a, b.
  - intros (a & b & Ha & Hb & ->). unfold interfaceName, lineMatches.
    rewrite Ha, Hb. reflexivity.
Qed.

(** X7.  The keys the pattern [/^\$(\w{2})FileInputStream$/m] accepts: those
    with a line that is [$], two word characters and [FileInputStream]; for
    a key without line break, the key itself has to be of that form.  So
    [$suFile], the name of a file interface, is not accepted, nor is a
    longer prefix such as [$mmrlFileInputStream]. *)
Theorem pattern_characterised (key : string) :
  (matchesFileInputStream key = true
   <-> exists a b, isWord a = true /\ isWord b = true
                   /\ In (interfaceName a b) (splitLines key)) /\
  (noLineTerminator key = true ->
   (matchesFileInputStream key = true
    <-> exists a b, isWord a = true /\ isWord b = true /\ key = interfaceName a b)).
Proof.
  split.
  - unfold matchesFileInputStream. rewrite existsb_exists. split.
    + intros (l & Hin & Hl). apply lineMatches_iff in Hl as (a & b & Ha & Hb & ->).
      now exists a, b.
    + intros (a & b & Ha & Hb & Hin). exists (interfaceName a b).
      split; [exact Hin|]. apply lineMatches_iff. now exists a, b.
  - intros Hk. unfold matchesFileInputStream.
    rewrite (splitLines_single _ Hk). cbn [existsb]. rewrite orb_false_r.
    apply lineMatches_iff.
Qed.

Lemma pattern_characterised_witness :
  matchesFileInputStream "$suFileInputStream" = true
  <-> exists a b, isWord a = true /\ isWord b = true
                  /\ "$suFileInputStream" = interfaceName a b.
Proof.
  apply (proj2 (pattern_characterised "$suFileInputStream")). reflexivity.
Defined.

Lemma findInterface_first {O} (w : window O) pre key post :
  map fst w = pre ++ key :: post ->
  matchesFileInputStream key = true ->
  (forall k, In k pre -> matchesFileInputStream k = false) ->
  findInterface w = Some key.
Proof.
  unfold findInterface. intros -> Hk Hpre.
  induction pre as [|k0 pre IH]; simpl.
  - now rewrite Hk.
  - rewrite (Hpre k0 (or_introl eq_refl)). apply IH.
    intros k Hin. apply Hpre. now right.
Qed.

(** X8.  Both constructors bind to the first global, in the order of
    [Object.keys], whose name the pattern accepts.  [new SuFile(path)] keeps
    the object under that name as its file interface.  [new
    SuFileInputStream(path)] calls [open(path)] on it, once: a truthy result
    becomes the handle of the stream, and what [open] throws is what the
    constructor throws. *)
Theorem constructors_bind_first_match {H} (sem : semantics H) (w : window value)
    (path : string) (pre : list string) (key : string) (post : list string)
    (world0 : world H) :
  map fst w = pre ++ key :: post ->
  matchesFileInputStream key = true ->
  (forall k, In k pre -> matchesFileInputStream k = false) ->
  SuFile.new w path
  = Ret (SuFile.mkSuFile path (Some key) (SuFile.globalOf w (Some key))) /\
  (forall handle world1,
     invoke sem (SuFile.globalOf w (Some key)) "open" [VStr path] world0
     = (Ret handle, world1) ->
     truthy handle = true ->
     SuFileInputStream.new sem w path world0
     = (Ret (SuFileInputStream.mkStream path (Some key) handle), world1)) /\
  (forall e world1,
     invoke sem (SuFile.globalOf w (Some key)) "open" [VStr path] world0
     = (Throw e, world1) ->
     SuFileInputStream.new sem w path world0 = (Throw e, world1)).
Proof.
  intros Hkeys Hk Hpre.
  pose proof (findInterface_first w pre key post Hkeys Hk Hpre) as Hfound.
  pose proof (ConstructionFacts.found_is_not_missing _ _ Hfound) as Hnm.
  split; [|split].
  - unfold SuFile.new. now rewrite Hfound, Hnm.
  - intros handle world1 Hopen Ht. unfold SuFileInputStream.new.
    rewrite Hfound, Hnm. unfold bind. rewrite Hopen, Ht. reflexivity.
  - intros e world1 Hopen. unfold SuFileInputStream.new.
    rewrite Hfound, Hnm. unfold bind. now rewrite Hopen.
Qed.

Lemma constructors_bind_first_match_witness :
  SuFile.new
    [("document", VUndefined); ("$suFile", VRef 7);
     ("$k_FileInputStream", VRef 3); ("$suFileInputStream", VRef 0)]
    "/sdcard/a.bin"
  = Ret (SuFile.mkSuFile "/sdcard/a.bin" (Some "$k_FileInputStream") (VRef 3)).
Proof.
  apply (constructors_bind_first_match (answering (VRef 1))
           [("document", VUndefined); ("$suFile", VRef 7);
            ("$k_FileInputStream", VRef 3); ("$suFileInputStream", VRef 0)]
           "/sdcard/a.bin" ["document"; "$suFile"] "$k_FileInputStream"
           ["$suFileInputStream"] (fresh tt)).
  - reflexivity.
  - reflexivity.
  - intros k [<- | [<- | []]]; reflexivity.
Defined.

(** X9.  A SuFile method never throws, whatever the host does and whatever
    the file interface is.  It makes at most one host call, the one it
    wraps, with the file's path as first argument; either the console is
    left as it was, or the method returned its fallback and one error line
    was logged under the method's message. *)
Theorem su_methods_never_throw {H} (sem : semantics H) (this : SuFile.sufile)
    (m : su_method) (w : world H) :
  exists v w',
    su_run sem this m w = (Ret v, w') /\
    hd_error (snd (su_forward this m)) = Some (VStr (SuFile.path this)) /\
    (calls w' = calls w \/
     exists r, SuFile._fileInterface this = VRef r /\
               calls w' = calls w ++ [mkCall r (fst (su_forward this m))
                                        (snd (su_forward this m))]) /\
    (console w' = console w \/
     (v = su_fallback m /\
      exists e, console w' = console w ++ [mkLog LError (su_errorMsg this m ++ ":")
                                             (Some e)])).
Proof.
  rewrite AccessorFacts.su_run_unfold.
  assert (Hhd : hd_error (snd (su_forward this m)) = Some (VStr (SuFile.path this)))
    by (destruct m; reflexivity).
  destruct w as [h cs l].
  unfold SuFile._try, try_catch, invoke, bind, console_error, log, ret.
  cbn [host calls console].
  destruct (SuFile._fileInterface this) as [| | | | | |r] eqn:Eif;
    try (eexists; eexists; split; [reflexivity|]; split; [exact Hhd|];
         cbn [calls console]; split; [now left|];
         right; split; [reflexivity|]; eexists; reflexivity).
  destruct (sem r (fst (su_forward this m)) (snd (su_forward this m)) h)
    as [[v|e] h'].
  - exists v. eexists. split; [reflexivity|]. split; [exact Hhd|].
    cbn [calls console]. split; [right; exists r; now split | now left].
  - eexists; eexists. split; [reflexivity|]. split; [exact Hhd|].
    cbn [calls console]. split; [right; exists r; now split|].
    right. split; [reflexivity|]. now exists e.
Qed.

End InterfaceLookup.

(* ================================================================= *)
(** ** Commands, missing interfaces, and the version metadata *)

Module CommandFacts.
Import Programs Surface Hosts.

(** X10.  The commands of MMRLInterface (the two setters, [shareText], the
    two requests).  Outside MMRL a command returns without a host call.  In
    MMRL, and at version 33045 or later for the two requests, a command is
    one host call whose result is dropped: the command returns [undefined]
    when the host returns, and throws what the host throws.  [shareText]
    passes the MIME type only when one was given. *)
Theorem mi_commands {H} (sem : semantics H) (this : accessor) (c : mi_command)
    (w : world H) :
  (isMMRL this = false -> mi_exec sem this c w = (Ret VUndefined, w)) /\
  (isMMRL this = true ->
   (mi_gated c = true ->
    (MMRLInterface.requireVersionNewAPIs <= hostVersionCode (context this))%Z) ->
   mi_exec sem this c w
   = (invoke sem (interface this) (fst (mi_forward c)) (snd (mi_forward c)) ;;;
      ret VUndefined) w).
Proof.
  split.
  - intros Hno. destruct c; simpl;
      unfold MMRLInterface.set_lightNavigationBars, MMRLInterface.set_lightStatusBars,
        MMRLInterface.shareText, MMRLInterface.requestAdvancedKernelSUAPI,
        MMRLInterface.requestFileSystemAPI;
      now rewrite Hno.
  - intros Hyes Hver. destruct c as [light|light|text [type|]| |]; simpl in *;
      unfold MMRLInterface.set_lightNavigationBars, MMRLInterface.set_lightStatusBars,
        MMRLInterface.shareText, MMRLInterface.requestAdvancedKernelSUAPI,
        MMRLInterface.requestFileSystemAPI;
      rewrite Hyes; simpl;
      try (rewrite (AccessorFacts.hasRequiredVersion_at_or_above _ _ (Hver eq_refl));
           simpl);
      reflexivity.
Qed.

Lemma mi_commands_witness :
  mi_exec (answering (VBool true)) (mkAccessor browser (VRef 0))
    (MiShareText "Hello, world!" None) (fresh tt)
  = (Ret VUndefined, fresh tt) /\
  mi_exec (answering (VBool true)) (mkAccessor (mmrlAt 33045) (VRef 0))
    (MiShareText "Hello, world!" None) (fresh tt)
  = (Ret VUndefined, mkWorld tt [mkCall 0 "shareText" [VStr "Hello, world!"]] []).
Proof.
  split.
  - apply (proj1 (mi_commands (answering (VBool true)) (mkAccessor browser (VRef 0))
                    (MiShareText "Hello, world!" None) (fresh tt))).
    reflexivity.
  - refine (eq_trans
              (proj2 (mi_commands (answering (VBool true))
                        (mkAccessor (mmrlAt 33045) (VRef 0))
                        (MiShareText "Hello, world!" None) (fresh tt))
                 eq_refl _) _).
    + discriminate.
    + reflexivity.
Defined.

(** X11.  In MMRL, a FileSystem made for a scope whose file interface is not
    among the globals has [undefined] as its interface.  Every method then
    throws a [TypeError] without a host call and without a console line;
    except that below version 33162 a gated method stops before it touches
    the interface: it warns and returns [false]. *)
Theorem FileSystem_without_interface {H} (sem : semantics H)
    (toUpperCase : string -> string) (e : env) (win : window value)
    (scope : string) (m : fs_method) (w : world H) :
  mmrlUserAgent e = userAgent e ->
  window_get win ("$" ++ AccessorScope.sanitizedModIdWithFile toUpperCase scope) = None ->
  let fs := FileSystem.new toUpperCase e win (inl scope) in
  interface fs = VUndefined /\
  (fs_gated m = true ->
   (hostVersionCode e < FileSystem.advancedFsOperations)%Z ->
   fs_run sem fs m w
   = (Ret (VBool false),
      mkWorld (host w) (calls w)
        (console w ++ [mkLog LWarn ("'" ++ fs_warnName m
                                    ++ "' is not supported on this version") None]))) /\
  ((fs_gated m = true ->
    (FileSystem.advancedFsOperations <= hostVersionCode e)%Z) ->
   exists msg, fs_run sem fs m w = (Throw (TypeError msg), w)).
Proof.
  intros Hua Hwin fs.
  assert (Hif : interface fs = VUndefined).
  { unfold fs, FileSystem.new, AccessorScope.parseFileScope. now rewrite Hwin. }
  assert (Hyes : isMMRL fs = true).
  { unfold isMMRL, fs, FileSystem.new. cbn [context]. rewrite Hua.
    apply String.eqb_refl. }
  split; [exact Hif|]. split.
  - intros Hg Hlt.
    assert (Hv : hasRequiredVersion fs FileSystem.advancedFsOperations = false)
      by (apply AccessorFacts.hasRequiredVersion_below; exact Hlt).
    destruct m; simpl in *; try discriminate;
      AccessorFacts.unfold_fs; rewrite Hyes, Hv; reflexivity.
  - intros Hver.
    rewrite (AccessorFacts.fs_run_forwards sem fs m w Hyes Hver).
    rewrite Hif. eexists. reflexivity.
Qed.

Lemma FileSystem_without_interface_witness :
  exists msg,
    fs_run (answering (VStr "content"))
      (FileSystem.new ascii_toUpperCase (mmrlAt 40000) [("mmrl", VRef 0)]
         (inl "net-switch"))
      (FsRead "/data/adb/modules/net-switch/module.prop" false) (fresh tt)
    = (Throw (TypeError msg), fresh tt).
Proof.
  apply (FileSystem_without_interface (answering (VStr "content")) ascii_toUpperCase
           (mmrlAt 40000) [("mmrl", VRef 0)] "net-switch"
           (FsRead "/data/adb/modules/net-switch/module.prop" false) (fresh tt)
           eq_refl eq_refl).
  discriminate.
Defined.

(** X30.  The version gate of FileSystem.  In MMRL, each of the ten gated
    methods asks [hasRequiredVersion(33162)] before it touches the
    interface.  Below that version it returns [false] after the warning of
    [_unsupportedWarning], which names the method ([isDirectory] under the
    name [isDirectroy]), and the interface is not called; at or above it
    the method is its one call of the interface: same trace, same host
    state, and the host's completion as its own. *)
Theorem FileSystem_gate {H} (sem : semantics H) (this : accessor) (m : fs_method)
    (w : world H) :
  fs_gated m = true ->
  isMMRL this = true ->
  ((hostVersionCode (context this) < FileSystem.advancedFsOperations)%Z ->
   fs_run sem this m w
   = (Ret (VBool false),
      mkWorld (host w) (calls w)
        (console w ++ [mkLog LWarn ("'" ++ fs_warnName m
                                    ++ "' is not supported on this version") None]))) /\
  ((FileSystem.advancedFsOperations <= hostVersionCode (context this))%Z ->
   fs_run sem this m w
   = (v <- invoke sem (interface this) (fst (fs_forward m)) (snd (fs_forward m)) ;;
      ret (fs_result m v)) w) /\
  (fs_warnName m = fst (fs_forward m) \/
   exists p, m = FsIsDirectory p /\ fs_warnName m = "isDirectroy").
Proof.
  intros Hg Hyes. split; [|split].
  - intros Hlt.
    pose proof (AccessorFacts.hasRequiredVersion_below this _ Hlt) as Hv.
    destruct m; simpl in *; try discriminate;
      AccessorFacts.unfold_fs; rewrite Hyes, Hv; reflexivity.
  - intros Hle. apply AccessorFacts.fs_run_forwards; [exact Hyes | intros _; exact Hle].
  - destruct m; try (left; reflexivity). right. now eexists.
Qed.

Lemma FileSystem_gate_witness :
  (fs_run (answering (VBool true)) (mkAccessor (mmrlAt 33161) (VRef 0))
     (FsIsDirectory "/data") (fresh tt)
   = (Ret (VBool false),
      mkWorld tt []
        [mkLog LWarn "'isDirectroy' is not supported on this version" None])) /\
  (fs_run (answering (VBool true)) (mkAccessor (mmrlAt 33162) (VRef 0))
     (FsIsDirectory "/data") (fresh tt)
   = (Ret (VBool true), mkWorld tt [mkCall 0 "isDirectory" [VStr "/data"]] [])).
Proof.
  split.
  - apply (proj1 (FileSystem_gate (answering (VBool true))
                    (mkAccessor (mmrlAt 33161) (VRef 0))
                    (FsIsDirectory "/data") (fresh tt) eq_refl eq_refl)).
    vm_compute. reflexivity.
  - refine (eq_trans
              (proj1 (proj2 (FileSystem_gate (answering (VBool true))
                               (mkAccessor (mmrlAt 33162) (VRef 0))
                               (FsIsDirectory "/data") (fresh tt) eq_refl eq_refl))
                 _) _).
    + vm_compute. discriminate.
    + reflexivity.
Defined.

(** X12.  The properties of VersionInterface.  Outside MMRL, or when the
    [mmrl] object is missing, a property is its default and no host call is
    made; the default is [false] for the two flags and the number [-1] for
    every other property, also for those typed as strings.  In MMRL with the
    object present, a property is two host calls, the second on what the
    first returned: [getBuildConfig()] or [getRootConfig()], then the
    getter of the property. *)
Theorem VersionInterface_properties {H} (sem : semantics H) (this : accessor)
    (p : vi_property) (w : world H) :
  (isMMRL this = false \/ truthy (interface this) = false ->
   vi_run sem this p w = (Ret (vi_default p), w)) /\
  typeof (vi_default p) <> "string" /\
  (isMMRL this = true ->
   truthy (interface this) = true ->
   vi_run sem this p w
   = (config <- invoke sem (interface this) (vi_config p) [] ;;
      invoke sem config (vi_getter p) []) w).
Proof.
  split; [|split].
  - intros Hno.
    assert (Hg : negb (isMMRL this) || negb (truthy (interface this)) = true).
    { destruct Hno as [-> | ->]; [reflexivity | apply orb_true_r]. }
    destruct p; simpl; AccessorFacts.unfold_vi; now rewrite Hg.
  - destruct p; discriminate.
  - intros Hyes Hif.
    destruct p; simpl; AccessorFacts.unfold_vi; now rewrite Hyes, Hif.
Qed.

Lemma VersionInterface_properties_witness :
  vi_run (mmrlHost 33049) (VersionInterface.new (mmrlAt 33049) [])
    ViVersionName (fresh tt)
  = (Ret (VNum (-1)), fresh tt) /\
  vi_run (mmrlHost 33049) (VersionInterface.new (mmrlAt 33049) mmrlWindow)
    ViVersionCode (fresh tt)
  = (Ret (VNum 33049),
     mkWorld tt [mkCall 0 "getBuildConfig" []; mkCall 1 "getVersionCode" []] []).
Proof.
  split.
  - apply (proj1 (VersionInterface_properties (mmrlHost 33049)
                    (VersionInterface.new (mmrlAt 33049) []) ViVersionName (fresh tt))).
    right. reflexivity.
  - refine (eq_trans
              (proj2 (proj2 (VersionInterface_properties (mmrlHost 33049)
                               (VersionInterface.new (mmrlAt 33049) mmrlWindow)
                               ViVersionCode (fresh tt)))
                 eq_refl eq_refl) _).
    reflexivity.
Defined.

End CommandFacts.

(* ================================================================= *)
(** ** Toast: what a sequence of calls does to the toast and to the host *)

Module ToastFacts.
Import Programs Surface Hosts.

(** The two ways a call leaves the trace: untouched, or one call longer. *)
Ltac toast_quiet :=
  split; [reflexivity|];
  split; [exists []; rewrite app_nil_r;
          split; [reflexivity|]; split; [reflexivity|]; intros ? []|];
  intros ? E;
  first [ discriminate E
        | injection E as <-; cbn;
          split; [reflexivity|]; split; [reflexivity|]; auto ].

Ltac toast_called :=
  split; [reflexivity|];
  split; [eexists; split; [reflexivity|];
          split; [cbn; try reflexivity
                 |intros ? [<- | []]; reflexivity]|];
  intros ? E;
  first [ discriminate E
        | injection E as <-; cbn;
          split; [reflexivity|]; split; [reflexivity|]; auto ].

Lemma toast_apply_spec {H} (sem : semantics H) (t : Toast.toast) (c : toast_call)
    (w : world H) res w' :
  toast_apply sem t c w = (res, w') ->
  console w' = console w /\
  (exists added,
     calls w' = calls w ++ added /\
     forallb wellTypedCall added = true /\
     (forall x, In x added -> Toast.toastBuilder t = VRef (call_target x))) /\
  (forall t', res = Ret t' ->
     Toast.base t' = Toast.base t /\
     Toast.toastBuilder t' = Toast.toastBuilder t /\
     (validDuration (Toast.duration t) = true ->
      validDuration (Toast.duration t') = true)).
Proof.
  destruct w as [h cs l]. destruct t as [b tb d].
  destruct c as [text|duration|gravity xOffset yOffset| |]; cbn [toast_apply];
    AccessorFacts.unfold_toast; unfold throw;
    cbn [Toast.base Toast.toastBuilder Toast.duration];
    destruct (isMMRL b); cbn [negb orb];
    try (intros [= <- <-]; toast_quiet);
    destruct (truthy tb) eqn:Etb; cbn [negb];
    try (intros [= <- <-]; toast_quiet);
    destruct (hasRequiredVersion b Toast.requireVersion); cbn [negb];
    try (intros [= <- <-]; toast_quiet).
  - destruct text; cbn [typeof String.eqb Ascii.eqb Bool.eqb negb];
      try (intros [= <- <-]; toast_quiet).
    unfold bind, invoke, ret; cbn [host calls console].
    destruct tb as [| | | | | |r]; cbv beta iota;
      try (intros [= <- <-]; toast_quiet).
    destruct (sem r "setText" [VStr s] h) as [[v|e] h'];
      intros [= <- <-]; toast_called.
  - destruct duration as [| | |n| | |];
      cbn [typeof String.eqb Ascii.eqb Bool.eqb negb];
      try (intros [= <- <-]; toast_quiet).
    cbn [Toast.strictNeqNum].
    destruct ((n =? Toast.LENGTH_SHORT)%Z || (n =? Toast.LENGTH_LONG)%Z) eqn:En.
    + assert (Eg : negb (n =? Toast.LENGTH_SHORT)%Z && negb (n =? Toast.LENGTH_LONG)%Z
                   = false).
      { rewrite <- negb_orb, En. reflexivity. }
      rewrite Eg.
      unfold bind, invoke, ret; cbn [host calls console Toast.toastBuilder
                                     Toast.duration].
      destruct tb as [| | | | | |r]; cbv beta iota;
      try (intros [= <- <-]; toast_quiet).
      destruct (sem r "setDuration" [VNum n] h) as [[v|e] h'];
        intros [= <- <-].
      * split; [reflexivity|].
        split; [eexists; split; [reflexivity|];
                split; [cbn; now rewrite En
                       |intros x [<- | []]; reflexivity]|].
        intros t' E; injection E as <-; cbn [Toast.base Toast.toastBuilder
                                             Toast.duration validDuration].
        split; [reflexivity|]. split; [reflexivity|]. intros _. exact En.
      * split; [reflexivity|].
        split; [eexists; split; [reflexivity|];
                split; [cbn; now rewrite En
                       |intros x [<- | []]; reflexivity]|].
        intros t' E; discriminate E.
    + assert (Eg : negb (n =? Toast.LENGTH_SHORT)%Z && negb (n =? Toast.LENGTH_LONG)%Z
                   = true).
      { rewrite <- negb_orb, En. reflexivity. }
      rewrite Eg. intros [= <- <-]; toast_quiet.
  - destruct gravity as [| | |g| | |];
      cbn [typeof String.eqb Ascii.eqb Bool.eqb negb];
      try (intros [= <- <-]; toast_quiet).
    destruct xOffset as [| | |x| | |];
      cbn [typeof String.eqb Ascii.eqb Bool.eqb negb];
      try (intros [= <- <-]; toast_quiet).
    destruct yOffset as [| | |y| | |];
      cbn [typeof String.eqb Ascii.eqb Bool.eqb negb];
      try (intros [= <- <-]; toast_quiet).
    unfold bind, invoke, ret; cbn [host calls console].
    destruct tb as [| | | | | |r]; cbv beta iota;
      try (intros [= <- <-]; toast_quiet).
    destruct (sem r "setGravity" [VNum g; VNum x; VNum y] h) as [[v|e] h'];
      intros [= <- <-]; toast_called.
  - unfold bind, invoke, ret; cbn [host calls console].
    destruct tb as [| | | | | |r]; cbv beta iota;
      try (intros [= <- <-]; toast_quiet).
    destruct (sem r "show" [] h) as [[v|e] h'];
      intros [= <- <-]; toast_called.
  - unfold bind, invoke, ret; cbn [host calls console].
    destruct tb as [| | | | | |r]; cbv beta iota;
      try (intros [= <- <-]; toast_quiet).
    destruct (sem r "cancel" [] h) as [[v|e] h'];
      intros [= <- <-]; toast_called.
Qed.

(** X13.  Whatever calls are made on a toast, with whatever arguments and on
    whatever host, until one of them throws: the toast builder is the only
    host object called, and it only ever receives arguments of the
    documented types (a string for [setText], [LENGTH_SHORT] or
    [LENGTH_LONG] for [setDuration], three numbers for [setGravity]);
    nothing is written to the console; and the toast keeps its interface,
    its builder, and a duration that is one of the two lengths. *)
Theorem toast_calls_are_validated {H} (sem : semantics H) (cs : list toast_call) :
  forall (t : Toast.toast) (w : world H) res w',
  toast_run sem cs t w = (res, w') ->
  console w' = console w /\
  (exists added,
     calls w' = calls w ++ added /\
     forallb wellTypedCall added = true /\
     (forall x, In x added -> Toast.toastBuilder t = VRef (call_target x))) /\
  (forall t', res = Ret t' ->
     Toast.base t' = Toast.base t /\
     Toast.toastBuilder t' = Toast.toastBuilder t /\
     (validDuration (Toast.duration t) = true ->
      validDuration (Toast.duration t') = true)).
Proof.
  induction cs as [|c cs IH]; intros t w res w' E.
  - cbn [toast_run] in E. unfold ret in E. injection E as <- <-.
    split; [reflexivity|].
    split; [exists []; rewrite app_nil_r;
            split; [reflexivity|]; split; [reflexivity|]; intros x []|].
    intros t' [= <-]. auto.
  - cbn [toast_run] in E. unfold bind in E.
    destruct (toast_apply sem t c w) as [[t1|e] w1] eqn:E1.
    + destruct (toast_apply_spec sem t c w _ _ E1)
        as (Hl1 & (added1 & Hc1 & Hty1 & Hon1) & Hkeep1).
      destruct (Hkeep1 t1 eq_refl) as (Hb1 & Htb1 & Hd1).
      destruct (IH t1 w1 res w' E) as (Hl & (added & Hc & Hty & Hon) & Hkeep).
      split; [now rewrite Hl|].
      split.
      * exists (added1 ++ added).
        split; [rewrite Hc, Hc1; now rewrite app_assoc|].
        split; [rewrite forallb_app, Hty1, Hty; reflexivity|].
        intros x Hin. apply in_app_or in Hin as [Hin | Hin].
        -- now apply Hon1.
        -- rewrite <- Htb1. now apply Hon.
      * intros t' Et. destruct (Hkeep t' Et) as (Hb & Htb & Hd).
        split; [now rewrite Hb|]. split; [now rewrite Htb|]. auto.
    + injection E as <- <-.
      destruct (toast_apply_spec sem t c w _ _ E1)
        as (Hl1 & Hcalls & _).
      split; [exact Hl1|]. split; [exact Hcalls|]. intros t' Et; discriminate Et.
Qed.

Lemma toast_calls_are_validated_witness :
  console
    (mkWorld tt
       [mkCall toastBuilderRef "setText" [VStr "Saved"];
        mkCall toastBuilderRef "setDuration" [VNum 1]] [])
  = console (fresh tt) /\
  (exists added,
     [mkCall toastBuilderRef "setText" [VStr "Saved"];
      mkCall toastBuilderRef "setDuration" [VNum 1]]
     = calls (fresh tt) ++ added /\
     forallb wellTypedCall added = true /\
     (forall x, In x added -> VRef toastBuilderRef = VRef (call_target x))) /\
  (forall t',
     @Throw Toast.toast (Error "Invalid duration") = Ret t' ->
     Toast.base t' = mkAccessor (mmrlAt 33049) (VRef mmrlRef) /\
     Toast.toastBuilder t' = VRef toastBuilderRef /\
     (validDuration (VNum 0) = true -> validDuration (Toast.duration t') = true)).
Proof.
  apply (toast_calls_are_validated (mmrlHost 33049)
           [TSetText (VStr "Saved"); TSetDuration (VNum 1); TSetDuration (VNum 5);
            TShow]
           (Toast.mkToast (mkAccessor (mmrlAt 33049) (VRef mmrlRef))
              (VRef toastBuilderRef) (VNum 0))
           (fresh tt)).
  reflexivity.
Defined.

Lemma not_ready_is_inert {H} (sem : semantics H) (cs : list toast_call)
    (t : Toast.toast) (w : world H) :
  Toast.ready t = false -> toast_run sem cs t w = (Ret t, w).
Proof.
  intros Hr. induction cs as [|c cs IH]; [reflexivity|].
  cbn [toast_run]. unfold bind.
  assert (E : toast_apply sem t c w = (Ret t, w)).
  { destruct c; cbn [toast_apply];
      unfold Toast.setText, Toast.setDuration, Toast.setGravity, Toast.show,
        Toast.cancel;
      now rewrite (AccessorFacts.guarded_not_ready _ _ Hr). }
  now rewrite E.
Qed.

(** X14.  On a page without the [mmrl] object (the global is absent, or
    holds a falsy value), [new Toast()] has no builder and makes no host
    call, and every call on that toast afterwards returns without looking at
    its arguments: no exception, no host call, in MMRL as elsewhere. *)
Theorem toast_without_mmrl {H} (sem : semantics H) (e : env) (win : window value)
    (cs : list toast_call) (w : world H) :
  truthy (match window_get win "mmrl" with Some o => o | None => VUndefined end)
  = false ->
  (t <- Toast.new sem e win ;; toast_run sem cs t) w
  = (Ret (Toast.mkToast
            (mkAccessor e (match window_get win "mmrl" with
                           | Some o => o
                           | None => VUndefined
                           end))
            VUndefined (VNum Toast.LENGTH_SHORT)), w).
Proof.
  intros Hno. unfold Toast.new. cbn [interface]. rewrite Hno. cbn [negb].
  unfold bind at 1. unfold ret at 1.
  apply not_ready_is_inert.
  unfold Toast.ready. cbn [Toast.toastBuilder truthy]. now rewrite andb_false_r.
Qed.

Lemma toast_without_mmrl_witness :
  (t <- Toast.new (failing (Error "unreachable")) (mmrlAt 40000) [] ;;
   toast_run (failing (Error "unreachable"))
     [TSetText (VNum 42); TSetDuration (VStr "long"); TShow] t) (fresh tt)
  = (Ret (Toast.mkToast (mkAccessor (mmrlAt 40000) VUndefined) VUndefined (VNum 0)),
     fresh tt).
Proof.
  apply (toast_without_mmrl (failing (Error "unreachable")) (mmrlAt 40000) []
           [TSetText (VNum 42); TSetDuration (VStr "long"); TShow] (fresh tt)).
  reflexivity.
Defined.

End ToastFacts.

(* ================================================================= *)
(** ** NativeProperty: a write followed by a read *)

Module PropertyFacts.
Import Hosts.

(** X15.  Writing a decorated property and reading it back.  Outside MMRL
    the write is dropped: the read gives the default of the options.  In
    MMRL without a required version the read gives the value written,
    whatever it is.  In MMRL with a required version but no [mmrl] object on
    the page, the write is dropped too, and each of the two accesses warns
    that MMRL is not available.  No host object is called in any of the
    three cases. *)
Theorem NativeProperty_set_then_get {H} (sem : semantics H) (win : window value)
    (p : NativeProperty.property) (v : value) (w : world H) :
  NativeProperty.deprecated (NativeProperty.opts p) = false ->
  (NativeProperty.isMMRL p = false ->
   (p' <- NativeProperty.setter sem win p v ;; NativeProperty.getter sem win p') w
   = (Ret (NativeProperty.default (NativeProperty.opts p)), w)) /\
  (NativeProperty.isMMRL p = true ->
   NativeProperty.requireVersion (NativeProperty.opts p) = None ->
   (p' <- NativeProperty.setter sem win p v ;; NativeProperty.getter sem win p') w
   = (Ret v, w)) /\
  (NativeProperty.isMMRL p = true ->
   NativeProperty.requireVersion (NativeProperty.opts p) <> None ->
   truthy (match window_get win "mmrl" with Some o => o | None => VUndefined end)
   = false ->
   (p' <- NativeProperty.setter sem win p v ;; NativeProperty.getter sem win p') w
   = (Ret (NativeProperty.default (NativeProperty.opts p)),
      mkWorld (host w) (calls w)
        (console w ++ [mkLog LWarn "MMRL is not available!" None;
                       mkLog LWarn "MMRL is not available!" None]))).
Proof.
  intros Hdep. destruct w as [h cs l].
  split; [|split].
  - intros Hno.
    unfold NativeProperty.setter. rewrite Hdep, Hno. cbn [negb].
    cbv beta iota delta [bind ret].
    unfold NativeProperty.getter. rewrite Hdep, Hno. reflexivity.
  - intros Hyes Hreq.
    unfold NativeProperty.setter, NativeProperty.getter, NativeProperty.versionGate.
    rewrite Hdep, Hyes, Hreq. cbn [negb].
    unfold bind, ret.
    cbn [NativeProperty.opts NativeProperty.isMMRL NativeProperty.stored].
    rewrite ?Hdep, ?Hyes, ?Hreq. reflexivity.
  - intros Hyes Hreq Hno.
    destruct (NativeProperty.requireVersion (NativeProperty.opts p))
      as [required|] eqn:Ereq; [|now elim Hreq].
    unfold NativeProperty.setter, NativeProperty.versionGate.
    rewrite Hdep, Hyes, Ereq, Hno. cbn [negb].
    cbv beta iota delta [bind ret console_warn log]. cbn [host calls console].
    unfold NativeProperty.getter, NativeProperty.versionGate.
    rewrite Hdep, Hyes, Ereq, Hno. cbn [negb].
    cbv beta iota delta [bind ret console_warn log]. cbn [host calls console].
    rewrite <- app_assoc. reflexivity.
Qed.

Lemma NativeProperty_set_then_get_witness :
  (p' <- NativeProperty.setter (failing (Error "unreachable")) []
           (NativeProperty.decorate (mmrlAt 40000)
              (NativeProperty.mkOptions (VStr "system") false None None) "theme")
           (VStr "dark") ;;
   NativeProperty.getter (failing (Error "unreachable")) [] p') (fresh tt)
  = (Ret (VStr "dark"), fresh tt) /\
  (p' <- NativeProperty.setter (failing (Error "unreachable")) []
           (NativeProperty.decorate browser
              (NativeProperty.mkOptions (VStr "system") false None None) "theme")
           (VStr "dark") ;;
   NativeProperty.getter (failing (Error "unreachable")) [] p') (fresh tt)
  = (Ret (VStr "system"), fresh tt).
Proof.
  split.
  - apply (proj1 (proj2 (NativeProperty_set_then_get (failing (Error "unreachable")) []
                           (NativeProperty.decorate (mmrlAt 40000)
                              (NativeProperty.mkOptions (VStr "system") false None None)
                              "theme")
                           (VStr "dark") (fresh tt) eq_refl)));
      reflexivity.
  - apply (proj1 (NativeProperty_set_then_get (failing (Error "unreachable")) []
                    (NativeProperty.decorate browser
                       (NativeProperty.mkOptions (VStr "system") false None None)
                       "theme")
                    (VStr "dark") (fresh tt) eq_refl)).
    reflexivity.
Defined.

End PropertyFacts.

(* ================================================================= *)
(** ** fetch on every host: what a run keeps *)

Module FetchInvariants.
Import Hosts Fetch Programs.

Lemma isChunk_Uint8Array (chunk : list Z) :
  (0 <? List.length chunk)%nat = true -> isChunk (Uint8Array chunk) = true.
Proof.
  intros Hlen. unfold isChunk, Uint8Array. rewrite length_map, Hlen. cbn [andb].
  apply forallb_forall. intros b Hin. apply in_map_iff in Hin as (n & <- & _).
  unfold isByte. pose proof (Z.mod_pos_bound n 256 eq_refl) as [Hlo Hhi].
  apply andb_true_intro. split; [now apply Z.leb_le | now apply Z.ltb_lt].
Qed.

Lemma evolves_refl st : evolves st st.
Proof.
  repeat split. exists []. now rewrite app_nil_r.
Qed.

Lemma evolves_trans st1 st2 st3 : evolves st1 st2 -> evolves st2 st3 -> evolves st1 st3.
Proof.
  intros (Hi1 & Hc1 & Hr1 & a1 & Hq1 & Ha1) (Hi2 & Hc2 & Hr2 & a2 & Hq2 & Ha2).
  split; [congruence|]. split; [congruence|]. split.
  - intros Hp. rewrite <- (Hr1 Hp). apply Hr2. now rewrite (Hr1 Hp).
  - exists (a1 ++ a2). split; [rewrite Hq2, Hq1; now rewrite app_assoc|].
    now rewrite forallb_app, Ha1, Ha2.
Qed.

Lemma evolves_unlisten st : evolves st (unlisten st).
Proof.
  unfold unlisten. destruct (signal st); [|apply evolves_refl].
  repeat split. exists []. cbn. now rewrite app_nil_r.
Qed.

Lemma evolves_set_body s st : evolves st (set_body s st).
Proof. repeat split. exists []. cbn. now rewrite app_nil_r. Qed.

Lemma evolves_set_aborted st : evolves st (set_aborted st).
Proof. repeat split. exists []. cbn. now rewrite app_nil_r. Qed.

Lemma evolves_reject e st : evolves st (reject e st).
Proof.
  unfold reject, settle. destruct (result st) eqn:Er; try apply evolves_refl.
  split; [reflexivity|]. split; [reflexivity|]. split.
  - intros Hp. now elim Hp.
  - exists []. cbn. now rewrite app_nil_r.
Qed.

Lemma evolves_enqueue chunk st :
  isChunk chunk = true -> evolves st (enqueue chunk st).
Proof.
  intros Hc. split; [reflexivity|]. split; [reflexivity|]. split; [reflexivity|].
  exists [chunk]. split; [reflexivity|]. cbn. now rewrite Hc.
Qed.

Section AnyHost.
Context {H : Type} (sem : semantics H).
Variable JSON_parse : value -> outcome (list Z).

(** [cleanup] cannot fail: what closing the handle throws is logged. *)
Lemma cleanup_total (st : state) (w : world H) :
  exists w', cleanup sem st w = (Ret (unlisten st), w').
Proof.
  destruct w as [h cs l]. unfold cleanup. cbv zeta.
  change (match signal st with
          | Some _ => set_listening false st
          | None => st
          end) with (unlisten st).
  unfold try_catch, bind, ret, close_input, console_error, log.
  destruct (input (unlisten st)) as [i|]; [|eexists; reflexivity].
  unfold SuFileInputStream.close, bind, ret, invoke.
  destruct (SuFileInputStream._is i) as [| | | | | |r]; try (eexists; reflexivity).
  cbn [host calls console].
  destruct (sem r "close" [] h) as [[v|e] h']; eexists; reflexivity.
Qed.

Lemma abortHandler_total (st : state) (w : world H) :
  exists w', abortHandler sem st w = (Ret (reject abortError st), w').
Proof.
  destruct w as [h cs l].
  unfold abortHandler, try_catch, bind, ret, close_input, console_error, log.
  destruct (input st) as [i|]; [|eexists; reflexivity].
  unfold SuFileInputStream.close, bind, ret, invoke.
  destruct (SuFileInputStream._is i) as [| | | | | |r]; try (eexists; reflexivity).
  cbn [host calls console].
  destruct (sem r "close" [] h) as [[v|e] h']; eexists; reflexivity.
Qed.

Ltac by_cleanup :=
  match goal with
  | |- context [cleanup sem ?s ?w0] =>
      let w1 := fresh "w" in
      let E := fresh "E" in
      destruct (cleanup_total s w0) as [w1 E]; rewrite E
  end.

(** One [pull], whatever the state and the host: it returns, and either a
    chunk that is not empty was enqueued, or the stream was closed, or it
    was errored with the exception of the failed read. *)
Lemma pull_total (st : state) (w : world H) :
  exists st' w',
    pull sem JSON_parse st w = (Ret st', w') /\
    ((exists chunk, (0 <? List.length chunk)%nat = true /\
                    st' = enqueue (Uint8Array chunk) st) \/
     st' = unlisten (set_body Closed st) \/
     (exists e, st' = reject (Error ("Error reading file chunk: " ++ message e))
                        (set_body (Errored e) (unlisten st)))).
Proof.
  cbv beta iota zeta delta [pull try_catch bind throw ret].
  destruct (match input st with
            | Some i => SuFileInputStream.readChunk sem i (VNum (chunkSize st))
            | None =>
                fun w0 =>
                  (Throw (TypeError "Cannot read properties of null (reading 'readChunk')"),
                   w0)
            end w) as [[v|e] w1].
  - destruct (truthy v); cbn [negb].
    + destruct (JSON_parse v) as [chunk|e].
      * destruct (0 <? List.length chunk)%nat eqn:El.
        -- eexists; eexists. split; [reflexivity|]. left. now exists chunk.
        -- by_cleanup. eexists; eexists. split; [reflexivity|]. right. now left.
      * by_cleanup. eexists; eexists. split; [reflexivity|]. right. right.
        now exists e.
    + by_cleanup. eexists; eexists. split; [reflexivity|]. right. now left.
  - by_cleanup. eexists; eexists. split; [reflexivity|]. right. right. now exists e.
Qed.

Lemma pull_evolves (st : state) (w : world H) :
  exists st' w', pull sem JSON_parse st w = (Ret st', w') /\ evolves st st'.
Proof.
  destruct (pull_total st w) as (st' & w' & E & Hcases).
  exists st', w'. split; [exact E|].
  destruct Hcases as [(chunk & Hlen & ->) | [-> | (e & ->)]].
  - apply evolves_enqueue. now apply isChunk_Uint8Array.
  - eapply evolves_trans; [apply evolves_set_body | apply evolves_unlisten].
  - eapply evolves_trans; [apply evolves_unlisten|].
    eapply evolves_trans; [apply evolves_set_body | apply evolves_reject].
Qed.

Lemma step_evolves (ev : event) (st : state) (w : world H) :
  exists st' w', step sem JSON_parse ev st w = (Ret st', w') /\ evolves st st'.
Proof.
  destruct ev; unfold step.
  - destruct (body st) as [[| |e]|];
      try (exists st, w; split; [reflexivity | apply evolves_refl]).
    apply pull_evolves.
  - destruct (body st) as [[| |e]|];
      try (exists st, w; split; [reflexivity | apply evolves_refl]).
    unfold cancel, bind. by_cleanup. unfold ret.
    eexists; eexists. split; [reflexivity|].
    eapply evolves_trans; [apply evolves_unlisten | apply evolves_set_body].
  - destruct (signal st) as [[|]|];
      try (exists st, w; split; [reflexivity | apply evolves_refl]).
    destruct (listening st).
    + destruct (abortHandler_total (set_aborted st) w) as [w' E]. rewrite E.
      eexists; eexists. split; [reflexivity|].
      eapply evolves_trans; [apply evolves_set_aborted | apply evolves_reject].
    + eexists; eexists. split; [reflexivity|]. apply evolves_set_aborted.
Qed.

Lemma run_evolves (evs : list event) : forall (st : state) (w : world H),
  exists st' w', run sem JSON_parse evs st w = (Ret st', w') /\ evolves st st'.
Proof.
  induction evs as [|ev evs IH]; intros st w.
  - exists st, w. split; [reflexivity | apply evolves_refl].
  - destruct (step_evolves ev st w) as (st1 & w1 & E1 & Hev1).
    destruct (IH st1 w1) as (st' & w' & E & Hev).
    exists st', w'. cbn [run]. unfold bind. rewrite E1.
    split; [exact E | now apply evolves_trans with st1].
Qed.

Lemma fetch_not_pending (win : window value) (this : SuFile.sufile) (o : options)
    (w : world H) :
  exists st w', fetch sem win this o w = (Ret st, w') /\ result st <> Pending.
Proof.
  cbv beta iota zeta delta [fetch try_catch bind ret].
  destruct (SuFileInputStream.new sem win (SuFile.path this) w) as [[i|e0] w1].
  - destruct (opt_signal o) as [[|]|].
    + match goal with
      | |- context [abortHandler sem ?s ?w0] =>
          destruct (abortHandler_total s w0) as [w' E]; rewrite E
      end.
      eexists; eexists. split; [reflexivity | discriminate].
    + eexists; eexists. split; [reflexivity | discriminate].
    + eexists; eexists. split; [reflexivity | discriminate].
  - eexists; eexists. split; [reflexivity | discriminate].
Qed.

(** X16.  [fetch] never throws, and the promise it returns is settled by
    then.  It is resolved exactly when the constructor of the stream
    returned and the signal, if any, was not aborted yet: the body is a
    readable stream with nothing enqueued, and [open] was the only host
    call.  It is rejected, and no stream exists, when the constructor threw
    (with the constructor's message after the path) or when the signal was
    aborted already (with an [AbortError]). *)
Theorem fetch_settles (win : window value) (this : SuFile.sufile) (o : options)
    (w : world H) :
  exists st w',
    fetch sem win this o w = (Ret st, w') /\
    queue st = [] /\
    chunkSize st = match opt_chunkSize o with Some c => c | None => 1048576%Z end /\
    match result st with
    | Pending => False
    | Resolved =>
        opt_signal o <> Some true /\
        body st = Some Readable /\
        exists i,
          SuFileInputStream.new sem win (SuFile.path this) w = (Ret i, w') /\
          input st = Some i
    | Rejected e =>
        body st = None /\
        ((exists e0,
            SuFileInputStream.new sem win (SuFile.path this) w = (Throw e0, w') /\
            e = Error ("Failed to open file at path '" ++ SuFile.path this ++ "': "
                       ++ message e0)) \/
         (opt_signal o = Some true /\ e = abortError /\
          exists i w1,
            SuFileInputStream.new sem win (SuFile.path this) w = (Ret i, w1) /\
            input st = Some i))
    end.
Proof.
  cbv beta iota zeta delta [fetch try_catch bind ret].
  destruct (SuFileInputStream.new sem win (SuFile.path this) w) as [[i|e0] w1].
  - destruct (opt_signal o) as [[|]|] eqn:Es.
    + match goal with
      | |- context [abortHandler sem ?s ?w0] =>
          destruct (abortHandler_total s w0) as [w' E]; rewrite E
      end.
      eexists; eexists. split; [reflexivity|]. split; [reflexivity|].
      split; [reflexivity|]. cbn. split; [reflexivity|]. right.
      split; [reflexivity|]. split; [reflexivity|]. now exists i, w1.
    + eexists; eexists. split; [reflexivity|]. split; [reflexivity|].
      split; [reflexivity|]. cbn. split; [discriminate|].
      split; [reflexivity|]. now exists i.
    + eexists; eexists. split; [reflexivity|]. split; [reflexivity|].
      split; [reflexivity|]. cbn. split; [discriminate|].
      split; [reflexivity|]. now exists i.
  - eexists; eexists. split; [reflexivity|]. split; [reflexivity|].
    split; [reflexivity|]. cbn. split; [reflexivity|]. left. now exists e0.
Qed.

(** X17.  Whatever happens after [fetch] has returned (pulls, a cancel, an
    abort, a failed read), the run completes and the promise keeps the
    outcome it had when [fetch] returned: the [reject] of a failed read and
    the [reject] of an abort have no effect on it. *)
Theorem promise_outcome_is_final (win : window value) (this : SuFile.sufile)
    (o : options) (w : world H) (st0 : state) (w0 : world H) (evs : list event) :
  fetch sem win this o w = (Ret st0, w0) ->
  exists st' w',
    run sem JSON_parse evs st0 w0 = (Ret st', w') /\
    result st' = result st0 /\
    result st' <> Pending.
Proof.
  intros Ef.
  destruct (fetch_not_pending win this o w) as (st & w1 & Ef' & Hp).
  rewrite Ef in Ef'. injection Ef' as <- <-.
  destruct (run_evolves evs st0 w0) as (st' & w' & Er & _ & _ & Hres & _).
  exists st', w'. split; [exact Er|].
  split; [now apply Hres | now rewrite (Hres Hp)].
Qed.

(** X18.  On a host whose [readChunk] returns what it documents, the JSON
    text of an array of integers, or nothing, or a text that [JSON.parse]
    refuses: whatever the integers and whatever the consumer does, a run
    completes, never removes or changes a chunk already enqueued, and every
    chunk it adds is not empty and holds bytes only (numbers from 0 to
    255). *)
Theorem chunks_are_byte_arrays (evs : list event) (st : state) (w : world H) :
  exists st' w' added,
    run sem JSON_parse evs st w = (Ret st', w') /\
    queue st' = queue st ++ added /\
    forallb isChunk added = true.
Proof.
  destruct (run_evolves evs st w) as (st' & w' & Er & _ & _ & _ & added & Hq & Ha).
  now exists st', w', added.
Qed.

(** *** After the end of the stream *)

Lemma listens_fetch (win : window value) (this : SuFile.sufile) (o : options)
    (w : world H) st0 w0 :
  fetch sem win this o w = (Ret st0, w0) -> listensWhileReadable st0.
Proof.
  cbv beta iota zeta delta [fetch try_catch bind ret].
  destruct (SuFileInputStream.new sem win (SuFile.path this) w) as [[i|e0] w1].
  - destruct (opt_signal o) as [[|]|] eqn:Es.
    + match goal with
      | |- context [abortHandler sem ?s ?w0] =>
          destruct (abortHandler_total s w0) as [w' E]; rewrite E
      end.
      intros [= <- <-]. split; reflexivity.
    + intros [= <- <-]. split; cbn; discriminate.
    + intros [= <- <-]. split; reflexivity.
  - intros [= <- <-]. split; reflexivity.
Qed.

Lemma listens_unlisten st : listensWhileReadable st -> listensWhileReadable (unlisten st).
Proof.
  intros Hl. unfold unlisten. destruct (signal st) eqn:Es.
  - split; reflexivity.
  - exact Hl.
Qed.

Lemma listens_ended s st :
  s <> Readable -> listensWhileReadable st ->
  listensWhileReadable (set_body s (unlisten st)).
Proof.
  intros Hs [Hk Hj]. unfold unlisten. destruct (signal st) eqn:Es.
  - split; reflexivity.
  - split; cbn; intros _; now apply Hk.
Qed.

Lemma listens_reject e st : listensWhileReadable st -> listensWhileReadable (reject e st).
Proof.
  intros Hl. unfold reject, settle. now destruct (result st).
Qed.

Lemma listens_set_aborted st :
  listensWhileReadable st -> listensWhileReadable (set_aborted st).
Proof.
  intros [Hk Hj]. split.
  - cbn. destruct (signal st); [discriminate | auto].
  - exact Hj.
Qed.

Lemma unlisten_set_body s st : unlisten (set_body s st) = set_body s (unlisten st).
Proof. unfold unlisten. cbn. now destruct (signal st). Qed.

Lemma listens_step (ev : event) (st : state) (w : world H) st' w' :
  listensWhileReadable st ->
  step sem JSON_parse ev st w = (Ret st', w') ->
  listensWhileReadable st'.
Proof.
  intros Hl. destruct ev; unfold step.
  - destruct (body st) as [[| |e]|] eqn:Eb; try (intros [= <- <-]; exact Hl).
    destruct (pull_total st w) as (st1 & w1 & E & Hcases). rewrite E.
    intros [= <- <-].
    destruct Hcases as [(chunk & _ & ->) | [-> | (e & ->)]].
    + destruct Hl as [Hk Hj]. split; [exact Hk | exact Hj].
    + rewrite unlisten_set_body. now apply listens_ended.
    + apply listens_reject. now apply listens_ended.
  - destruct (body st) as [[| |e]|] eqn:Eb; try (intros [= <- <-]; exact Hl).
    unfold cancel, bind. by_cleanup. unfold ret. intros [= <- <-].
    now apply listens_ended.
  - destruct (signal st) as [[|]|] eqn:Es; try (intros [= <- <-]; exact Hl).
    destruct (listening st) eqn:El.
    + destruct (abortHandler_total (set_aborted st) w) as [w1 E]. rewrite E.
      intros [= <- <-]. apply listens_reject. now apply listens_set_aborted.
    + intros [= <- <-]. now apply listens_set_aborted.
Qed.

Lemma listens_run (evs : list event) : forall (st : state) (w : world H) st' w',
  listensWhileReadable st ->
  run sem JSON_parse evs st w = (Ret st', w') ->
  listensWhileReadable st'.
Proof.
  induction evs as [|ev evs IH]; intros st w st' w' Hl.
  - intros [= <- <-]. exact Hl.
  - cbn [run]. unfold bind.
    destruct (step sem JSON_parse ev st w) as [[st1|e] w1] eqn:E1; [|discriminate].
    intros Er. apply (IH st1 w1 st' w'); [|exact Er].
    now apply (listens_step ev st w st1 w1).
Qed.

Lemma quiet_run (evs : list event) : forall (st : state) (w : world H),
  readable st = false ->
  listening st = false ->
  exists st',
    run sem JSON_parse evs st w = (Ret st', w) /\
    readable st' = false /\ queue st' = queue st /\ result st' = result st.
Proof.
  induction evs as [|ev evs IH]; intros st w Hr Hl.
  - exists st. now repeat split.
  - assert (Hstep : exists st1,
               step sem JSON_parse ev st w = (Ret st1, w) /\
               readable st1 = false /\ listening st1 = false /\
               queue st1 = queue st /\ result st1 = result st).
    { assert (Hb : body st <> Some Readable).
      { intros Eb. unfold readable in Hr. rewrite Eb in Hr. discriminate. }
      destruct ev; unfold step.
      - exists st. destruct (body st) as [[| |e]|]; [now elim Hb | | |];
          now repeat split.
      - exists st. destruct (body st) as [[| |e]|]; [now elim Hb | | |];
          now repeat split.
      - destruct (signal st) as [[|]|]; try (exists st; now repeat split).
        rewrite Hl. exists (set_aborted st). now repeat split. }
    destruct Hstep as (st1 & E1 & Hr1 & Hl1 & Hq1 & Hres1).
    destruct (IH st1 w Hr1 Hl1) as (st' & E & Hr' & Hq' & Hres').
    exists st'. cbn [run]. unfold bind. rewrite E1.
    split; [exact E|]. split; [exact Hr'|]. split; congruence.
Qed.

(** X19.  Once the stream of a fetch has ended (closed at the end of the
    data, errored by a failed read, or cancelled), nothing that happens
    later reaches the host: further pulls, a cancel, and also an abort of
    the signal, whose handler has been removed, leave the host, the trace
    and the console as they are, and the queue and the promise too. *)
Theorem nothing_after_the_end (win : window value) (this : SuFile.sufile)
    (o : options) (w : world H) (st0 : state) (w0 : world H)
    (before : list event) (st1 : state) (w1 : world H) (after : list event) :
  fetch sem win this o w = (Ret st0, w0) ->
  run sem JSON_parse before st0 w0 = (Ret st1, w1) ->
  readable st1 = false ->
  exists st2,
    run sem JSON_parse after st1 w1 = (Ret st2, w1) /\
    readable st2 = false /\ queue st2 = queue st1 /\ result st2 = result st1.
Proof.
  intros Ef Er Hr.
  pose proof (listens_fetch win this o w st0 w0 Ef) as Hl0.
  pose proof (listens_run before st0 w0 st1 w1 Hl0 Er) as [_ Hj].
  apply quiet_run; [exact Hr | now apply Hj].
Qed.

(** *** What reaches the handle *)

Lemma abortHandler_closes r (st : state) (w : world H) :
  opened r st ->
  exists w',
    abortHandler sem st w = (Ret (reject abortError st), w') /\
    calls w' = calls w ++ [mkCall r "close" []].
Proof.
  intros (path & name & Ein). destruct w as [h cs l].
  unfold abortHandler, try_catch, bind, ret, close_input, console_error, log.
  rewrite Ein. unfold SuFileInputStream.close, bind, ret, invoke.
  cbn [SuFileInputStream._is host calls console].
  destruct (sem r "close" [] h) as [[v|e] h']; eexists; split; reflexivity.
Qed.

Lemma step_on_handle r (ev : event) (st : state) (w : world H) :
  opened r st ->
  exists st' w' added,
    step sem JSON_parse ev st w = (Ret st', w') /\
    opened r st' /\
    chunkSize st' = chunkSize st /\
    calls w' = calls w ++ added /\
    Forall (readChunkOrClose r (chunkSize st)) added.
Proof.
  intros Hop.
  destruct (step_evolves ev st w) as (st' & w' & E & Hi & Hc & _).
  assert (Hop' : opened r st').
  { destruct Hop as (path & name & Ein). exists path, name. now rewrite Hi. }
  assert (Hcalls : exists added,
             calls w' = calls w ++ added /\
             Forall (readChunkOrClose r (chunkSize st)) added).
  { assert (Hnone : step sem JSON_parse ev st w = (Ret st, w) ->
                    exists added,
                      calls w' = calls w ++ added /\
                      Forall (readChunkOrClose r (chunkSize st)) added).
    { intros E0. rewrite E0 in E. injection E as _ <-.
      exists []. now rewrite app_nil_r. }
    revert E Hnone. destruct ev; unfold step.
    - destruct (body st) as [[| |e]|]; try (intros _ Hnone; now apply Hnone).
      intros E _.
      destruct (Cancellation.pull_cases sem JSON_parse r st w Hop)
        as (st1 & w1 & Ep & _ & Hcases).
      rewrite Ep in E. injection E as _ <-.
      destruct Hcases as [[_ Hc1] | [_ Hc1]]; eexists; (split; [exact Hc1|]).
      + constructor; [now left | constructor].
      + constructor; [now left | constructor; [now right | constructor]].
    - destruct (body st) as [[| |e]|]; try (intros _ Hnone; now apply Hnone).
      intros E _. unfold cancel, bind in E.
      destruct (Cancellation.cleanup_closes sem r st w Hop) as (w1 & Ec & Hc1).
      rewrite Ec in E. unfold ret in E. injection E as _ <-.
      eexists. split; [exact Hc1|]. constructor; [now right | constructor].
    - destruct (signal st) as [[|]|]; try (intros _ Hnone; now apply Hnone).
      destruct (listening st).
      + intros E _.
        assert (Hop1 : opened r (set_aborted st)).
        { destruct Hop as (path & name & Ein). now exists path, name. }
        destruct (abortHandler_closes r (set_aborted st) w Hop1) as (w1 & Ea & Hc1).
        rewrite Ea in E. injection E as _ <-.
        eexists. split; [exact Hc1|]. constructor; [now right | constructor].
      + unfold ret. intros E _. injection E as _ <-.
        exists []. now rewrite app_nil_r. }
  destruct Hcalls as (added & Hcalls & Hall).
  now exists st', w', added.
Qed.

(** X20.  After the stream has been opened, whatever the consumer and the
    signal do, the run completes and every host call it makes is one of two
    calls on the handle: [readChunk] with the chunk size of the fetch, or
    [close] without argument.  No other object and no other method is
    called. *)
Theorem fetch_calls_only_readChunk_and_close r (evs : list event) :
  forall (st : state) (w : world H),
  opened r st ->
  exists st' w' added,
    run sem JSON_parse evs st w = (Ret st', w') /\
    calls w' = calls w ++ added /\
    Forall (readChunkOrClose r (chunkSize st)) added.
Proof.
  induction evs as [|ev evs IH]; intros st w Hop.
  - exists st, w, []. split; [reflexivity|]. split; [now rewrite app_nil_r|].
    constructor.
  - destruct (step_on_handle r ev st w Hop)
      as (st1 & w1 & added1 & E1 & Hop1 & HC1 & Hc1 & Hall1).
    destruct (IH st1 w1 Hop1) as (st' & w' & added & E & Hc & Hall).
    exists st', w', (added1 ++ added). cbn [run]. unfold bind. rewrite E1.
    split; [exact E|]. split; [rewrite Hc, Hc1; now rewrite app_assoc|].
    apply Forall_app. split; [exact Hall1|]. now rewrite <- HC1.
Qed.

(** X21.  A read that fails errors the stream with the exception itself,
    whether [readChunk] threw it or [JSON.parse] did on the text [readChunk]
    returned; the handle is closed right after the failed read, the abort
    handler is removed, and the promise is rejected with "Error reading file
    chunk: " and the message only if it was still pending. *)
Theorem failed_read_errors_the_stream r (st : state) (w : world H) (e : exn) :
  opened r st ->
  (exists h1, sem r "readChunk" [VNum (chunkSize st)] (host w) = (Throw e, h1)) \/
  (exists text h1,
     sem r "readChunk" [VNum (chunkSize st)] (host w) = (Ret text, h1) /\
     truthy text = true /\ JSON_parse text = Throw e) ->
  exists w',
    pull sem JSON_parse st w
    = (Ret (reject (Error ("Error reading file chunk: " ++ message e))
              (set_body (Errored e) (unlisten st))), w') /\
    calls w' = calls w ++ [mkCall r "readChunk" [VNum (chunkSize st)];
                           mkCall r "close" []].
Proof.
  intros Hop Hfail. pose proof Hop as (path & name & Ein).
  destruct w as [h cs l].
  cbv beta iota zeta delta [pull try_catch bind throw ret].
  rewrite Ein.
  unfold SuFileInputStream.readChunk, invoke.
  cbn [SuFileInputStream._is host calls console] in *.
  destruct Hfail as [(h1 & E) | (text & h1 & E & Ht & Hp)]; rewrite E;
    [|rewrite Ht; cbn [negb]; rewrite Hp];
    match goal with
    | |- context [cleanup sem st ?w0] =>
        destruct (Cancellation.cleanup_closes sem r st w0 Hop) as (w' & Ec & Hc)
    end;
    rewrite Ec; exists w'; (split; [reflexivity|]);
    rewrite Hc; cbn [calls]; now rewrite <- app_assoc.
Qed.

(** *** How often the handle is closed *)

Lemma pendingCloses_ended s (st : state) :
  s <> Readable -> pendingCloses (set_body s (unlisten st)) = 0%nat.
Proof.
  intros Hs. destruct st as [i C sg li b q res].
  unfold pendingCloses, unlisten, readable.
  destruct sg as [[|]|]; cbn; destruct s; try reflexivity; now elim Hs.
Qed.

Lemma pendingCloses_enqueue chunk (st : state) :
  pendingCloses (enqueue chunk st) = pendingCloses st.
Proof. reflexivity. Qed.

Lemma pendingCloses_reject e (st : state) :
  pendingCloses (reject e st) = pendingCloses st.
Proof. unfold reject, settle. now destruct (result st). Qed.

Lemma step_closes r (ev : event) (st : state) (w : world H) :
  opened r st ->
  exists st' w',
    step sem JSON_parse ev st w = (Ret st', w') /\
    opened r st' /\
    (closeCount w' + pendingCloses st' <= closeCount w + pendingCloses st)%nat.
Proof.
  intros Hop.
  destruct (step_evolves ev st w) as (st' & w' & E & Hi & _).
  assert (Hop' : opened r st').
  { destruct Hop as (path & name & Ein). exists path, name. now rewrite Hi. }
  exists st', w'. split; [exact E|]. split; [exact Hop'|].
  assert (Hnone : step sem JSON_parse ev st w = (Ret st, w) ->
                  (closeCount w' + pendingCloses st'
                   <= closeCount w + pendingCloses st)%nat).
  { intros E0. rewrite E0 in E. injection E as <- <-. lia. }
  revert E Hnone. destruct ev; unfold step.
  - destruct (body st) as [[| |e]|] eqn:Eb; try (intros _ Hnone; now apply Hnone).
    intros E _.
    assert (Hr : readable st = true) by (unfold readable; now rewrite Eb).
    destruct (Cancellation.pull_cases sem JSON_parse r st w Hop)
      as (st1 & w1 & Ep & _ & Hcases).
    destruct (pull_total st w) as (st2 & w2 & Ep2 & Hshape).
    rewrite Ep in Ep2. injection Ep2 as <- <-.
    rewrite Ep in E. injection E as <- <-.
    destruct w as [h cs l], w1 as [h1 cs1 l1]. cbn [calls] in Hcases.
    destruct Hshape as [(chunk & _ & ->) | [-> | (e & ->)]].
    + rewrite pendingCloses_enqueue.
      destruct Hcases as [[_ ->] | [Hr1 _]].
      * rewrite (Cancellation.closeCount_app h h1 cs _ l l1).
        unfold closeCount at 2, callCount. cbn. lia.
      * unfold readable in Hr1. cbn [enqueue body] in Hr1.
        rewrite Eb in Hr1. discriminate.
    + rewrite unlisten_set_body, pendingCloses_ended by discriminate.
      unfold pendingCloses. rewrite Hr.
      destruct Hcases as [[Hr1 _] | [_ ->]].
      * rewrite Hr in Hr1. rewrite unlisten_set_body in Hr1.
        unfold readable in Hr1. cbn in Hr1. discriminate.
      * rewrite (Cancellation.closeCount_app h h1 cs _ l l1).
        unfold closeCount at 2, callCount. cbn. lia.
    + rewrite pendingCloses_reject, pendingCloses_ended by discriminate.
      unfold pendingCloses. rewrite Hr.
      destruct Hcases as [[Hr1 _] | [_ ->]].
      * rewrite Hr in Hr1. unfold readable, reject, settle in Hr1.
        destruct (result (set_body (Errored e) (unlisten st))); cbn in Hr1;
          discriminate.
      * rewrite (Cancellation.closeCount_app h h1 cs _ l l1).
        unfold closeCount at 2, callCount. cbn. lia.
  - destruct (body st) as [[| |e]|] eqn:Eb; try (intros _ Hnone; now apply Hnone).
    intros E _.
    assert (Hr : readable st = true) by (unfold readable; now rewrite Eb).
    unfold cancel, bind in E.
    destruct (Cancellation.cleanup_closes sem r st w Hop) as (w1 & Ec & Hc1).
    rewrite Ec in E. unfold ret in E. injection E as <- <-.
    change (match signal st with
            | Some _ => set_listening false st
            | None => st
            end) with (unlisten st).
    rewrite pendingCloses_ended by discriminate.
    unfold pendingCloses. rewrite Hr.
    destruct w as [h cs l], w1 as [h1 cs1 l1]. cbn [calls] in Hc1. subst cs1.
    rewrite (Cancellation.closeCount_app h h1 cs _ l l1).
    unfold closeCount at 2, callCount. cbn. lia.
  - destruct (signal st) as [[|]|] eqn:Es; try (intros _ Hnone; now apply Hnone).
    destruct (listening st) eqn:El.
    + intros E _.
      assert (Hop1 : opened r (set_aborted st)).
      { destruct Hop as (path & name & Ein). now exists path, name. }
      destruct (abortHandler_closes r (set_aborted st) w Hop1) as (w1 & Ea & Hc1).
      rewrite Ea in E. injection E as <- <-.
      rewrite pendingCloses_reject.
      unfold pendingCloses, set_aborted, readable.
      cbn [signal listening body]. rewrite Es, El.
      destruct w as [h cs l], w1 as [h1 cs1 l1]. cbn [calls] in Hc1. subst cs1.
      rewrite (Cancellation.closeCount_app h h1 cs _ l l1).
      unfold closeCount at 2, callCount. cbn. lia.
    + unfold ret. intros E _. injection E as <- <-.
      unfold pendingCloses, set_aborted, readable.
      cbn [signal listening body]. rewrite Es, El. lia.
Qed.

(** X29.  However the consumer pulls and cancels and whenever the signal
    aborts, the handle of a fetch is closed at most twice, and at most
    once when the fetch has no signal: [cleanup] closes it once, when the
    stream ends, and the abort handler once, if the signal aborts while
    the handler is registered. *)
Theorem handle_closed_at_most_twice r (evs : list event) :
  forall (st : state) (w : world H),
  opened r st ->
  exists st' w',
    run sem JSON_parse evs st w = (Ret st', w') /\
    (closeCount w' + pendingCloses st' <= closeCount w + pendingCloses st)%nat /\
    (closeCount w' <= closeCount w + 2)%nat /\
    (signal st = None -> closeCount w' <= closeCount w + 1)%nat.
Proof.
  assert (Hrun : forall st w, opened r st ->
            exists st' w',
              run sem JSON_parse evs st w = (Ret st', w') /\
              (closeCount w' + pendingCloses st'
               <= closeCount w + pendingCloses st)%nat).
  { induction evs as [|ev evs IH]; intros st w Hop.
    - exists st, w. split; [reflexivity | lia].
    - destruct (step_closes r ev st w Hop) as (st1 & w1 & E1 & Hop1 & H1).
      destruct (IH st1 w1 Hop1) as (st' & w' & E & H').
      exists st', w'. cbn [run]. unfold bind. rewrite E1.
      split; [exact E | lia]. }
  intros st w Hop. destruct (Hrun st w Hop) as (st' & w' & E & Hle).
  exists st', w'. split; [exact E|]. split; [exact Hle|].
  assert (Hmax : (pendingCloses st <= 2)%nat).
  { unfold pendingCloses.
    destruct (readable st), (signal st) as [[|]|], (listening st); cbn; lia. }
  split; [lia|].
  intros Hs.
  assert (Hone : (pendingCloses st <= 1)%nat).
  { unfold pendingCloses. rewrite Hs. destruct (readable st); cbn; lia. }
  lia.
Qed.

End AnyHost.

Lemma promise_outcome_is_final_witness :
  exists st' w',
    run (fileHost CompactJSON.print true) CompactJSON.parse [Pull; Abort; Pull]
      (mkState (Some (handle "/sdcard/a.bin")) 1 (Some false) true (Some Readable) []
         Resolved)
      (mkWorld (mkFileStream [1; 2; 3]%Z false)
         [mkCall 0 "open" [VStr "/sdcard/a.bin"]] [])
    = (Ret st', w') /\
    result st' = Resolved /\
    result st' <> Pending.
Proof.
  apply (promise_outcome_is_final (fileHost CompactJSON.print true) CompactJSON.parse
           streamWindow (file "/sdcard/a.bin") (mkOptions (Some 1%Z) (Some false))
           (fresh (mkFileStream [1; 2; 3]%Z false))).
  reflexivity.
Defined.

Lemma nothing_after_the_end_witness :
  exists st2,
    run (fileHost CompactJSON.print true) CompactJSON.parse [Abort; Pull; Cancel]
      (mkState (Some (handle "/sdcard/a.bin")) 1 (Some false) false (Some Closed)
         [[1]]%Z Resolved)
      (mkWorld (mkFileStream [2; 3]%Z true)
         [mkCall 0 "open" [VStr "/sdcard/a.bin"];
          mkCall 1 "readChunk" [VNum 1];
          mkCall 1 "close" []] [])
    = (Ret st2,
       mkWorld (mkFileStream [2; 3]%Z true)
         [mkCall 0 "open" [VStr "/sdcard/a.bin"];
          mkCall 1 "readChunk" [VNum 1];
          mkCall 1 "close" []] []) /\
    readable st2 = false /\ queue st2 = [[1]]%Z /\ result st2 = Resolved.
Proof.
  apply (nothing_after_the_end (fileHost CompactJSON.print true) CompactJSON.parse
           streamWindow (file "/sdcard/a.bin") (mkOptions (Some 1%Z) (Some false))
           (fresh (mkFileStream [1; 2; 3]%Z false))
           (mkState (Some (handle "/sdcard/a.bin")) 1 (Some false) true (Some Readable)
              [] Resolved)
           (mkWorld (mkFileStream [1; 2; 3]%Z false)
              [mkCall 0 "open" [VStr "/sdcard/a.bin"]] [])
           [Pull; Cancel]).
  - reflexivity.
  - vm_compute. reflexivity.
  - reflexivity.
Defined.

Lemma fetch_calls_only_readChunk_and_close_witness :
  exists st' w' added,
    run (fileHost CompactJSON.print true) CompactJSON.parse [Pull; Abort; Pull]
      (mkState (Some (handle "/sdcard/a.bin")) 1 (Some false) true (Some Readable) []
         Resolved)
      (mkWorld (mkFileStream [1; 2; 3]%Z false)
         [mkCall 0 "open" [VStr "/sdcard/a.bin"]] [])
    = (Ret st', w') /\
    calls w' = [mkCall 0 "open" [VStr "/sdcard/a.bin"]] ++ added /\
    Forall (readChunkOrClose handleRef 1) added.
Proof.
  apply (fetch_calls_only_readChunk_and_close (fileHost CompactJSON.print true)
           CompactJSON.parse handleRef [Pull; Abort; Pull]).
  exists "/sdcard/a.bin", (Some "$suFileInputStream"). reflexivity.
Defined.

Lemma failed_read_errors_the_stream_witness :
  exists w',
    pull (fileHost CompactJSON.print true) CompactJSON.parse
      (mkState (Some (handle "/sdcard/a.bin")) 1 (Some true) true (Some Readable)
         [[1]]%Z Resolved)
      (fresh (mkFileStream [2; 3]%Z true))
    = (Ret (reject (Error ("Error reading file chunk: " ++ message (Error "Stream Closed")))
              (set_body (Errored (Error "Stream Closed"))
                 (unlisten
                    (mkState (Some (handle "/sdcard/a.bin")) 1 (Some true) true
                       (Some Readable) [[1]]%Z Resolved)))), w') /\
    calls w' = calls (fresh (mkFileStream [2; 3]%Z true))
               ++ [mkCall handleRef "readChunk"
                     [VNum (chunkSize
                              (mkState (Some (handle "/sdcard/a.bin")) 1 (Some true) true
                                 (Some Readable) [[1]]%Z Resolved))];
                   mkCall handleRef "close" []].
Proof.
  apply (failed_read_errors_the_stream (fileHost CompactJSON.print true)
           CompactJSON.parse handleRef
           (mkState (Some (handle "/sdcard/a.bin")) 1 (Some true) true (Some Readable)
              [[1]]%Z Resolved)
           (fresh (mkFileStream [2; 3]%Z true)) (Error "Stream Closed")).
  - exists "/sdcard/a.bin", (Some "$suFileInputStream"). reflexivity.
  - left. exists (mkFileStream [2; 3]%Z true). reflexivity.
Defined.

Lemma handle_closed_at_most_twice_witness :
  exists st' w',
    run (fileHost CompactJSON.print true) CompactJSON.parse [Pull; Abort; Pull; Pull]
      (mkState (Some (handle "/sdcard/a.bin")) 1 (Some false) true (Some Readable) []
         Resolved)
      (mkWorld (mkFileStream [1; 2; 3]%Z false)
         [mkCall 0 "open" [VStr "/sdcard/a.bin"]] [])
    = (Ret st', w') /\
    (closeCount w' + pendingCloses st' <= 0 + 2)%nat /\
    (closeCount w' <= 0 + 2)%nat /\
    (Some false = None -> closeCount w' <= 0 + 1)%nat.
Proof.
  apply (handle_closed_at_most_twice (fileHost CompactJSON.print true)
           CompactJSON.parse handleRef [Pull; Abort; Pull; Pull]
           (mkState (Some (handle "/sdcard/a.bin")) 1 (Some false) true (Some Readable)
              [] Resolved)
           (mkWorld (mkFileStream [1; 2; 3]%Z false)
              [mkCall 0 "open" [VStr "/sdcard/a.bin"]] [])).
  exists "/sdcard/a.bin", (Some "$suFileInputStream"). reflexivity.
Defined.

End FetchInvariants.

(* ================================================================= *)
(** ** The config store: construction *)

Module ConfigConstruction.
Import Hosts Programs.

Section Constructor.
Context {H : Type} (sem : semantics H).
Variable toUpperCase : string -> string.
Variable Path_resolve : string -> string -> string.
Variable JSON_parse : value -> outcome value.

Let new := Config.new sem toUpperCase Path_resolve JSON_parse.

Lemma isMMRL_new e win scope :
  isMMRL (FileSystem.new toUpperCase e win (inl scope))
  = (mmrlUserAgent e =? userAgent e).
Proof. reflexivity. Qed.

Lemma interface_new e win scope o :
  window_get win ("$" ++ AccessorScope.sanitizedModIdWithFile toUpperCase scope)
  = Some o ->
  interface (FileSystem.new toUpperCase e win (inl scope)) = o.
Proof.
  intros E. unfold FileSystem.new, AccessorScope.parseFileScope. now rewrite E.
Qed.

Ltac unfold_new :=
  unfold new, Config.new, Config._loadConfig; cbv zeta;
  unfold FileSystem.exists_, FileSystem.mkdirs, FileSystem.gated, FileSystem.write,
    FileSystem.read, FileSystem._unsupportedWarning.

(** X22.  A [Config] cannot be constructed outside MMRL: the file system
    answers [false] to [exists] and to [mkdirs] and [null] to [read] without
    calling the host, and the constructor throws "Failed to read config
    file.", whatever the scope and the page. *)
Theorem Config_new_outside_MMRL (e : env) (win : window value) (scope : string)
    (w : world H) :
  mmrlUserAgent e <> userAgent e ->
  new e win scope w = (Throw (Error "Failed to read config file."), w).
Proof.
  intros Hua. apply String.eqb_neq in Hua.
  unfold_new. rewrite !isMMRL_new, Hua. reflexivity.
Qed.

(** X23.  On a host older than version 33162 the constructor cannot create a
    missing config file: [exists] and [read] are not gated and reach the
    host, but [mkdirs] is gated, so it warns and returns [false], and
    neither [mkdirs] nor [write] is called.  When the file is missing and
    [read] then returns nothing, the constructor throws. *)
Theorem Config_new_on_old_host (e : env) (win : window value) (scope : string)
    (r : nat) (w : world H) (present content : value) (h1 h2 : H) :
  let file := Path_resolve ("/data/adb/.config/" ++ scope) "config.json" in
  mmrlUserAgent e = userAgent e ->
  (hostVersionCode e < FileSystem.advancedFsOperations)%Z ->
  window_get win ("$" ++ AccessorScope.sanitizedModIdWithFile toUpperCase scope)
  = Some (VRef r) ->
  sem r "exists" [VStr file] (host w) = (Ret present, h1) ->
  truthy present = false ->
  sem r "read" [VStr file; VBool false] h1 = (Ret content, h2) ->
  truthy content = false ->
  new e win scope w
  = (Throw (Error "Failed to read config file."),
     mkWorld h2
       (calls w ++ [mkCall r "exists" [VStr file];
                    mkCall r "read" [VStr file; VBool false]])
       (console w ++ [mkLog LWarn "'mkdirs' is not supported on this version" None])).
Proof.
  intros file Hua Hlt Hwin Hexists Hpresent Hread Hcontent.
  apply String.eqb_eq in Hua.
  assert (Hv : hasRequiredVersion (FileSystem.new toUpperCase e win (inl scope))
                 FileSystem.advancedFsOperations = false)
    by (apply AccessorFacts.hasRequiredVersion_below; exact Hlt).
  destruct w as [h cs l]. cbn [host calls console] in *.
  unfold_new. rewrite !isMMRL_new, Hua, Hv, !(interface_new e win scope _ Hwin).
  cbn [negb].
  cbv beta iota zeta delta [bind invoke ret throw console_warn log].
  cbn [host calls console]. fold file.
  rewrite Hexists, Hpresent. cbn [negb truthy host calls console].
  rewrite Hread, Hcontent. cbn [negb].
  now rewrite <- app_assoc.
Qed.

(** X24.  The two ways the constructor succeeds in MMRL.  When the config
    file exists, the constructor calls [exists] and [read] and nothing else,
    and its document is what [JSON.parse] makes of the content.  When the
    file does not exist, on a host at version 33162 or later whose [mkdirs]
    succeeds, the constructor writes ["{}"] to the file between [mkdirs] and
    [read]. *)
Theorem Config_new_loads (e : env) (win : window value) (scope : string)
    (r : nat) (w : world H) (present : value) (h1 : H) :
  let folder := ("/data/adb/.config/" ++ scope)%string in
  let file := Path_resolve folder "config.json" in
  let fs := FileSystem.new toUpperCase e win (inl scope) in
  mmrlUserAgent e = userAgent e ->
  window_get win ("$" ++ AccessorScope.sanitizedModIdWithFile toUpperCase scope)
  = Some (VRef r) ->
  sem r "exists" [VStr file] (host w) = (Ret present, h1) ->
  (truthy present = true ->
   forall content h2 doc,
     sem r "read" [VStr file; VBool false] h1 = (Ret content, h2) ->
     truthy content = true ->
     JSON_parse content = Ret doc ->
     new e win scope w
     = (Ret (Config.mkConfig folder fs "config.json" file doc),
        mkWorld h2
          (calls w ++ [mkCall r "exists" [VStr file];
                       mkCall r "read" [VStr file; VBool false]])
          (console w))) /\
  (truthy present = false ->
   (FileSystem.advancedFsOperations <= hostVersionCode e)%Z ->
   forall made h2 written h3 content h4 doc,
     sem r "mkdirs" [VStr folder] h1 = (Ret made, h2) ->
     truthy made = true ->
     sem r "write" [VStr file; VStr "{}"] h2 = (Ret written, h3) ->
     sem r "read" [VStr file; VBool false] h3 = (Ret content, h4) ->
     truthy content = true ->
     JSON_parse content = Ret doc ->
     new e win scope w
     = (Ret (Config.mkConfig folder fs "config.json" file doc),
        mkWorld h4
          (calls w ++ [mkCall r "exists" [VStr file];
                       mkCall r "mkdirs" [VStr folder];
                       mkCall r "write" [VStr file; VStr "{}"];
                       mkCall r "read" [VStr file; VBool false]])
          (console w))).
Proof.
  intros folder file fs Hua Hwin Hexists.
  apply String.eqb_eq in Hua.
  destruct w as [h cs l]. cbn [host calls console] in *.
  split.
  - intros Hpresent content h2 doc Hread Hcontent Hparse.
    unfold_new. rewrite !isMMRL_new, Hua, !(interface_new e win scope _ Hwin).
    cbn [negb].
    cbv beta iota zeta delta [bind invoke ret throw console_warn log].
    cbn [host calls console]. fold folder. fold file. fold fs.
    rewrite Hexists, Hpresent. cbn [negb truthy host calls console].
    rewrite Hread, Hcontent. cbn [negb]. rewrite Hparse.
    now rewrite <- app_assoc.
  - intros Hpresent Hle made h2 written h3 content h4 doc
      Hmkdirs Hmade Hwrite Hread Hcontent Hparse.
    assert (Hv : hasRequiredVersion (FileSystem.new toUpperCase e win (inl scope))
                   FileSystem.advancedFsOperations = true)
      by (apply AccessorFacts.hasRequiredVersion_at_or_above; exact Hle).
    unfold_new. rewrite !isMMRL_new, Hua, Hv, !(interface_new e win scope _ Hwin).
    cbn [negb].
    cbv beta iota zeta delta [bind invoke ret throw console_warn log].
    cbn [host calls console]. fold folder. fold file. fold fs.
    rewrite Hexists, Hpresent. cbn [negb truthy host calls console].
    rewrite Hmkdirs. cbn [host calls console]. rewrite Hmade.
    cbn [host calls console]. rewrite Hwrite. cbn [host calls console].
    rewrite Hread, Hcontent. cbn [negb]. rewrite Hparse.
    now rewrite <- !app_assoc.
Qed.

End Constructor.

Lemma Config_new_outside_MMRL_witness :
  Config.new (failing (Error "unreachable")) ascii_toUpperCase joinPath
    parseEmptyObject browser [("$NeFile", VRef 0)] "net-switch" (fresh tt)
  = (Throw (Error "Failed to read config file."), fresh tt).
Proof.
  apply (Config_new_outside_MMRL (failing (Error "unreachable")) ascii_toUpperCase
           joinPath parseEmptyObject browser [("$NeFile", VRef 0)] "net-switch"
           (fresh tt)).
  discriminate.
Defined.

Lemma Config_new_on_old_host_witness :
  Config.new memfs ascii_toUpperCase joinPath parseEmptyObject (mmrlAt 33161)
    [("$NeFile", VRef 0)] "net-switch" (fresh [])
  = (Throw (Error "Failed to read config file."),
     mkWorld []
       [mkCall 0 "exists" [VStr "/data/adb/.config/net-switch/config.json"];
        mkCall 0 "read" [VStr "/data/adb/.config/net-switch/config.json"; VBool false]]
       [mkLog LWarn "'mkdirs' is not supported on this version" None]).
Proof.
  apply (Config_new_on_old_host memfs ascii_toUpperCase joinPath parseEmptyObject
           (mmrlAt 33161) [("$NeFile", VRef 0)] "net-switch" 0 (fresh [])
           (VBool false) VNull [] []);
    reflexivity.
Defined.

Lemma Config_new_loads_witness :
  Config.new memfs ascii_toUpperCase joinPath parseEmptyObject (mmrlAt 33162)
    [("$NeFile", VRef 0)] "net-switch" (fresh [])
  = (Ret (Config.mkConfig "/data/adb/.config/net-switch"
            (mkAccessor (mmrlAt 33162) (VRef 0)) "config.json"
            "/data/adb/.config/net-switch/config.json" (VObj false [])),
     mkWorld [("/data/adb/.config/net-switch/config.json", "{}")]
       [mkCall 0 "exists" [VStr "/data/adb/.config/net-switch/config.json"];
        mkCall 0 "mkdirs" [VStr "/data/adb/.config/net-switch"];
        mkCall 0 "write" [VStr "/data/adb/.config/net-switch/config.json"; VStr "{}"];
        mkCall 0 "read" [VStr "/data/adb/.config/net-switch/config.json"; VBool false]]
       []).
Proof.
  apply (proj2 (Config_new_loads memfs ascii_toUpperCase joinPath parseEmptyObject
                  (mmrlAt 33162) [("$NeFile", VRef 0)] "net-switch" 0 (fresh [])
                  (VBool false) [] eq_refl eq_refl eq_refl)
           eq_refl ltac:(vm_compute; discriminate)
           (VBool true) [] VUndefined
           [("/data/adb/.config/net-switch/config.json", "{}")]
           (VStr "{}") [("/data/adb/.config/net-switch/config.json", "{}")]
           (VObj false []));
    reflexivity.
Defined.

End ConfigConstruction.

(* ================================================================= *)
(** ** The config store: sequences of [set], and what a [set] leaves alone *)

Module ConfigStore.
Import Hosts Lodash Programs.

Lemma set_returns {H} (sem : semantics H) JSON_stringify looksDeep stringToPath
    (this : Config.config_t) key v (w : world H) this' w' :
  Config.set sem JSON_stringify looksDeep stringToPath this key v w = (Ret this', w') ->
  this' = Config.mkConfig (Config._configFolder this) (Config._fs this)
            (Config._configFile this) (Config._filePath this)
            (Lodash.set looksDeep stringToPath (Config.config this) key v).
Proof.
  unfold Config.set, bind, ret.
  match goal with
  | |- context [Config._saveConfig sem JSON_stringify ?t w] =>
      destruct (Config._saveConfig sem JSON_stringify t w) as [[u|e] w1]
  end; [|discriminate].
  now intros [= <- _].
Qed.


Section Persistence.
Context {H : Type} (sem : semantics H).

(** What the host holds under a path. *)
Variable content : H -> string -> option string.

Variable JSON_stringify : value -> string.
Variable looksDeep : string -> bool.
Variable stringToPath : string -> list string.

Let set := Config.set sem JSON_stringify looksDeep stringToPath.
Let setAll := Programs.setAll sem JSON_stringify looksDeep stringToPath.



End Persistence.


Example sets_are_persisted_document :
  Config.config
    (match fst (setAll memfs Documents.stringify Documents.hasDot Documents.splitDots
                  [("ui.theme", VStr "light"); ("lang", VStr "en");
                   ("ui.theme", VStr "dark")]
                  Documents.netSwitch (fresh [])) with
     | Ret this' => this'
     | Throw _ => Documents.netSwitch
     end)
  = VObj false [("ui", VObj false [("theme", VStr "dark")]); ("lang", VStr "en")].
Proof. vm_compute. reflexivity. Qed.

(** *** What a [set] leaves alone *)

Lemma replace_replace props key v1 v2 :
  replace (replace props key v1) key v2 = replace props key v2.
Proof.
  induction props as [|[k x] props IH]; [reflexivity|].
  cbn [replace]. destruct (k =? key) eqn:E; cbn [replace]; rewrite E; [reflexivity|].
  now rewrite IH.
Qed.

Lemma replace_insert props key v1 v2 :
  lookup props key = None ->
  replace (insert props key v1) key v2 = insert props key v2.
Proof.
  induction props as [|[k x] props IH]; cbn [lookup insert replace].
  - now rewrite String.eqb_refl.
  - destruct (k =? key) eqn:E; [discriminate|]. intros Hnone.
    destruct (listedBefore key k); cbn [replace].
    + now rewrite String.eqb_refl.
    + rewrite E. now rewrite (IH Hnone).
Qed.

Lemma assign_assign props key v1 v2 :
  assign (assign props key v1) key v2 = assign props key v2.
Proof.
  unfold assign at 1. rewrite ConfigFacts.lookup_assign_same.
  unfold assign. destruct (lookup props key) eqn:E.
  - apply replace_replace.
  - now apply replace_insert.
Qed.

Lemma baseSetFrom_overwrite path : forall nested v1 v2,
  baseSetFrom (baseSetFrom nested path v1) path v2 = baseSetFrom nested path v2.
Proof.
  induction path as [|key rest IH]; intros nested v1 v2; [reflexivity|].
  cbn [baseSetFrom]. destruct (unsafeKey key) eqn:Eu; [reflexivity|].
  - destruct nested as [| | | | |isArr props|]; try reflexivity.
    rewrite ConfigFacts.getProp_assign.
    destruct rest as [|next rest'].
    + now rewrite assign_assign.
    + rewrite assign_assign. f_equal. f_equal.
      set (child := if isObject (getProp (VObj isArr props) key)
                    then getProp (VObj isArr props) key
                    else if isIndex next then VObj true [] else VObj false []).
      assert (Hchild : isObject child = true).
      { unfold child.
        destruct (isObject (getProp (VObj isArr props) key)) eqn:E; [exact E|].
        now destruct (isIndex next). }
      rewrite (ConfigFacts.baseSetFrom_isObject (next :: rest') child v1 Hchild).
      apply IH.
Qed.

Lemma clean_cons isArr k x rest :
  clean (VObj isArr ((k, x) :: rest))
  = negb (unsafeKey k) && clean x && clean (VObj isArr rest).
Proof. reflexivity. Qed.

Lemma clean_lookup isArr props key x :
  clean (VObj isArr props) = true -> lookup props key = Some x -> clean x = true.
Proof.
  induction props as [|[k y] props IH]; [discriminate 2|].
  rewrite clean_cons. intros Hc. apply andb_prop in Hc as [Hc Hrest].
  apply andb_prop in Hc as [_ Hy].
  cbn [lookup]. destruct (k =? key).
  - now intros [= <-].
  - now apply IH.
Qed.

Lemma clean_getProp obj key : clean obj = true -> clean (getProp obj key) = true.
Proof.
  destruct obj as [| | | | |isArr props|]; try reflexivity.
  intros Hc. cbn [getProp]. destruct (lookup props key) as [x|] eqn:E; [|reflexivity].
  exact (clean_lookup isArr props key x Hc E).
Qed.

Lemma clean_replace isArr props key v :
  clean (VObj isArr props) = true ->
  clean v = true ->
  clean (VObj isArr (replace props key v)) = true.
Proof.
  intros Hc Hv. induction props as [|[k x] props IH]; [reflexivity|].
  cbn [replace].
  rewrite clean_cons in Hc. apply andb_prop in Hc as [Hc Hrest].
  apply andb_prop in Hc as [Hkk Hx].
  destruct (k =? key); rewrite clean_cons, Hkk.
  - now rewrite Hv, Hrest.
  - now rewrite Hx, (IH Hrest).
Qed.

Lemma clean_insert isArr props key v :
  clean (VObj isArr props) = true ->
  unsafeKey key = false ->
  clean v = true ->
  clean (VObj isArr (insert props key v)) = true.
Proof.
  intros Hc Hk Hv. induction props as [|[k x] props IH]; cbn [insert].
  - rewrite clean_cons, Hk, Hv. reflexivity.
  - destruct (listedBefore key k).
    + rewrite clean_cons, Hk, Hv. exact Hc.
    + rewrite clean_cons in Hc. apply andb_prop in Hc as [Hc Hrest].
      apply andb_prop in Hc as [Hkk Hx].
      rewrite clean_cons, Hkk, Hx. now apply IH.
Qed.

Lemma clean_assign isArr props key v :
  clean (VObj isArr props) = true ->
  unsafeKey key = false ->
  clean v = true ->
  clean (VObj isArr (assign props key v)) = true.
Proof.
  intros Hc Hk Hv. unfold assign. destruct (lookup props key).
  - now apply clean_replace.
  - now apply clean_insert.
Qed.

Lemma clean_baseSetFrom path : forall nested v,
  clean nested = true -> clean v = true -> clean (baseSetFrom nested path v) = true.
Proof.
  induction path as [|key rest IH]; intros nested v Hn Hv; [exact Hn|].
  cbn [baseSetFrom]. destruct (unsafeKey key) eqn:Eu; [exact Hn|].
  destruct nested as [| | | | |isArr props|]; try exact Hn.
  apply clean_assign; [exact Hn | exact Eu |].
  destruct rest as [|next rest']; [exact Hv|].
  apply IH; [|exact Hv].
  destruct (isObject (getProp (VObj isArr props) key)).
  - now apply clean_getProp.
  - now destruct (isIndex next).
Qed.

Section Laws.
Context {H : Type} (sem : semantics H).
Variable JSON_stringify : value -> string.
Variable looksDeep : string -> bool.
Variable stringToPath : string -> list string.

Let set := Config.set sem JSON_stringify looksDeep stringToPath.
Let get := Config.get looksDeep stringToPath.

Lemma set_not_object (doc : value) key v :
  isObject doc = false -> Lodash.set looksDeep stringToPath doc key v = doc.
Proof. destruct doc; try reflexivity; discriminate. Qed.

(** X26.  A [set] of a plain key (one that lodash does not read as a path)
    on a document that is a plain object changes the property of that name
    and no other: the document is still a plain object, every other own
    property is what it was, and [get] of any other plain key gives what it
    gave before. *)
Theorem set_leaves_other_keys (this : Config.config_t) (key : string) (v : value)
    (w : world H) (this' : Config.config_t) (w' : world H)
    (props : list (string * value)) :
  set this key v w = (Ret this', w') ->
  Config.config this = VObj false props ->
  looksDeep key = false ->
  exists props',
    Config.config this' = VObj false props' /\
    (forall key', key' <> key -> lookup props' key' = lookup props key') /\
    (forall key' d,
       looksDeep key' = false -> key' <> key -> get this' key' d = get this key' d).
Proof.
  intros E Hdoc Hplain. apply set_returns in E. subst this'.
  cbn [Config.config]. rewrite Hdoc.
  unfold Lodash.set, baseSet. cbn [isObject negb].
  rewrite (ConfigFacts.castPath_plain looksDeep stringToPath _ key Hplain).
  cbn [baseSetFrom].
  assert (Hget : forall props',
             (forall key', key' <> key -> lookup props' key' = lookup props key') ->
             forall key' d,
               looksDeep key' = false -> key' <> key ->
               Lodash.get looksDeep stringToPath (VObj false props') key' d
               = Lodash.get looksDeep stringToPath (VObj false props) key' d).
  { intros props' Hsame key' d Hplain' Hne.
    unfold Lodash.get, baseGet.
    rewrite !(ConfigFacts.castPath_plain looksDeep stringToPath _ key' Hplain').
    cbn [walk getProp]. now rewrite (Hsame key' Hne). }
  destruct (unsafeKey key).
  - exists props. split; [reflexivity|]. split; [reflexivity|].
    intros key' d Hplain' Hne. unfold get, Config.get. cbn [Config.config].
    now rewrite Hdoc.
  - exists (assign props key v). split; [reflexivity|].
    assert (Hsame : forall key', key' <> key ->
                      lookup (assign props key v) key' = lookup props key')
      by (intros key' Hne; now apply ConfigFacts.lookup_assign_other).
    split; [exact Hsame|].
    intros key' d Hplain' Hne. unfold get, Config.get. cbn [Config.config].
    rewrite Hdoc. now apply Hget.
Qed.

(** X27.  Two [set]s of the same key, one after the other, on an ordinary
    path of the document: the document is the one the second [set] alone
    would have given.  In particular a [set] repeated with the same value
    changes nothing the second time. *)
Theorem set_overwrites (this : Config.config_t) (key : string) (v1 v2 : value)
    (w : world H) (this1 : Config.config_t) (w1 : world H)
    (this2 : Config.config_t) (w2 : world H) :
  (looksDeep key = true -> hd_error (stringToPath key) <> Some key) ->
  ordinary (Config.config this)
    (castPath looksDeep stringToPath key (Config.config this)) = true ->
  set this key v1 w = (Ret this1, w1) ->
  set this1 key v2 w1 = (Ret this2, w2) ->
  Config.config this2
  = Lodash.set looksDeep stringToPath (Config.config this) key v2 /\
  (v1 = v2 -> Config.config this2 = Config.config this1).
Proof.
  intros Hscan _ E1 E2. apply set_returns in E1, E2. subst this1 this2.
  cbn [Config.config].
  assert (Hover : forall a b,
             Lodash.set looksDeep stringToPath
               (Lodash.set looksDeep stringToPath (Config.config this) key a) key b
             = Lodash.set looksDeep stringToPath (Config.config this) key b).
  { intros a b.
    destruct (isObject (Config.config this)) eqn:Eobj.
    - pose proof (ConfigFacts.castPath_stable looksDeep stringToPath
                    (Config.config this) key a Hscan) as Hstable.
      destruct (Config.config this) as [| | | | |isArr props|r] eqn:Edoc;
        try discriminate Eobj.
      + assert (Es : Lodash.set looksDeep stringToPath (VObj isArr props) key a
                     = baseSetFrom (VObj isArr props)
                         (castPath looksDeep stringToPath key (VObj isArr props)) a)
          by reflexivity.
        pose proof (ConfigFacts.baseSetFrom_isObject
                      (castPath looksDeep stringToPath key (VObj isArr props))
                      (VObj isArr props) a eq_refl) as Hobj1.
        rewrite <- Es in Hobj1.
        destruct (Lodash.set looksDeep stringToPath (VObj isArr props) key a)
          as [| | | | |isArr1 props1|r1] eqn:E1; try discriminate Hobj1.
        * unfold Lodash.set at 1, baseSet. cbn [isObject negb].
          rewrite Hstable, Es. apply baseSetFrom_overwrite.
        * unfold Lodash.set at 1, baseSet. cbn [isObject negb].
          rewrite Hstable, Es. apply baseSetFrom_overwrite.
      + unfold Lodash.set, baseSet. cbn [isObject negb].
        now rewrite !ConfigFacts.baseSetFrom_ref.
    - now rewrite (set_not_object (Config.config this) key a Eobj). }
  split; [apply Hover|].
  intros <-. apply Hover.
Qed.

(** X28.  A [set] never creates a property named [__proto__], [constructor]
    or [prototype]: when the document has none at any depth, and the value
    set has none, the document after the [set] has none. *)
Theorem set_keeps_documents_clean (this : Config.config_t) (key : string) (v : value)
    (w : world H) (this' : Config.config_t) (w' : world H) :
  set this key v w = (Ret this', w') ->
  clean (Config.config this) = true ->
  clean v = true ->
  clean (Config.config this') = true.
Proof.
  intros E Hdoc Hv. apply set_returns in E. subst this'. cbn [Config.config].
  destruct (Config.config this) as [| | | | |isArr props|r]; try reflexivity.
  - unfold Lodash.set, baseSet. cbn [isObject negb].
    now apply clean_baseSetFrom.
  - unfold Lodash.set, baseSet. cbn [isObject negb].
    now rewrite ConfigFacts.baseSetFrom_ref.
Qed.

End Laws.

Lemma set_leaves_other_keys_witness :
  exists props',
    VObj false [("ui", VObj false [("theme", VStr "dark")]); ("lang", VStr "en")]
    = VObj false props' /\
    (forall key', key' <> "lang" ->
       lookup props' key' = lookup [("ui", VObj false [("theme", VStr "dark")])] key') /\
    (forall key' d,
       Documents.hasDot key' = false -> key' <> "lang" ->
       Config.get Documents.hasDot Documents.splitDots
         (Config.mkConfig "/data/adb/.config/net-switch"
            (mkAccessor (mmrlAt 40000) (VRef 0))
            "config.json" "/data/adb/.config/net-switch/config.json"
            (VObj false [("ui", VObj false [("theme", VStr "dark")]);
                         ("lang", VStr "en")]))
         key' d
       = Config.get Documents.hasDot Documents.splitDots Documents.netSwitch key' d).
Proof.
  apply (set_leaves_other_keys memfs Documents.stringify Documents.hasDot
           Documents.splitDots Documents.netSwitch "lang" (VStr "en") (fresh [])
           (Config.mkConfig "/data/adb/.config/net-switch"
              (mkAccessor (mmrlAt 40000) (VRef 0))
              "config.json" "/data/adb/.config/net-switch/config.json"
              (VObj false [("ui", VObj false [("theme", VStr "dark")]);
                           ("lang", VStr "en")]))
           (snd (Config.set memfs Documents.stringify Documents.hasDot
                   Documents.splitDots Documents.netSwitch "lang" (VStr "en")
                   (fresh [])))
           [("ui", VObj false [("theme", VStr "dark")])]).
  - vm_compute. reflexivity.
  - reflexivity.
  - reflexivity.
Defined.

Lemma set_overwrites_witness :
  VObj false [("ui", VObj false [("theme", VStr "system")])]
  = Lodash.set Documents.hasDot Documents.splitDots
      (Config.config Documents.netSwitch) "ui.theme" (VStr "system") /\
  (VStr "light" = VStr "system" ->
   VObj false [("ui", VObj false [("theme", VStr "system")])]
   = VObj false [("ui", VObj false [("theme", VStr "light")])]).
Proof.
  apply (set_overwrites memfs Documents.stringify Documents.hasDot
           Documents.splitDots Documents.netSwitch "ui.theme"
           (VStr "light") (VStr "system") (fresh [])
           (Config.mkConfig "/data/adb/.config/net-switch"
              (mkAccessor (mmrlAt 40000) (VRef 0))
              "config.json" "/data/adb/.config/net-switch/config.json"
              (VObj false [("ui", VObj false [("theme", VStr "light")])]))
           (snd (Config.set memfs Documents.stringify Documents.hasDot
                   Documents.splitDots Documents.netSwitch "ui.theme" (VStr "light")
                   (fresh [])))
           (Config.mkConfig "/data/adb/.config/net-switch"
              (mkAccessor (mmrlAt 40000) (VRef 0))
              "config.json" "/data/adb/.config/net-switch/config.json"
              (VObj false [("ui", VObj false [("theme", VStr "system")])]))
           (snd (Config.set memfs Documents.stringify Documents.hasDot
                   Documents.splitDots
                   (Config.mkConfig "/data/adb/.config/net-switch"
                      (mkAccessor (mmrlAt 40000) (VRef 0))
                      "config.json" "/data/adb/.config/net-switch/config.json"
                      (VObj false [("ui", VObj false [("theme", VStr "light")])]))
                   "ui.theme" (VStr "system")
                   (snd (Config.set memfs Documents.stringify Documents.hasDot
                           Documents.splitDots Documents.netSwitch "ui.theme"
                           (VStr "light") (fresh [])))))).
  - intros _. vm_compute. discriminate.
  - vm_compute. reflexivity.
  - vm_compute. reflexivity.
  - vm_compute. reflexivity.
Defined.

Lemma set_keeps_documents_clean_witness :
  clean (VObj false [("ui", VObj false [("theme", VStr "dark");
                                        ("accent", VObj false [("hue", VNum 210)])])])
  = true.
Proof.
  apply (set_keeps_documents_clean memfs Documents.stringify Documents.hasDot
           Documents.splitDots Documents.netSwitch "ui.accent"
           (VObj false [("hue", VNum 210)]) (fresh [])
           (Config.mkConfig "/data/adb/.config/net-switch"
              (mkAccessor (mmrlAt 40000) (VRef 0))
              "config.json" "/data/adb/.config/net-switch/config.json"
              (VObj false [("ui", VObj false [("theme", VStr "dark");
                                              ("accent",
                                               VObj false [("hue", VNum 210)])])]))
           (snd (Config.set memfs Documents.stringify Documents.hasDot
                   Documents.splitDots Documents.netSwitch "ui.accent"
                   (VObj false [("hue", VNum 210)]) (fresh [])))).
  - vm_compute. reflexivity.
  - reflexivity.
  - reflexivity.
Defined.

End ConfigStore.
